(** * deep_researcher: report assembly

    A shallow embedding of the text-processing core of
    [deep_researcher/agents/long_writer_agent.py]:
    - [reformat_references]: merging a section's reference list into the
      report's running list and renumbering the in-text markers;
    - [reformat_section_headings]: rebasing the heading levels of a section;
    - [write_report]: the layout of the assembled document;
    together with the task plan of [agents/tool_selector_agent.py].

    Conventions of the embedding.
    - A Python [str] is a list of 8-bit characters, each read as the code
      point of the same number (the Latin-1 range).  The character classes
      below are the ones of Python 3 on that range.
    - Python integers are [Z].  The interpreter refuses to convert
      between [int] and [str] in base ten when more than
      [sys.get_int_max_str_digits()] digits are involved; the program runs
      with the default of that limit, 4300 digits, and the conversions of
      the model raise [ValueError] beyond it.
    - A raised exception is a value of [exn] carried by [result].
    - Text written to standard output by [print] is not modelled. *)

From Stdlib Require Import List Ascii String ZArith Lia Bool.
From Stdlib Require Import Decimal DecimalString DecimalZ.
From Stdlib Require Nnat DecimalFacts DecimalPos.
From Equations Require Import Equations.
Import ListNotations.

Set Implicit Arguments.

Open Scope string_scope.
Open Scope list_scope.

(** ** Exceptions *)

Inductive exn : Type :=
| ValueError
| IndexError
| CollaboratorError.

Inductive result (A : Type) : Type :=
| Ok (a : A)
| Raise (e : exn).

Arguments Ok {A} a.
Arguments Raise {A} e.

Definition bind {A B : Type} (r : result A) (k : A -> result B) : result B :=
  match r with
  | Ok a => k a
  | Raise e => Raise e
  end.

Notation "x <- r ;; k" := (bind r (fun x => k))
  (at level 61, r at next level, right associativity).
Notation "' p <- r ;; k" := (bind r (fun p => k))
  (at level 61, p pattern, r at next level, right associativity).

(** ** Python strings *)

Definition str : Type := list ascii.

Coercion list_ascii_of_string : string >-> list.

(** A list of string literals. *)
Definition strs (l : list string) : list str := map list_ascii_of_string l.

Definition str_eq_dec : forall a b : str, {a = b} + {a <> b} :=
  list_eq_dec ascii_dec.

Module PyStr.

(** [str.isspace] and the class [\s] of [re] on [str] patterns. *)
Definition is_space (c : ascii) : bool :=
  let n := nat_of_ascii c in
  ((9 <=? n) && (n <=? 13) || (28 <=? n) && (n <=? 32)
   || (n =? 133) || (n =? 160))%nat.

(** The characters [int()] skips around a literal: the C-locale blanks,
    plus the non-ASCII blanks, which it first turns into spaces. *)
Definition is_int_space (c : ascii) : bool :=
  let n := nat_of_ascii c in
  ((9 <=? n) && (n <=? 13) || (n =? 32) || (n =? 133) || (n =? 160))%nat.

(** The class [\d]. *)
Definition is_digit (c : ascii) : bool :=
  let n := nat_of_ascii c in ((48 <=? n) && (n <=? 57))%nat.

Definition is_char (a c : ascii) : bool := Ascii.eqb c a.

Definition not_char (a c : ascii) : bool := negb (Ascii.eqb c a).

(** Longest prefix whose characters all satisfy [p], and what follows. *)
Fixpoint span (p : ascii -> bool) (s : str) : str * str :=
  match s with
  | [] => ([], [])
  | c :: t =>
      if p c then let (a, b) := span p t in (c :: a, b) else ([], s)
  end.

Definition take_while (p : ascii -> bool) (s : str) : str := fst (span p s).
Definition drop_while (p : ascii -> bool) (s : str) : str := snd (span p s).

(** [s.strip(chars)] for the set of characters recognised by [p]. *)
Definition strip_chars (p : ascii -> bool) (s : str) : str :=
  List.rev (drop_while p (List.rev (drop_while p s))).

(** [s.strip()]. *)
Definition strip (s : str) : str := strip_chars is_space s.

(** [s.split(sep)[0]]: the text before the first [sep]. *)
Definition split_head (sep : ascii) (s : str) : str :=
  take_while (not_char sep) s.

(** [s.split(sep, 1)[1]]: the text after the first [sep]; the list has a
    single element when [sep] does not occur, and the index is then out
    of range. *)
Definition split_tail (sep : ascii) (s : str) : result str :=
  match drop_while (not_char sep) s with
  | [] => Raise IndexError
  | _ :: r => Ok r
  end.

(** [sep.join(l)]. *)
Fixpoint join (sep : str) (l : list str) : str :=
  match l with
  | [] => []
  | x :: r =>
      match r with
      | [] => x
      | _ :: _ => x ++ sep ++ join sep r
      end
  end.

(** The line feed, and the blank line [\n\n]. *)
Definition newline : ascii := "010"%char.
Definition nl : str := [newline].
Definition nl2 : str := [newline; newline].

(** [s.split('\n')]: the lines of a text. *)
Fixpoint lines (s : str) : list str :=
  match s with
  | [] => [[]]
  | c :: t =>
      if Ascii.eqb c newline then [] :: lines t
      else
        match lines t with
        | l :: r => (c :: l) :: r
        | [] => [[c]]
        end
  end.

(** [c * n]. *)
Definition repeat_char (c : ascii) (n : Z) : str := repeat c (Z.to_nat n).

(** *** [int(s)] and [str(n)] *)

(** The default of [sys.get_int_max_str_digits()]: the greatest number
    of digits that [int()] reads and that [str()] writes. *)
Definition int_max_str_digits : nat := 4300.

Definition digit_of (c : ascii) : option (uint -> uint) :=
  match nat_of_ascii c with
  | 48 => Some D0 | 49 => Some D1 | 50 => Some D2 | 51 => Some D3
  | 52 => Some D4 | 53 => Some D5 | 54 => Some D6 | 55 => Some D7
  | 56 => Some D8 | 57 => Some D9
  | _ => None
  end%nat.

(** A decimal literal: digits, with single underscores allowed between
    two digits. *)
Fixpoint int_literal (s : str) : option uint :=
  match s with
  | [] => None
  | c :: t =>
      match digit_of c with
      | None => None
      | Some d =>
          match t with
          | [] => Some (d Nil)
          | u :: t' =>
              if Ascii.eqb u "_"
              then option_map d (int_literal t')
              else option_map d (int_literal t)
          end
      end
  end.

(** [int(s)] in base ten; [Raise ValueError] when [s] is no literal, and
    when the literal has more digits than the limit (the digits are
    counted as they stand, leading zeros included, underscores not). *)
Definition py_int (s : str) : result Z :=
  let t := strip_chars is_int_space s in
  let (neg, body) :=
    match t with
    | c :: r =>
        if Ascii.eqb c "+" then (false, r)
        else if Ascii.eqb c "-" then (true, r)
        else (false, t)
    | [] => (false, t)
    end in
  match int_literal body with
  | Some u =>
      if (int_max_str_digits <? nb_digits u)%nat then Raise ValueError
      else Ok (if neg then - Z.of_uint u else Z.of_uint u)%Z
  | None => Raise ValueError
  end.

(** The decimal text of an integer: a minus sign for a negative number,
    then the digits, with no leading zero. *)
Definition render_int (n : Z) : str :=
  list_ascii_of_string (NilZero.string_of_int (Z.to_int n)).

(** The number of digits of that text. *)
Definition int_digits (n : Z) : nat :=
  match Z.to_int n with
  | Decimal.Pos u | Decimal.Neg u => nb_digits u
  end.

(** [str(n)], also the rendering of an integer field of an f-string;
    [Raise ValueError] when [n] has more digits than the limit. *)
Definition py_str (n : Z) : result str :=
  if (int_max_str_digits <? int_digits n)%nat then Raise ValueError
  else Ok (render_int n).

End PyStr.

(** ** Python dictionaries

    A [dict] keeps its keys in the order of their first insertion;
    assigning to a key that is present replaces the value in place. *)

Module PyDict.

Section Dict.

Variables K V : Type.
Variable K_eq_dec : forall a b : K, {a = b} + {a <> b}.

Definition dict : Type := list (K * V).

(** [d.get(k)]. *)
Fixpoint get (d : dict) (k : K) : option V :=
  match d with
  | [] => None
  | (k', v) :: r => if K_eq_dec k k' then Some v else get r k
  end.

(** [d[k] = v]. *)
Fixpoint set (d : dict) (k : K) (v : V) : dict :=
  match d with
  | [] => [(k, v)]
  | (k', v') :: r =>
      if K_eq_dec k k' then (k', v) :: r else (k', v') :: set r k v
  end.

Definition keys (d : dict) : list K := map fst d.
Definition values (d : dict) : list V := map snd d.

End Dict.

End PyDict.

(** ** Regular-expression substitution

    [re.sub(pattern, repl, s)] scans [s] from the left; where the pattern
    matches, the text of the match is replaced by the value of the
    callback and the scan goes on right after the match; elsewhere the
    character is kept.  Neither pattern of this program matches the empty
    string. *)

Module Re.

Import PyStr.

(** The output of a substitution: what stands for the head of the text,
    then what the scan makes of the rest; the callback is run first, and
    an exception it raises ends the substitution. *)
Definition splice (x y : result str) : result str :=
  a <- x ;; b <- y ;; Ok (a ++ b).

(** The pattern [\[(\d+)\]] tried at the head of [s]: group 1 if it
    matches.  The digits are taken greedily, and giving one back cannot
    help, since a digit is not a closing bracket. *)
Definition match_marker (s : str) : option str :=
  match s with
  | [] => None
  | c :: t =>
      if Ascii.eqb c "["
      then
        match span is_digit t with
        | ((_ :: _) as d, c' :: _) => if Ascii.eqb c' "]" then Some d else None
        | _ => None
        end
      else None
  end.

(** [re.sub(r'\[(\d+)\]', repl, s)]; the match is group 1 between two
    brackets, so the scan resumes [len(d) + 2] characters further. *)
Equations? sub_markers (repl : str -> result str) (s : str) : result str
  by wf (List.length s) lt :=
  sub_markers repl [] := Ok [];
  sub_markers repl (c :: t) with match_marker (c :: t) := {
    | Some d =>
        splice (repl d) (sub_markers repl (skipn (S (List.length d)) t))
    | None =>
        splice (Ok [c]) (sub_markers repl t) }.
Proof.
  change (List.length (skipn (S (List.length d)) t) < S (List.length t)).
  rewrite length_skipn. lia.
Qed.

End Re.

(** ** Reference consolidation *)

Module References.

Import PyStr.

Definition ref_map : Type := PyDict.dict str Z.
Definition num_map : Type := PyDict.dict Z Z.

Definition url_get : ref_map -> str -> option Z := PyDict.get str_eq_dec.
Definition url_set : ref_map -> str -> Z -> ref_map := PyDict.set str_eq_dec.
Definition num_get : num_map -> Z -> option Z := PyDict.get Z.eq_dec.
Definition num_set : num_map -> Z -> Z -> num_map := PyDict.set Z.eq_dec.

(** The body of the [try] of [convert_ref_list_to_map]: the number before
    the first closing bracket, then the locator after it. *)
Definition parse_ref (ref : str) : result (str * Z) :=
  ref_num <- py_int (strip_chars (is_char "[") (split_head "]" ref)) ;;
  rest <- split_tail "]" ref ;;
  Ok (strip rest, ref_num).

(** The loop of [convert_ref_list_to_map]; only [ValueError] is caught. *)
Fixpoint convert_loop (m : ref_map) (ref_list : list str) : result ref_map :=
  match ref_list with
  | [] => Ok m
  | ref :: rest =>
      match parse_ref ref with
      | Ok (url, ref_num) => convert_loop (url_set m url ref_num) rest
      | Raise ValueError => convert_loop m rest
      | Raise e => Raise e
      end
  end.

Definition convert_ref_list_to_map (ref_list : list str) : result ref_map :=
  convert_loop [] ref_list.

(** [max(report_ref_map.values() or [0])]. *)
Definition max_values (vs : list Z) : Z :=
  match vs with
  | [] => 0%Z
  | v :: r => fold_left Z.max r v
  end.

(** What the merging loop carries from one reference to the next. *)
Record merge_state : Type := MergeState {
  section_to_report_ref_map : num_map;
  ref_count : Z;
  all_refs : list str
}.

(** [f"[{ref_count}] {url}"]. *)
Definition format_ref (n : Z) (url : str) : result str :=
  digits <- py_str n ;;
  Ok ("[" ++ digits ++ "] " ++ url).

(** One turn of the loop over [section_ref_map.items()]. *)
Definition merge_step (report_ref_map : ref_map) (st : merge_state)
    (item : str * Z) : result merge_state :=
  let (url, section_ref_num) := item in
  match url_get report_ref_map url with
  | Some n =>
      Ok (MergeState
            (num_set (section_to_report_ref_map st) section_ref_num n)
            (ref_count st) (all_refs st))
  | None =>
      let c := (ref_count st + 1)%Z in
      entry <- format_ref c url ;;
      Ok (MergeState
            (num_set (section_to_report_ref_map st) section_ref_num c)
            c (all_refs st ++ [entry]))
  end.

(** The loop itself: an exception raised in a turn ends it. *)
Fixpoint merge_loop (report_ref_map : ref_map) (items : list (str * Z))
    (st : merge_state) : result merge_state :=
  match items with
  | [] => Ok st
  | item :: rest =>
      st' <- merge_step report_ref_map st item ;;
      merge_loop report_ref_map rest st'
  end.

Definition merge (report_ref_map section_ref_map : ref_map)
    (all_references : list str) : result merge_state :=
  merge_loop report_ref_map section_ref_map
    (MergeState [] (max_values (PyDict.values report_ref_map)) all_references).

(** The callback of the substitution; [group1] is the text of group 1.
    A number mapped to [0] is as good as absent for [if mapped_ref_num:]. *)
Definition replace_reference (m : num_map) (group1 : str) : result str :=
  ref_num <- py_int group1 ;;
  match num_get m ref_num with
  | Some mapped_ref_num =>
      if (mapped_ref_num =? 0)%Z then Ok []
      else
        digits <- py_str mapped_ref_num ;;
        Ok ("[" ++ digits ++ "]")
  | None => Ok []
  end.

(** [reformat_references]: the rewritten section and the list of all
    references, to which the new ones were appended. *)
Definition reformat_references (section_markdown : str)
    (section_references all_references : list str)
    : result (str * list str) :=
  section_ref_map <- convert_ref_list_to_map section_references ;;
  report_ref_map <- convert_ref_list_to_map all_references ;;
  st <- merge report_ref_map section_ref_map all_references ;;
  section_markdown' <-
    Re.sub_markers (replace_reference (section_to_report_ref_map st))
      section_markdown ;;
  Ok (section_markdown', all_refs st).

(** *** Vocabulary of the statements about the running list *)

(** The entry [[n] url] of a list of references. *)
Definition ref_entry (n : Z) (url : str) : str :=
  "[" ++ render_int n ++ "] " ++ url.

(** The list [[k] u1], [[k+1] u2], ... for the locators [u1, u2, ...]. *)
Fixpoint numbered (k : Z) (urls : list str) : list str :=
  match urls with
  | [] => []
  | u :: r => ref_entry k u :: numbered (k + 1) r
  end.

(** The same list as a map from locator to number. *)
Fixpoint entries (k : Z) (urls : list str) : ref_map :=
  match urls with
  | [] => []
  | u :: r => (u, k) :: entries (k + 1) r
  end.

(** The lists of all references that a run of calls can build, starting
    from the empty list and threading the list through the calls. *)
Inductive consolidated : list str -> Prop :=
| consolidated_nil : consolidated []
| consolidated_call (all_references : list str)
    (section_markdown : str) (section_references : list str)
    (section_markdown' : str) (all_references' : list str) :
    consolidated all_references ->
    reformat_references section_markdown section_references all_references
    = Ok (section_markdown', all_references') ->
    consolidated all_references'.

End References.

(** ** Heading rebasing *)

Module Headings.

Import PyStr.

(** The pattern [^(#+)\s] tried at a line start: group 1 if it matches.
    [\s] also accepts the line feed that ends the line. *)
Definition match_heading_start (s : str) : option str :=
  match span (is_char "#") s with
  | ((_ :: _) as hashes, c :: _) => if is_space c then Some hashes else None
  | _ => None
  end.

(** [re.search(r'^(#+)\s', s, re.MULTILINE)]: group 1 of the leftmost
    match; [bol] tells whether the scan stands at a line start. *)
Fixpoint search_heading (bol : bool) (s : str) : option str :=
  match s with
  | [] => None
  | c :: t =>
      match (if bol then match_heading_start (c :: t) else None) with
      | Some hashes => Some hashes
      | None => search_heading (Ascii.eqb c newline) t
      end
  end.

(** The pattern [^(#+)\s(.+)$] tried at a line start: groups 1 and 2.
    [.] accepts anything but the line feed, so [(.+)] runs to the end of
    its line, where [$] holds. *)
Definition match_heading (s : str) : option (str * str) :=
  match span (is_char "#") s with
  | ((_ :: _) as hashes, c :: r) =>
      if is_space c
      then
        match span (not_char newline) r with
        | ((_ :: _) as content, _) => Some (hashes, content)
        | _ => None
        end
      else None
  | _ => None
  end.

(** The callback [adjust_heading_level]. *)
Definition adjust_heading_level (level_adjustment : Z) (hashes content : str)
    : str :=
  let new_level :=
    Z.max 2 (Z.of_nat (List.length hashes) + level_adjustment) in
  repeat_char "#" new_level ++ " " ++ content.

(** [re.sub(r'^(#+)\s(.+)$', adjust_heading_level, s, flags=re.MULTILINE)];
    a match ends on a character of group 2, which is no line feed, so the
    scan is not at a line start right after it. *)
Equations? sub_headings (level_adjustment : Z) (bol : bool) (s : str) : str
  by wf (List.length s) lt :=
  sub_headings level_adjustment bol [] := [];
  sub_headings level_adjustment bol (c :: t)
    with (if bol then match_heading (c :: t) else None) := {
    | Some (hashes, content) =>
        adjust_heading_level level_adjustment hashes content
        ++ sub_headings level_adjustment false
             (skipn (List.length hashes + List.length content) t)
    | None =>
        c :: sub_headings level_adjustment (Ascii.eqb c newline) t }.
Proof.
  all: rewrite ?length_skipn; simpl; lia.
Qed.

Definition reformat_section_headings (section_markdown : str) : str :=
  match strip section_markdown with
  | [] => section_markdown
  | _ :: _ =>
      match search_heading true section_markdown with
      | None => section_markdown
      | Some hashes =>
          let first_heading_level := Z.of_nat (List.length hashes) in
          let level_adjustment := (2 - first_heading_level)%Z in
          sub_headings level_adjustment true section_markdown
      end
  end.

End Headings.

(** ** The assembled report *)

Module Report.

Import PyStr References Headings.

Record ReportDraftSection : Type := {
  section_title : str;
  section_content : str
}.

Record ReportDraft : Type := {
  sections : list ReportDraftSection
}.

Record LongWriterOutput : Type := {
  next_section_markdown : str;
  references : list str
}.

Section WriteReport.

(** The writer agent and the awaited call to it are outside the program:
    the call either delivers a section or fails. *)
Variable ResearchAgent : Type.
Variable write_next_section :
  ResearchAgent -> str -> str -> str -> str -> result LongWriterOutput.

(** The entries [f"{i+1}. {section.section_title}"], [i] counting from
    its first argument. *)
Fixpoint toc_entries (i : nat) (l : list ReportDraftSection)
    : result (list str) :=
  match l with
  | [] => Ok []
  | section :: r =>
      number <- py_str (Z.of_nat i + 1) ;;
      rest <- toc_entries (S i) r ;;
      Ok ((number ++ ". " ++ section_title section) :: rest)
  end.

(** The loop over the sections. *)
Fixpoint write_sections (long_writer_agent : ResearchAgent)
    (original_query : str) (l : list ReportDraftSection)
    (final_draft : str) (all_references : list str)
    : result (str * list str) :=
  match l with
  | [] => Ok (final_draft, all_references)
  | section :: r =>
      next_section_draft <-
        write_next_section long_writer_agent original_query final_draft
          (section_title section) (section_content section) ;;
      '(section_markdown, all_references') <-
        reformat_references (next_section_markdown next_section_draft)
          (references next_section_draft) all_references ;;
      let section_markdown' := reformat_section_headings section_markdown in
      write_sections long_writer_agent original_query r
        (final_draft ++ section_markdown' ++ nl2) all_references'
  end.

Definition write_report (long_writer_agent : ResearchAgent)
    (original_query report_title : str) (report_draft : ReportDraft)
    : result str :=
  toc <- toc_entries 0 (sections report_draft) ;;
  let final_draft :=
    "# " ++ report_title ++ nl2 ++ "## Table of Contents" ++ nl2
    ++ join nl toc ++ nl2 in
  '(final_draft', all_references) <-
    write_sections long_writer_agent original_query
      (sections report_draft) final_draft [] ;;
  Ok (final_draft' ++ "## References:" ++ nl2
      ++ join ("  " ++ nl) all_references).

End WriteReport.

End Report.

(** ** The task plan of the tool selector *)

Module ToolSelector.

Record AgentTask : Type := {
  gap : option str;
  agent : str;
  query : str;
  entity_website : option str
}.

Record AgentSelectionPlan : Type := {
  tasks : list AgentTask
}.

End ToolSelector.

Module GapLoop.

Import ToolSelector.

(** Modelled from the spec: the controller that runs the tasks of an
    [AgentSelectionPlan] is not among the sources, which only declare the
    plan; the spec has it dispatch at most three tasks of a plan, the
    plan being truncated. *)
Definition batch_cap : nat := 3.

(** Modelled from the spec: the tasks of a plan that are dispatched, the
    controller itself not being among the sources. *)
Definition dispatch_batch (plan : AgentSelectionPlan) : list AgentTask :=
  firstn batch_cap (tasks plan).

End GapLoop.

(** ** Vocabulary of the statements *)

Module Statements.

Import PyStr PyDict References Report.

(** A text with no character to strip at either end. *)
Definition stripped (p : ascii -> bool) (s : str) : Prop :=
  drop_while p s = s /\ drop_while p (List.rev s) = List.rev s.

(** The digits of a decimal numeral, as [str] prints them. *)
Definition uint_chars (u : uint) : str :=
  list_ascii_of_string (NilEmpty.string_of_uint u).

(** The least natural number that has more digits than the limit of the
    conversions: [10 ** 4300]. *)
Definition int_limit : Z := 10 ^ Z.of_nat int_max_str_digits.

(** [d] is the number of a marker of [body]: a run of digits that stands
    between an opening and a closing bracket. *)
Definition marker_in (body d : str) : Prop :=
  d <> [] /\ forallb is_digit d = true
  /\ exists pre post, body = pre ++ "[" ++ d ++ "]" ++ post.

(** Every marker of [body] has a number that [int()] reads. *)
Definition markers_within_limit (body : str) : Prop :=
  forall d, marker_in body d -> (List.length d <= int_max_str_digits)%nat.

(** A marker with one digit more than [int()] reads. *)
Definition long_marker : str :=
  "[" ++ repeat "5"%char (S int_max_str_digits) ++ "]".

(** What a turn of the merging loop does to its state, the rendering of
    the number left aside: a locator of the report gets its number there,
    a new one the next number and an entry at the end of the list. *)
Definition merged_step (report_ref_map : ref_map) (st : merge_state)
    (item : str * Z) : merge_state :=
  let (url, section_ref_num) := item in
  match url_get report_ref_map url with
  | Some n =>
      MergeState (num_set (section_to_report_ref_map st) section_ref_num n)
                 (ref_count st) (all_refs st)
  | None =>
      let c := (ref_count st + 1)%Z in
      MergeState (num_set (section_to_report_ref_map st) section_ref_num c)
                 c (all_refs st ++ [ref_entry c url])
  end.

(** The state that the merging loop ends in, when it ends. *)
Definition merged (report_ref_map section_ref_map : ref_map)
    (all_references : list str) : merge_state :=
  fold_left (merged_step report_ref_map) section_ref_map
    (MergeState [] (max_values (values report_ref_map)) all_references).

(** The locators of a section that the report does not list yet, in
    the order of the section. *)
Definition is_new (report_ref_map : ref_map) (url : str) : bool :=
  match url_get report_ref_map url with
  | None => true
  | Some _ => false
  end.

Definition new_urls (report_ref_map section_ref_map : ref_map) : list str :=
  filter (is_new report_ref_map) (keys section_ref_map).

(** A writer that turns the seed of a section into a draft with one
    reference. *)
Definition sample_writer (_ : unit) (_ _ title content : str)
    : result LongWriterOutput :=
  Ok {| next_section_markdown := "# " ++ title ++ nl ++ content ++ " [1]";
        references := strs ["[1] a.com"] |}.

Definition sample_draft : ReportDraft :=
  {| sections := [ {| section_title := "Intro"; section_content := "Text" |} ]
  |}.

Definition sample_report : str :=
  "# T" ++ nl2 ++ "## Table of Contents" ++ nl2 ++ "1. Intro" ++ nl2
  ++ "## Intro" ++ nl ++ "Text [1]" ++ nl2
  ++ "## References:" ++ nl2 ++ "[1] a.com".

(** The lines of the table of contents: [i+1. <title>], [i] counting
    from the first argument. *)
Fixpoint toc_lines (i : nat) (l : list ReportDraftSection) : list str :=
  match l with
  | [] => []
  | section :: r =>
      (render_int (Z.of_nat i + 1) ++ ". " ++ section_title section)
      :: toc_lines (S i) r
  end.

(** What follows a line in a text: nothing, or a line feed and more. *)
Definition line_end (x : str) : Prop :=
  match x with
  | [] => True
  | c :: _ => c = newline
  end.

(** A heading line: a run of hashes, one blank, and a text that is not
    empty; its level and its text. *)
Definition heading_of (l : str) : option (nat * str) :=
  match span (is_char "#") l with
  | ((_ :: _) as hashes, c :: ((_ :: _) as text)) =>
      if is_space c then Some (List.length hashes, text) else None
  | _ => None
  end.

(** A line that is a heading line or does not look like one: it is not
    made of hashes only, nor of hashes and one blank. *)
Definition regular_line (l : str) : Prop :=
  match span (is_char "#") l with
  | (_ :: _, []) => False
  | (_ :: _, [c]) => is_space c = false
  | _ => True
  end.

(** The level of the first heading line. *)
Fixpoint first_heading_level (ls : list str) : option nat :=
  match ls with
  | [] => None
  | l :: r =>
      match heading_of l with
      | Some (k, _) => Some k
      | None => first_heading_level r
      end
  end.

(** A heading line of level [k] put at level [max(2, k + shift)], with
    one space before its text; any other line as it is. *)
Definition rebase_line (shift : Z) (l : str) : str :=
  match heading_of l with
  | Some (k, text) =>
      repeat "#"%char (Z.to_nat (Z.max 2 (Z.of_nat k + shift))) ++ " " ++ text
  | None => l
  end.

End Statements.

Module MoreStatements.

Import PyStr References Report Statements.

(** The text that [write_report] starts the report with: the title line
    and the table of contents. *)
Definition report_header (report_title : str) (report_draft : ReportDraft)
    : str :=
  "# " ++ report_title ++ nl2 ++ "## Table of Contents" ++ nl2
  ++ join nl (toc_lines 0 (sections report_draft)) ++ nl2.

(** A writer that fails when it is handed an empty draft of the report,
    and writes as [sample_writer] otherwise. *)
Definition picky_writer (agent : unit) (query draft title content : str)
    : result LongWriterOutput :=
  match draft with
  | [] => Raise CollaboratorError
  | _ :: _ => sample_writer agent query draft title content
  end.


(** An entry on which [convert_ref_list_to_map] raises: it has no
    closing bracket, and its text, the opening brackets at its two ends
    stripped, reads as an integer. *)
Definition index_trap (ref : str) : bool :=
  forallb (not_char "]") ref
  && match py_int (strip_chars (is_char "[") ref) with
     | Ok _ => true
     | Raise _ => false
     end.

End MoreStatements.

(** * Properties *)

(** ** Facts about the string primitives *)

Module PyStrFacts.

Import PyStr Statements.

Lemma bind_assoc (A B C : Type) (r : result A) (f : A -> result B)
    (g : B -> result C) :
  bind (bind r f) g = bind r (fun a => bind (f a) g).
Proof. destruct r; reflexivity. Qed.

Lemma span_app_stop p t a x :
  p a = false ->
  span p (t ++ a :: x) = (fst (span p t), snd (span p t) ++ a :: x).
Proof.
  intros Ha. induction t as [|c t IH]; simpl.
  - rewrite Ha. reflexivity.
  - destruct (p c); [|reflexivity].
    rewrite IH. destruct (span p t). reflexivity.
Qed.

Lemma span_all p d :
  forallb p d = true -> span p d = (d, []).
Proof.
  induction d as [|c d IH]; simpl; [reflexivity|].
  intros H. apply andb_true_iff in H. destruct H as [Hc Hd].
  rewrite Hc, (IH Hd). reflexivity.
Qed.

Lemma span_all_stop p d a x :
  forallb p d = true -> p a = false -> span p (d ++ a :: x) = (d, a :: x).
Proof.
  intros Hd Ha. rewrite span_app_stop by exact Ha.
  rewrite span_all by exact Hd. reflexivity.
Qed.

Lemma span_fst_all p s : forallb p (fst (span p s)) = true.
Proof.
  induction s as [|c s IH]; simpl; [reflexivity|].
  destruct (p c) eqn:E; [|reflexivity].
  destruct (span p s). simpl in *. rewrite E. exact IH.
Qed.

Lemma span_app p s : fst (span p s) ++ snd (span p s) = s.
Proof.
  induction s as [|c s IH]; simpl; [reflexivity|].
  destruct (p c); [|reflexivity].
  destruct (span p s). simpl in *. f_equal. exact IH.
Qed.

Lemma span_snd_head p s c r : snd (span p s) = c :: r -> p c = false.
Proof.
  induction s as [|a s IH]; simpl; [discriminate|].
  destruct (p a) eqn:E.
  - destruct (span p s). simpl in *. exact IH.
  - simpl. intros H. injection H as -> _. exact E.
Qed.

Lemma drop_while_head p c s : p c = false -> drop_while p (c :: s) = c :: s.
Proof. intros H. unfold drop_while. simpl. rewrite H. reflexivity. Qed.

Lemma drop_while_idem p s : drop_while p (drop_while p s) = drop_while p s.
Proof.
  unfold drop_while.
  destruct (snd (span p s)) as [|c r] eqn:E; [reflexivity|].
  apply span_snd_head in E. simpl. rewrite E. reflexivity.
Qed.

Lemma drop_while_suffix p s : exists a, s = a ++ drop_while p s.
Proof. exists (fst (span p s)). symmetry. apply span_app. Qed.

Lemma stripped_strip_chars p s : stripped p s -> strip_chars p s = s.
Proof.
  intros [H1 H2]. unfold strip_chars. rewrite H1, H2. apply rev_involutive.
Qed.

Lemma strip_chars_stripped p s : stripped p (strip_chars p s).
Proof.
  unfold stripped, strip_chars.
  set (a := drop_while p s).
  assert (Ha : drop_while p a = a) by apply drop_while_idem.
  set (b := drop_while p (List.rev a)).
  assert (Hb : drop_while p b = b) by apply drop_while_idem.
  rewrite rev_involutive. split; [|exact Hb].
  destruct (drop_while_suffix p (List.rev a)) as [w Hw]. fold b in Hw.
  assert (Ea : a = List.rev b ++ List.rev w).
  { rewrite <- rev_app_distr, <- Hw, rev_involutive. reflexivity. }
  destruct (List.rev b) as [|c r] eqn:Er; [reflexivity|].
  apply drop_while_head.
  rewrite Ea in Ha. simpl in Ha.
  unfold drop_while in Ha. simpl in Ha.
  destruct (p c) eqn:Ec; [|reflexivity].
  exfalso.
  destruct (span p (r ++ List.rev w)) as [x y] eqn:Es. simpl in Ha.
  pose proof (span_app p (r ++ List.rev w)) as Hl. rewrite Es in Hl.
  simpl in Hl. rewrite Ha in Hl.
  apply (f_equal (@List.length ascii)) in Hl.
  rewrite length_app in Hl. simpl in Hl. lia.
Qed.

Lemma strip_chars_idem p s :
  strip_chars p (strip_chars p s) = strip_chars p s.
Proof. apply stripped_strip_chars, strip_chars_stripped. Qed.

Lemma strip_chars_skip p c s :
  p c = true -> strip_chars p (c :: s) = strip_chars p s.
Proof.
  intros H. unfold strip_chars, drop_while. simpl. rewrite H.
  destruct (span p s). reflexivity.
Qed.

Lemma stripped_ends p c s :
  p c = false -> (forall d, last s c = d -> p d = false) ->
  stripped p (c :: s).
Proof.
  intros Hc Hl. split; [apply drop_while_head; exact Hc|].
  destruct (List.rev (c :: s)) as [|d r] eqn:E.
  - reflexivity.
  - apply drop_while_head. apply Hl.
    assert (E' : c :: s = List.rev r ++ [d]).
    { rewrite <- (rev_involutive (c :: s)), E. reflexivity. }
    destruct (List.rev r) as [|e r'] eqn:Er.
    + simpl in E'. injection E' as -> ->. reflexivity.
    + simpl in E'. injection E' as -> ->. apply last_last.
Qed.

(** *** Characters *)

Ltac by_cases_on_char c :=
  destruct c as [[] [] [] [] [] [] [] []]; try discriminate; reflexivity.

Lemma digit_not_int_space c : is_digit c = true -> is_int_space c = false.
Proof. by_cases_on_char c. Qed.

Lemma digit_not_space c : is_digit c = true -> is_space c = false.
Proof. by_cases_on_char c. Qed.

Lemma digit_not_underscore c : is_digit c = true -> Ascii.eqb c "_" = false.
Proof. by_cases_on_char c. Qed.

Lemma digit_not_sign c :
  is_digit c = true -> Ascii.eqb c "+" = false /\ Ascii.eqb c "-" = false.
Proof. split; by_cases_on_char c. Qed.

Lemma digit_not_bracket c :
  is_digit c = true -> Ascii.eqb c "[" = false /\ Ascii.eqb c "]" = false.
Proof. split; by_cases_on_char c. Qed.

Lemma digit_of_digit c : is_digit c = true -> exists d, digit_of c = Some d.
Proof.
  destruct c as [[] [] [] [] [] [] [] []]; try discriminate;
    intros _; eexists; reflexivity.
Qed.

Lemma forallb_last_ne (p : ascii -> bool) s c :
  s <> [] -> forallb p s = true -> p (last s c) = true.
Proof.
  induction s as [|a s IH]; [congruence|]. intros _ H.
  simpl in H. apply andb_true_iff in H. destruct H as [Ha Hs].
  destruct s as [|b s']; [exact Ha|]. apply IH; [discriminate|exact Hs].
Qed.

Lemma forallb_last (p : ascii -> bool) s c :
  p c = true -> forallb p s = true -> p (last s c) = true.
Proof.
  intros Hc. induction s as [|a s IH]; simpl; [intros _; exact Hc|].
  intros H. apply andb_true_iff in H. destruct H as [Ha Hs].
  destruct s as [|b s']; [exact Ha|]. apply IH. exact Hs.
Qed.

(** *** Integer literals *)

Lemma int_literal_digits d :
  d <> [] -> forallb is_digit d = true ->
  exists u, int_literal d = Some u /\ nb_digits u = List.length d.
Proof.
  induction d as [|c t IH]; [congruence|].
  intros _ H. simpl in H. apply andb_true_iff in H. destruct H as [Hc Ht].
  cbn [int_literal]. destruct (digit_of_digit _ Hc) as [k Hk].
  assert (Hnb : forall w, nb_digits (k w) = S (nb_digits w)).
  { revert Hk. clear. unfold digit_of.
    destruct c as [[] [] [] [] [] [] [] []]; simpl; intros H;
      try discriminate H; injection H as <-; reflexivity. }
  rewrite Hk.
  destruct t as [|u t'].
  - exists (k Nil). split; [reflexivity|apply Hnb].
  - assert (Hu : is_digit u = true).
    { simpl in Ht. apply andb_true_iff in Ht. tauto. }
    rewrite (digit_not_underscore _ Hu).
    destruct IH as [w [-> Hw]]; [discriminate|exact Ht|].
    exists (k w). split; [reflexivity|].
    rewrite Hnb, Hw. reflexivity.
Qed.

Lemma strip_int_space_digits d :
  forallb is_digit d = true -> strip_chars is_int_space d = d.
Proof.
  intros H. destruct d as [|c t]; [reflexivity|].
  simpl in H. apply andb_true_iff in H. destruct H as [Hc Ht].
  apply stripped_strip_chars, stripped_ends.
  - apply digit_not_int_space, Hc.
  - intros e <-. apply digit_not_int_space, forallb_last; assumption.
Qed.

(** What [int()] makes of a run of digits. *)
Lemma py_int_run d :
  d <> [] -> forallb is_digit d = true ->
  exists u,
    nb_digits u = List.length d
    /\ py_int d
       = if (int_max_str_digits <? nb_digits u)%nat then Raise ValueError
         else Ok (Z.of_uint u).
Proof.
  intros Hne Hd. unfold py_int. rewrite strip_int_space_digits by exact Hd.
  destruct d as [|c t]; [congruence|].
  assert (Hc : is_digit c = true).
  { simpl in Hd. apply andb_true_iff in Hd. tauto. }
  destruct (digit_not_sign _ Hc) as [-> ->].
  destruct (int_literal_digits Hne Hd) as [u [-> Hu]].
  exists u. split; [exact Hu|reflexivity].
Qed.

(** [int()] reads every non-empty run of digits within the limit... *)
Lemma py_int_digits d :
  d <> [] -> forallb is_digit d = true ->
  (List.length d <= int_max_str_digits)%nat ->
  exists n, py_int d = Ok n.
Proof.
  intros Hne Hd Hl. destruct (py_int_run Hne Hd) as [u [Hu ->]].
  rewrite <- Hu in Hl. apply Nat.ltb_ge in Hl. rewrite Hl.
  eexists; reflexivity.
Qed.

(** ... and refuses the longer ones. *)
Lemma py_int_digits_long d :
  forallb is_digit d = true ->
  (int_max_str_digits < List.length d)%nat ->
  py_int d = Raise ValueError.
Proof.
  intros Hd Hl.
  assert (Hne : d <> []) by (intros ->; simpl in Hl; lia).
  destruct (py_int_run Hne Hd) as [u [Hu ->]].
  rewrite <- Hu in Hl. apply Nat.ltb_lt in Hl. rewrite Hl. reflexivity.
Qed.

Lemma py_int_digits_Ok d n :
  forallb is_digit d = true -> py_int d = Ok n ->
  (List.length d <= int_max_str_digits)%nat.
Proof.
  intros Hd H.
  destruct (Nat.le_gt_cases (List.length d) int_max_str_digits) as [L|L];
    [exact L|].
  rewrite (py_int_digits_long _ Hd L) in H. discriminate H.
Qed.

(** [int()] raises nothing but [ValueError]. *)
Lemma py_int_raises s x : py_int s = Raise x -> x = ValueError.
Proof.
  unfold py_int.
  destruct (match strip_chars is_int_space s with
            | [] => (false, strip_chars is_int_space s)
            | c :: r =>
                if Ascii.eqb c "+" then (false, r)
                else if Ascii.eqb c "-" then (true, r)
                else (false, strip_chars is_int_space s)
            end) as [neg body].
  destruct (int_literal body) as [u|].
  - destruct (int_max_str_digits <? nb_digits u)%nat; [|discriminate].
    intros H. injection H as <-. reflexivity.
  - intros H. injection H as <-. reflexivity.
Qed.

Lemma uint_chars_digits u : forallb is_digit (uint_chars u) = true.
Proof. induction u; simpl; auto. Qed.

Lemma uint_chars_nonnil u : u <> Nil -> uint_chars u <> [].
Proof. destruct u; intros H; [congruence | discriminate ..]. Qed.

Lemma int_literal_step c k t :
  digit_of c = Some k -> forallb is_digit t = true ->
  int_literal (c :: t)
  = match t with
    | [] => Some (k Nil)
    | _ :: _ => option_map k (int_literal t)
    end.
Proof.
  intros Hc Ht. simpl. rewrite Hc. destruct t as [|a r]; [reflexivity|].
  simpl in Ht. apply andb_true_iff in Ht. destruct Ht as [Ha _].
  rewrite (digit_not_underscore _ Ha). reflexivity.
Qed.

Lemma int_literal_uint_chars u :
  u <> Nil -> int_literal (uint_chars u) = Some u.
Proof.
  induction u as [|u IH|u IH|u IH|u IH|u IH|u IH|u IH|u IH|u IH|u IH];
    [congruence| ..]; intros _.
  all: unfold uint_chars; simpl NilEmpty.string_of_uint;
    simpl list_ascii_of_string; fold (uint_chars u).
  all: erewrite int_literal_step
    by (reflexivity || apply uint_chars_digits).
  all: destruct (uint_chars u) as [|a r] eqn:E;
    [ destruct u; try discriminate E; reflexivity |].
  all: rewrite IH by (intros ->; discriminate E); reflexivity.
Qed.

(** *** The number of digits and the size of a number *)

Lemma usize_nb_digits d :
  DecimalPos.Unsigned.usize d = N.of_nat (nb_digits d).
Proof.
  induction d; cbn [DecimalPos.Unsigned.usize nb_digits];
    rewrite ?Nnat.Nat2N.inj_succ, ?IHd; reflexivity.
Qed.

Lemma of_lu_below d :
  (DecimalPos.Unsigned.of_lu d < 10 ^ N.of_nat (nb_digits d))%N.
Proof.
  induction d; [reflexivity|..];
    cbn [nb_digits]; rewrite Nnat.Nat2N.inj_succ, N.pow_succ_r';
    rewrite DecimalPos.Unsigned.of_lu_eqn;
    cbn [DecimalPos.Unsigned.hd DecimalPos.Unsigned.tl]; lia.
Qed.

(** A numeral of [k] digits stands for a number below [10 ** k]... *)
Lemma of_uint_below d : (N.of_uint d < 10 ^ N.of_nat (nb_digits d))%N.
Proof.
  unfold N.of_uint. rewrite DecimalPos.Unsigned.of_uint_alt.
  rewrite <- (DecimalFacts.nb_digits_rev d). apply of_lu_below.
Qed.

(** ... and for [10 ** (k - 1)] at least when its first digit is not 0. *)
Lemma of_uint_above d :
  d <> Nil -> nzhead d = d ->
  (10 ^ N.of_nat (nb_digits d - 1) <= N.of_uint d)%N.
Proof.
  intros Hne Hnz. unfold N.of_uint.
  rewrite DecimalPos.Unsigned.of_uint_alt.
  destruct d; [congruence| |..].
  1:{ exfalso. cbn [nzhead] in Hnz.
      pose proof (DecimalFacts.nb_digits_nzhead d) as H. rewrite Hnz in H.
      cbn [nb_digits] in H. lia. }
  all: unfold Decimal.rev; cbn [revapp];
    rewrite DecimalPos.Unsigned.of_lu_revapp;
    rewrite usize_nb_digits; cbn [nb_digits];
    replace (S (nb_digits d) - 1)%nat with (nb_digits d) by lia;
    rewrite DecimalPos.Unsigned.of_lu_eqn;
    cbn [DecimalPos.Unsigned.hd DecimalPos.Unsigned.tl
         DecimalPos.Unsigned.of_lu];
    nia.
Qed.

Lemma pos_to_uint_nzhead p : nzhead (Pos.to_uint p) = Pos.to_uint p.
Proof.
  pose proof (DecimalPos.Unsigned.to_of (Pos.to_uint p)) as H.
  rewrite DecimalPos.Unsigned.of_to in H. cbn [N.to_uint] in H.
  pose proof (DecimalPos.Unsigned.to_uint_nonzero p) as Hz.
  unfold unorm in H.
  destruct (nzhead (Pos.to_uint p)) eqn:E; try (symmetry; exact H).
  exfalso. apply Hz. exact H.
Qed.

Lemma pos_digits_spec p k :
  (nb_digits (Pos.to_uint p) <= k)%nat <-> (Z.pos p < 10 ^ Z.of_nat k)%Z.
Proof.
  pose proof (of_uint_below (Pos.to_uint p)) as Hu.
  pose proof (of_uint_above (DecimalPos.Unsigned.to_uint_nonnil p)
                (pos_to_uint_nzhead p)) as Hl.
  unfold N.of_uint in Hu, Hl. rewrite DecimalPos.Unsigned.of_to in Hu, Hl.
  set (m := nb_digits (Pos.to_uint p)) in *.
  apply N2Z.inj_lt in Hu. apply N2Z.inj_le in Hl.
  rewrite N2Z.inj_pow in Hu, Hl. rewrite Znat.nat_N_Z in Hu, Hl.
  change (Z.of_N 10) with 10%Z in *.
  change (Z.of_N (N.pos p)) with (Z.pos p) in *.
  split; intros H.
  - eapply Z.lt_le_trans; [exact Hu|].
    apply Z.pow_le_mono_r; lia.
  - destruct (Nat.le_gt_cases m k) as [Hle|Hgt]; [exact Hle|exfalso].
    assert (10 ^ Z.of_nat k <= 10 ^ Z.of_nat (m - 1))%Z
      by (apply Z.pow_le_mono_r; lia).
    lia.
Qed.

(** An integer has at most [k] digits when it is less than [10 ** k] in
    absolute value. *)
Lemma int_digits_spec n k :
  (1 <= k)%nat ->
  (int_digits n <= k)%nat <-> (Z.abs n < 10 ^ Z.of_nat k)%Z.
Proof.
  intros Hk. destruct n as [|p|p].
  - unfold int_digits. simpl. split; intros _; [|lia].
    apply Z.pow_pos_nonneg; lia.
  - apply pos_digits_spec.
  - apply pos_digits_spec.
Qed.

Lemma int_limit_pos : (1 < int_limit)%Z.
Proof.
  unfold int_limit. apply Z.pow_gt_1; [lia|].
  unfold int_max_str_digits. lia.
Qed.

Lemma int_digits_limit n :
  (int_digits n <= int_max_str_digits)%nat <-> (Z.abs n < int_limit)%Z.
Proof. apply int_digits_spec. unfold int_max_str_digits. lia. Qed.

(** *** [str(n)] *)

(** [str()] writes the numbers below the limit, and no others. *)
Lemma py_str_Ok n : (Z.abs n < int_limit)%Z -> py_str n = Ok (render_int n).
Proof.
  intros H. apply int_digits_limit in H. unfold py_str.
  apply Nat.ltb_ge in H. rewrite H. reflexivity.
Qed.

Lemma py_str_inv n s :
  py_str n = Ok s -> s = render_int n /\ (Z.abs n < int_limit)%Z.
Proof.
  unfold py_str.
  destruct (int_max_str_digits <? int_digits n)%nat eqn:E; [discriminate|].
  intros H. injection H as <-. split; [reflexivity|].
  apply int_digits_limit, Nat.ltb_ge, E.
Qed.

Lemma py_str_raises n x :
  py_str n = Raise x -> x = ValueError /\ (int_limit <= Z.abs n)%Z.
Proof.
  unfold py_str.
  destruct (int_max_str_digits <? int_digits n)%nat eqn:E; [|discriminate].
  intros H. injection H as <-. split; [reflexivity|].
  apply Nat.ltb_lt in E.
  destruct (Z.lt_ge_cases (Z.abs n) int_limit) as [L|L]; [|exact L].
  apply int_digits_limit in L. lia.
Qed.

(** What [int()] reads is a number that [str()] writes. *)
Lemma py_int_below s n : py_int s = Ok n -> (Z.abs n < int_limit)%Z.
Proof.
  unfold py_int.
  destruct (match strip_chars is_int_space s with
            | [] => (false, strip_chars is_int_space s)
            | c :: r =>
                if Ascii.eqb c "+" then (false, r)
                else if Ascii.eqb c "-" then (true, r)
                else (false, strip_chars is_int_space s)
            end) as [neg body].
  destruct (int_literal body) as [u|]; [|discriminate].
  destruct (int_max_str_digits <? nb_digits u)%nat eqn:E; [discriminate|].
  apply Nat.ltb_ge in E. intros H. injection H as <-.
  assert (Hu : (0 <= Z.of_uint u < int_limit)%Z).
  { unfold Z.of_uint. pose proof (of_uint_below u) as Hb.
    unfold N.of_uint in Hb. apply N2Z.inj_lt in Hb.
    rewrite N2Z.inj_pow, Znat.nat_N_Z in Hb. change (Z.of_N 10) with 10%Z in Hb.
    split; [apply N2Z.is_nonneg|].
    eapply Z.lt_le_trans; [exact Hb|].
    unfold int_limit. apply Z.pow_le_mono_r; lia. }
  destruct neg; lia.
Qed.

Lemma render_int_cases n :
  exists u, u <> Nil /\ nb_digits u = int_digits n /\
    ((0 <= n)%Z /\ render_int n = uint_chars u /\ Z.of_uint u = n
     \/ (n < 0)%Z /\ render_int n = "-"%char :: uint_chars u
        /\ (- Z.of_uint u)%Z = n).
Proof.
  unfold render_int, int_digits. pose proof (DecimalZ.of_to n) as Hn.
  destruct n as [|p|p]; simpl in *.
  - exists (D0 Nil). split; [discriminate|]. split; [reflexivity|].
    left. repeat split. lia.
  - exists (Pos.to_uint p). split; [apply DecimalPos.Unsigned.to_uint_nonnil|].
    split; [reflexivity|].
    left. split; [lia|]. split; [|exact Hn].
    unfold NilZero.string_of_uint, uint_chars.
    pose proof (DecimalPos.Unsigned.to_uint_nonnil p).
    destruct (Pos.to_uint p); congruence.
  - exists (Pos.to_uint p). split; [apply DecimalPos.Unsigned.to_uint_nonnil|].
    split; [reflexivity|].
    right. split; [lia|]. split; [|exact Hn].
    unfold NilZero.string_of_uint, uint_chars.
    pose proof (DecimalPos.Unsigned.to_uint_nonnil p).
    destruct (Pos.to_uint p); congruence.
Qed.

(** [int(str(n)) == n], for the numbers that [str()] writes. *)
Lemma py_int_render n :
  (Z.abs n < int_limit)%Z -> py_int (render_int n) = Ok n.
Proof.
  intros Hn. apply int_digits_limit, Nat.ltb_ge in Hn.
  destruct (render_int_cases n) as [u [Hu [Hnb [[_ [-> <-]]|[_ [-> <-]]]]]].
  - pose proof (uint_chars_digits u) as Hd.
    unfold py_int. rewrite strip_int_space_digits by exact Hd.
    destruct (uint_chars u) as [|c t] eqn:E.
    { exfalso. exact (uint_chars_nonnil Hu E). }
    assert (Hc : is_digit c = true).
    { simpl in Hd. apply andb_true_iff in Hd. tauto. }
    destruct (digit_not_sign _ Hc) as [-> ->].
    rewrite <- E, (int_literal_uint_chars Hu), Hnb, Hn. reflexivity.
  - pose proof (uint_chars_digits u) as Hd.
    unfold py_int.
    rewrite stripped_strip_chars.
    + cbn -[Nat.ltb int_literal].
      rewrite (int_literal_uint_chars Hu), Hnb, Hn. reflexivity.
    + apply stripped_ends; [reflexivity|].
      intros e <-.
      destruct (uint_chars u) as [|c t] eqn:E.
      { exfalso. exact (uint_chars_nonnil Hu E). }
      apply digit_not_int_space, forallb_last_ne; [discriminate|exact Hd].
Qed.

End PyStrFacts.

(** ** Facts about dictionaries *)

Module PyDictFacts.

Import PyDict.

Section Facts.

Variables K V : Type.
Variable K_eq_dec : forall a b : K, {a = b} + {a <> b}.

Local Abbreviation get := (get K_eq_dec).
Local Abbreviation set := (set K_eq_dec).

Lemma get_set_same (d : dict K V) k v : get (set d k v) k = Some v.
Proof.
  induction d as [|[k' v'] r IH]; simpl.
  - destruct (K_eq_dec k k); congruence.
  - destruct (K_eq_dec k k') as [->|Hne]; simpl.
    + destruct (K_eq_dec k' k'); congruence.
    + destruct (K_eq_dec k k'); [congruence|exact IH].
Qed.

Lemma get_set_other (d : dict K V) k v k' :
  k <> k' -> get (set d k v) k' = get d k'.
Proof.
  intros Hne. induction d as [|[k0 v0] r IH]; simpl.
  - destruct (K_eq_dec k' k); congruence.
  - destruct (K_eq_dec k k0) as [->|Hk]; simpl.
    + destruct (K_eq_dec k' k0); congruence.
    + destruct (K_eq_dec k' k0); [reflexivity|exact IH].
Qed.

Lemma get_None_iff (d : dict K V) k : get d k = None <-> ~ In k (keys d).
Proof.
  induction d as [|[k' v'] r IH]; simpl.
  - tauto.
  - destruct (K_eq_dec k k') as [->|Hne].
    + split; [discriminate|tauto].
    + rewrite IH. split; [intros H [E|I]; congruence|tauto].
Qed.

Lemma get_Some_In (d : dict K V) k v : get d k = Some v -> In (k, v) d.
Proof.
  induction d as [|[k' v'] r IH]; simpl; [discriminate|].
  destruct (K_eq_dec k k') as [->|Hne].
  - intros H. injection H as ->. left. reflexivity.
  - intros H. right. apply IH, H.
Qed.

Lemma In_get_Some (d : dict K V) k v :
  NoDup (keys d) -> In (k, v) d -> get d k = Some v.
Proof.
  induction d as [|[k' v'] r IH]; simpl; [tauto|].
  intros Hnd [E|I].
  - injection E as -> ->. destruct (K_eq_dec k k); congruence.
  - inversion Hnd as [|? ? Hni Hr]; subst.
    destruct (K_eq_dec k k') as [->|Hne]; [|apply IH; assumption].
    exfalso. apply Hni. change k' with (fst (k', v)).
    apply in_map, I.
Qed.

Lemma set_fresh (d : dict K V) k v :
  ~ In k (keys d) -> set d k v = d ++ [(k, v)].
Proof.
  induction d as [|[k' v'] r IH]; simpl; [reflexivity|].
  intros H. destruct (K_eq_dec k k') as [->|Hne]; [tauto|].
  rewrite IH by tauto. reflexivity.
Qed.

Lemma keys_set (d : dict K V) k v k' :
  In k' (keys (set d k v)) <-> k' = k \/ In k' (keys d).
Proof.
  induction d as [|[k0 v0] r IH]; simpl.
  - intuition congruence.
  - destruct (K_eq_dec k k0) as [->|Hne]; simpl.
    + intuition congruence.
    + rewrite IH. tauto.
Qed.

Lemma keys_set_NoDup (d : dict K V) k v :
  NoDup (keys d) -> NoDup (keys (set d k v)).
Proof.
  induction d as [|[k0 v0] r IH]; simpl.
  - intros _. constructor; [simpl; tauto|constructor].
  - intros Hnd. inversion Hnd as [|? ? Hni Hr]; subst.
    destruct (K_eq_dec k k0) as [->|Hne]; simpl.
    + exact Hnd.
    + constructor; [|apply IH, Hr].
      rewrite keys_set. intros [E|I]; [congruence|tauto].
Qed.

Lemma values_set (d : dict K V) k v x :
  In x (values (set d k v)) -> x = v \/ In x (values d).
Proof.
  induction d as [|[k0 v0] r IH]; simpl.
  - intuition congruence.
  - destruct (K_eq_dec k k0) as [->|Hne]; simpl.
    + intuition congruence.
    + intros [E|I]; [tauto|]. apply IH in I. tauto.
Qed.

Lemma get_app (d e : dict K V) k :
  get (d ++ e) k = match get d k with Some v => Some v | None => get e k end.
Proof.
  induction d as [|[k0 v0] r IH]; simpl; [reflexivity|].
  destruct (K_eq_dec k k0); [reflexivity|exact IH].
Qed.

End Facts.

End PyDictFacts.

(** ** Facts about the substitution of markers *)

Module ReFacts.

Import PyStr PyStrFacts Re Statements.

Lemma splice_assoc a b c : splice (splice a b) c = splice a (splice b c).
Proof.
  destruct a as [x|e]; [|reflexivity].
  destruct b as [y|e]; [|reflexivity].
  destruct c as [z|e]; [|reflexivity].
  simpl. rewrite app_assoc. reflexivity.
Qed.

Lemma splice_nil_l a : splice (Ok []) a = a.
Proof. destruct a; reflexivity. Qed.

Lemma sub_markers_cons repl c t :
  sub_markers repl (c :: t)
  = match match_marker (c :: t) with
    | Some d =>
        splice (repl d) (sub_markers repl (skipn (S (List.length d)) t))
    | None => splice (Ok [c]) (sub_markers repl t)
    end.
Proof.
  simp sub_markers. destruct (match_marker (c :: t)); reflexivity.
Qed.

(** Where the pattern matches, the text starts with a bracket, a
    non-empty run of digits and a closing bracket. *)
Lemma match_marker_Some s d :
  match_marker s = Some d ->
  d <> [] /\ forallb is_digit d = true
  /\ exists r, s = "["%char :: d ++ "]"%char :: r.
Proof.
  destruct s as [|c t]; [discriminate|]. simpl.
  destruct (Ascii.eqb c "[") eqn:Ec; [|discriminate].
  apply Ascii.eqb_eq in Ec. subst c.
  pose proof (span_fst_all is_digit t) as Hd.
  pose proof (span_app is_digit t) as Ht.
  destruct (span is_digit t) as [[|a d'] [|c' r]]; try discriminate.
  destruct (Ascii.eqb c' "]") eqn:Ec'; [|discriminate].
  apply Ascii.eqb_eq in Ec'. subst c'.
  intros H. injection H as <-. simpl in *.
  split; [discriminate|]. split; [exact Hd|].
  exists r. rewrite <- Ht. reflexivity.
Qed.

Lemma match_marker_intro d post :
  d <> [] -> forallb is_digit d = true ->
  match_marker ("["%char :: d ++ "]"%char :: post) = Some d.
Proof.
  intros Hne Hd. simpl. rewrite span_all_stop by (exact Hd || reflexivity).
  destruct d; [congruence|reflexivity].
Qed.

(** A match never runs over a later opening bracket. *)
Lemma match_marker_app c t x :
  match_marker ((c :: t) ++ "["%char :: x) = match_marker (c :: t).
Proof.
  simpl. destruct (Ascii.eqb c "["); [|reflexivity].
  rewrite span_app_stop by reflexivity.
  destruct (span is_digit t) as [[|a d] [|c' r]]; reflexivity.
Qed.

Lemma skipn_marker d r : skipn (S (List.length d)) (d ++ "]"%char :: r) = r.
Proof.
  induction d as [|a d IH]; [reflexivity|]. exact IH.
Qed.

(** The substitution works on a marker and on the two sides of it
    separately, whatever the sides are. *)
Lemma sub_markers_app repl pre d post :
  d <> [] -> forallb is_digit d = true ->
  sub_markers repl (pre ++ "["%char :: d ++ "]"%char :: post)
  = splice (sub_markers repl pre)
      (splice (repl d) (sub_markers repl post)).
Proof.
  intros Hne Hd.
  remember (List.length pre) as n eqn:Hn. revert pre Hn.
  induction n as [n IH] using lt_wf_ind. intros pre Hn.
  destruct pre as [|c t].
  - rewrite app_nil_l, sub_markers_cons, match_marker_intro by assumption.
    rewrite skipn_marker. simp sub_markers. rewrite splice_nil_l.
    reflexivity.
  - rewrite (sub_markers_cons repl c t).
    change ((c :: t) ++ "["%char :: d ++ "]"%char :: post)
      with (c :: (t ++ "["%char :: d ++ "]"%char :: post)).
    rewrite sub_markers_cons.
    change (c :: (t ++ "["%char :: d ++ "]"%char :: post))
      with ((c :: t) ++ "["%char :: d ++ "]"%char :: post).
    rewrite match_marker_app.
    destruct (match_marker (c :: t)) as [d'|] eqn:Em.
    + destruct (match_marker_Some _ Em) as [_ [_ [r Hr]]].
      injection Hr as -> ->.
      rewrite <- app_assoc, <- app_comm_cons, !skipn_marker.
      rewrite (IH (List.length r)) with (pre := r); [|subst n|reflexivity].
      * rewrite splice_assoc. reflexivity.
      * simpl. rewrite length_app. simpl. lia.
    + rewrite (IH (List.length t)) with (pre := t);
        [|subst n; simpl; lia|reflexivity].
      rewrite splice_assoc. reflexivity.
Qed.

Lemma splice_Ok a b c :
  splice a b = Ok c -> exists x y, a = Ok x /\ b = Ok y /\ c = x ++ y.
Proof.
  destruct a as [x|e]; [|discriminate].
  destruct b as [y|e]; [|discriminate].
  simpl. intros H. injection H as <-. exists x, y. auto.
Qed.

(** *** The markers of a text *)

Lemma marker_in_head d post :
  d <> [] -> forallb is_digit d = true ->
  marker_in ("["%char :: d ++ "]"%char :: post) d.
Proof.
  intros Hne Hd. split; [exact Hne|]. split; [exact Hd|].
  exists [], post. reflexivity.
Qed.

Lemma marker_in_app_r x body d : marker_in body d -> marker_in (x ++ body) d.
Proof.
  intros [Hne [Hd [pre [post ->]]]]. split; [exact Hne|]. split; [exact Hd|].
  exists (x ++ pre), post. rewrite <- app_assoc. reflexivity.
Qed.

Lemma marker_in_app_l x body d : marker_in body d -> marker_in (body ++ x) d.
Proof.
  intros [Hne [Hd [pre [post ->]]]]. split; [exact Hne|]. split; [exact Hd|].
  exists pre, (post ++ x).
  change (pre ++ "[" ++ d ++ "]" ++ post)
    with (pre ++ "["%char :: d ++ "]"%char :: post).
  change (pre ++ "[" ++ d ++ "]" ++ post ++ x)
    with (pre ++ "["%char :: d ++ "]"%char :: post ++ x).
  rewrite <- app_assoc, <- app_comm_cons, <- app_assoc, <- app_comm_cons.
  reflexivity.
Qed.

Lemma marker_in_cons c body d : marker_in body d -> marker_in (c :: body) d.
Proof. apply (marker_in_app_r [c]). Qed.

Lemma marker_in_after d0 body d :
  marker_in body d -> marker_in ("["%char :: d0 ++ "]"%char :: body) d.
Proof.
  intros H. apply (marker_in_app_r ("["%char :: d0 ++ ["]"%char])) in H.
  rewrite <- app_comm_cons, <- app_assoc in H. exact H.
Qed.

(** A marker is shorter than the text it stands in. *)
Lemma marker_in_length body d :
  marker_in body d -> (List.length d + 2 <= List.length body)%nat.
Proof.
  intros [_ [_ [pre [post ->]]]].
  change (pre ++ "[" ++ d ++ "]" ++ post)
    with (pre ++ "["%char :: d ++ "]"%char :: post).
  rewrite length_app. cbn [List.length]. rewrite length_app.
  cbn [List.length]. lia.
Qed.

Lemma markers_within_limit_short body :
  (List.length body <= int_max_str_digits)%nat -> markers_within_limit body.
Proof. intros H d Hd. apply marker_in_length in Hd. lia. Qed.

(** *** When the substitution returns *)

(** The substitution returns when the callback returns on every marker
    of the text... *)
Lemma sub_markers_returns repl s :
  (forall d, marker_in s d -> exists x, repl d = Ok x) ->
  exists s', sub_markers repl s = Ok s'.
Proof.
  remember (List.length s) as n eqn:Hn. revert s Hn.
  induction n as [n IH] using lt_wf_ind. intros s Hn Hrepl.
  destruct s as [|c t].
  - exists []. simp sub_markers. reflexivity.
  - rewrite sub_markers_cons.
    destruct (match_marker (c :: t)) as [d|] eqn:Em.
    + destruct (match_marker_Some _ Em) as [Hne [Hd [r Hr]]].
      injection Hr as -> ->. rewrite skipn_marker.
      destruct (Hrepl d (marker_in_head r Hne Hd)) as [x ->].
      destruct (IH (List.length r)) with (s := r) as [y ->];
        [subst n; simpl; rewrite length_app; simpl; lia|reflexivity| |].
      * intros d' Hd'. apply Hrepl, marker_in_after, Hd'.
      * eexists; reflexivity.
    + destruct (IH (List.length t)) with (s := t) as [y ->];
        [subst n; simpl; lia|reflexivity| |].
      * intros d' Hd'. apply Hrepl, marker_in_cons, Hd'.
      * eexists; reflexivity.
Qed.

(** ... and an exception that it raises was raised by the callback on
    one of them. *)
Lemma sub_markers_raises repl s e :
  sub_markers repl s = Raise e ->
  exists d, marker_in s d /\ repl d = Raise e.
Proof.
  remember (List.length s) as n eqn:Hn. revert s Hn.
  induction n as [n IH] using lt_wf_ind. intros s Hn H.
  destruct s as [|c t].
  - simp sub_markers in H. discriminate H.
  - rewrite sub_markers_cons in H.
    destruct (match_marker (c :: t)) as [d|] eqn:Em.
    + destruct (match_marker_Some _ Em) as [Hne [Hd [r Hr]]].
      injection Hr as -> ->. rewrite skipn_marker in H.
      destruct (repl d) as [x|e'] eqn:Ex.
      * destruct (sub_markers repl r) as [y|e'] eqn:Er; [discriminate H|].
        simpl in H. injection H as <-.
        destruct (IH (List.length r)) with (s := r) as [d' [Hd' He]];
          [subst n; simpl; rewrite length_app; simpl; lia|reflexivity
          |exact Er|].
        exists d'. split; [apply marker_in_after, Hd'|exact He].
      * simpl in H. injection H as <-.
        exists d. split; [apply marker_in_head; assumption|exact Ex].
    + destruct (sub_markers repl t) as [y|e'] eqn:Er; [discriminate H|].
      simpl in H. injection H as <-.
      destruct (IH (List.length t)) with (s := t) as [d' [Hd' He]];
        [subst n; simpl; lia|reflexivity|exact Er|].
      exists d'. split; [apply marker_in_cons, Hd'|exact He].
Qed.

(** When the substitution returns on a text, it returned on the two
    sides of each marker, and the callback on the marker. *)
Lemma sub_markers_app_Ok repl pre d post s' :
  d <> [] -> forallb is_digit d = true ->
  sub_markers repl (pre ++ "["%char :: d ++ "]"%char :: post) = Ok s' ->
  exists pre' x post',
    sub_markers repl pre = Ok pre'
    /\ repl d = Ok x
    /\ sub_markers repl post = Ok post'
    /\ s' = pre' ++ x ++ post'.
Proof.
  intros Hne Hd H. rewrite sub_markers_app in H by assumption.
  apply splice_Ok in H. destruct H as [pre' [r [Hpre [Hr ->]]]].
  apply splice_Ok in Hr. destruct Hr as [x [post' [Hx [Hpost ->]]]].
  exists pre', x, post'. auto.
Qed.

End ReFacts.

(** ** Facts about reference consolidation *)

Module ReferencesFacts.

Import PyStr PyStrFacts PyDict PyDictFacts References Statements.

(** *** Reading back an entry written by the program *)

Lemma render_int_stripped (p : ascii -> bool) n :
  (forall c, is_digit c = true -> p c = false) -> p "-"%char = false ->
  render_int n <> [] /\ stripped p (render_int n)
  /\ forallb (fun c => is_digit c || Ascii.eqb c "-") (render_int n) = true.
Proof.
  intros Hd Hm.
  destruct (render_int_cases n) as [u [Hu [_ [[_ [-> _]]|[_ [-> _]]]]]].
  - pose proof (uint_chars_digits u) as Hu'.
    pose proof (uint_chars_nonnil Hu) as Hne.
    split; [exact Hne|]. split.
    + destruct (uint_chars u) as [|c t] eqn:E; [congruence|].
      simpl in Hu'. apply andb_true_iff in Hu'. destruct Hu' as [Hc Ht].
      apply stripped_ends; [apply Hd, Hc|].
      intros e <-. apply Hd, forallb_last; assumption.
    + rewrite forallb_forall in *. intros c Hc. rewrite (Hu' c Hc). reflexivity.
  - pose proof (uint_chars_digits u) as Hu'.
    pose proof (uint_chars_nonnil Hu) as Hne.
    split; [discriminate|]. split.
    + apply stripped_ends; [exact Hm|].
      intros e <-. apply Hd, forallb_last_ne; assumption.
    + simpl. rewrite forallb_forall in *. intros c Hc.
      rewrite (Hu' c Hc). reflexivity.
Qed.

(** An entry is written for the numbers that [str()] writes... *)
Lemma format_ref_Ok n url :
  (Z.abs n < int_limit)%Z -> format_ref n url = Ok (ref_entry n url).
Proof. intros H. unfold format_ref. rewrite (py_str_Ok _ H). reflexivity. Qed.

Lemma format_ref_inv n url e :
  format_ref n url = Ok e -> e = ref_entry n url /\ (Z.abs n < int_limit)%Z.
Proof.
  unfold format_ref. destruct (py_str n) as [t|x] eqn:E; [|discriminate].
  simpl. intros H. injection H as <-.
  destruct (py_str_inv _ E) as [-> Hn]. split; [reflexivity|exact Hn].
Qed.

Lemma format_ref_raises n url x :
  format_ref n url = Raise x -> x = ValueError /\ (int_limit <= Z.abs n)%Z.
Proof.
  unfold format_ref. destruct (py_str n) as [t|y] eqn:E; [discriminate|].
  simpl. intros H. injection H as <-. apply (py_str_raises _ E).
Qed.

(** ... and read back as it was written. *)
Lemma parse_entry n url :
  stripped is_space url -> (Z.abs n < int_limit)%Z ->
  parse_ref (ref_entry n url) = Ok (url, n).
Proof.
  intros Hs Hn. unfold parse_ref, ref_entry.
  destruct (render_int_stripped (is_char "[") n) as [Hne [Hst Hch]].
  { intros c Hc. apply digit_not_bracket, Hc. }
  { reflexivity. }
  assert (Hspan : span (not_char "]") ("[" ++ render_int n ++ "] " ++ url)
                  = ("["%char :: render_int n,
                     "]"%char :: " "%char :: url)).
  { change ("[" ++ render_int n ++ "] " ++ url)
      with (("["%char :: render_int n) ++ "]"%char :: " "%char :: url).
    apply span_all_stop; [|reflexivity].
    simpl. rewrite forallb_forall in *. intros c Hc.
    specialize (Hch c Hc). unfold not_char.
    destruct (is_digit c) eqn:Ed.
    - destruct (digit_not_bracket _ Ed) as [_ ->]. reflexivity.
    - simpl in Hch. apply Ascii.eqb_eq in Hch. subst c. reflexivity. }
  unfold split_head, take_while, split_tail, drop_while. rewrite Hspan.
  simpl fst. simpl snd.
  rewrite strip_chars_skip by reflexivity.
  rewrite (stripped_strip_chars Hst), (py_int_render _ Hn). simpl.
  unfold strip. rewrite strip_chars_skip by reflexivity.
  rewrite (stripped_strip_chars Hs). reflexivity.
Qed.

Lemma parse_ref_stripped ref url n :
  parse_ref ref = Ok (url, n) -> stripped is_space url.
Proof.
  unfold parse_ref.
  destruct (py_int _); simpl; [|discriminate].
  destruct (split_tail _ _); simpl; [|discriminate].
  intros H. injection H as <- _. apply strip_chars_stripped.
Qed.

(** A number read from an entry is one that [str()] writes. *)
Lemma parse_ref_below ref url n :
  parse_ref ref = Ok (url, n) -> (Z.abs n < int_limit)%Z.
Proof.
  unfold parse_ref.
  destruct (py_int _) as [k|] eqn:E; simpl; [|discriminate].
  destruct (split_tail _ _); simpl; [|discriminate].
  intros H. injection H as _ <-. apply (py_int_below _ E).
Qed.

(** *** The running list as a map *)

Lemma entries_keys k us : keys (entries k us) = us.
Proof.
  revert k. induction us as [|u r IH]; intros k; simpl; [reflexivity|].
  f_equal. apply IH.
Qed.

Lemma entries_app k a b :
  entries k (a ++ b) = entries k a ++ entries (k + Z.of_nat (List.length a)) b.
Proof.
  revert k. induction a as [|u r IH]; intros k; simpl.
  - f_equal. lia.
  - rewrite IH. do 3 f_equal. lia.
Qed.

Lemma numbered_app k a b :
  numbered k (a ++ b)
  = numbered k a ++ numbered (k + Z.of_nat (List.length a)) b.
Proof.
  revert k. induction a as [|u r IH]; intros k; simpl.
  - f_equal. lia.
  - rewrite IH. do 3 f_equal. lia.
Qed.

Lemma url_get_entries_None k us u :
  url_get (entries k us) u = None <-> ~ In u us.
Proof. unfold url_get. rewrite get_None_iff, entries_keys. tauto. Qed.

Lemma url_get_entries_app k a b u :
  url_get (entries k (a ++ b)) u
  = match url_get (entries k a) u with
    | Some g => Some g
    | None => url_get (entries (k + Z.of_nat (List.length a)) b) u
    end.
Proof. rewrite entries_app. apply get_app. Qed.

(** The number of a locator is its place in the list. *)
Lemma url_get_entries_nth k us u g :
  url_get (entries k us) u = Some g ->
  (k <= g < k + Z.of_nat (List.length us))%Z
  /\ nth_error us (Z.to_nat (g - k)) = Some u.
Proof.
  revert k. induction us as [|v r IH]; intros k; simpl; [discriminate|].
  destruct (str_eq_dec u v) as [->|Hne].
  - intros H. injection H as <-. split; [lia|].
    replace (k - k)%Z with 0%Z by lia. reflexivity.
  - intros H. destruct (IH _ H) as [Hr Hn]. split; [lia|].
    replace (Z.to_nat (g - k)) with (S (Z.to_nat (g - (k + 1)))) by lia.
    exact Hn.
Qed.

Lemma max_values_entries_from r k acc :
  (acc < k)%Z ->
  fold_left Z.max (values (entries k r)) acc
  = match r with
    | [] => acc
    | _ :: _ => (k + Z.of_nat (List.length r) - 1)%Z
    end.
Proof.
  revert k acc. induction r as [|u r IH]; intros k acc H; [reflexivity|].
  simpl fold_left. rewrite Z.max_r by lia.
  rewrite IH by lia. destruct r; simpl List.length; lia.
Qed.

Lemma max_values_entries us :
  max_values (values (entries 1 us)) = Z.of_nat (List.length us).
Proof.
  destruct us as [|u r]; [reflexivity|]. simpl.
  rewrite max_values_entries_from by lia. destruct r; simpl List.length; lia.
Qed.

(** The program reads its own list back as the map of its entries. *)
Lemma convert_loop_numbered us : forall k m,
  Forall (stripped is_space) us -> NoDup us ->
  (forall u, In u us -> ~ In u (keys m)) ->
  (0 <= k)%Z -> (k + Z.of_nat (List.length us) <= int_limit)%Z ->
  convert_loop m (numbered k us) = Ok (m ++ entries k us).
Proof.
  induction us as [|u r IH]; intros k m Hs Hnd Hm Hk Hlim; simpl.
  - rewrite app_nil_r. reflexivity.
  - inversion Hs as [|? ? Hu Hr]; subst.
    inversion Hnd as [|? ? Hni Hnr]; subst.
    cbn [List.length] in Hlim.
    rewrite (@parse_entry k u Hu) by lia.
    unfold url_set. rewrite set_fresh by (apply Hm; left; reflexivity).
    rewrite IH; [rewrite <- app_assoc; reflexivity|assumption..| |lia|lia].
    intros v Hv. unfold keys. rewrite map_app, in_app_iff. simpl.
    intros [I|[E|[]]].
    + apply (Hm v); [right; exact Hv|exact I].
    + subst v. apply Hni, Hv.
Qed.

Lemma convert_numbered us :
  Forall (stripped is_space) us -> NoDup us ->
  (Z.of_nat (List.length us) < int_limit)%Z ->
  convert_ref_list_to_map (numbered 1 us) = Ok (entries 1 us).
Proof.
  intros Hs Hnd Hl. unfold convert_ref_list_to_map.
  rewrite convert_loop_numbered; auto; lia.
Qed.

(** The keys of a map read from a list are stripped and distinct. *)
Lemma convert_loop_keys refs : forall m m',
  convert_loop m refs = Ok m' ->
  NoDup (keys m) -> Forall (stripped is_space) (keys m) ->
  NoDup (keys m') /\ Forall (stripped is_space) (keys m').
Proof.
  induction refs as [|ref r IH]; intros m m' H Hnd Hs; simpl in H.
  - injection H as <-. tauto.
  - destruct (parse_ref ref) as [[url n]|e] eqn:Ep.
    + apply IH in H; [exact H|apply keys_set_NoDup, Hnd|].
      rewrite Forall_forall in *. intros v Hv.
      apply keys_set in Hv. destruct Hv as [->|Hv]; [|apply Hs, Hv].
      eapply parse_ref_stripped, Ep.
    + destruct e; try discriminate. eapply IH; eassumption.
Qed.

Lemma convert_keys refs m :
  convert_ref_list_to_map refs = Ok m ->
  NoDup (keys m) /\ Forall (stripped is_space) (keys m).
Proof.
  intros H. apply (convert_loop_keys _ _ H); constructor.
Qed.

(** The numbers of a map read from a list are numbers that [str()]
    writes. *)
Lemma convert_loop_below refs : forall m m',
  convert_loop m refs = Ok m' ->
  (forall v, In v (values m) -> (Z.abs v < int_limit)%Z) ->
  forall v, In v (values m') -> (Z.abs v < int_limit)%Z.
Proof.
  induction refs as [|ref r IH]; intros m m' H Hm; simpl in H.
  - injection H as <-. exact Hm.
  - destruct (parse_ref ref) as [[url n]|e] eqn:Ep.
    + apply (IH _ _ H). intros v Hv.
      apply values_set in Hv. destruct Hv as [->|Hv]; [|apply Hm, Hv].
      eapply parse_ref_below, Ep.
    + destruct e; try discriminate. apply (IH _ _ H Hm).
Qed.

Lemma convert_below refs m :
  convert_ref_list_to_map refs = Ok m ->
  forall v, In v (values m) -> (Z.abs v < int_limit)%Z.
Proof. intros H. apply (convert_loop_below _ _ H). intros v []. Qed.

Lemma url_get_below refs m u g :
  convert_ref_list_to_map refs = Ok m -> url_get m u = Some g ->
  (Z.abs g < int_limit)%Z.
Proof.
  intros H Hg. apply (convert_below _ H).
  apply get_Some_In in Hg. change g with (snd (u, g)). apply in_map, Hg.
Qed.

(** *** The merging loop *)

Lemma new_urls_cons mr L n r :
  new_urls mr ((L, n) :: r)
  = if is_new mr L then L :: new_urls mr r else new_urls mr r.
Proof. reflexivity. Qed.

Lemma merged_step_old mr st url k g :
  url_get mr url = Some g ->
  merged_step mr st (url, k)
  = MergeState (num_set (section_to_report_ref_map st) k g)
      (ref_count st) (all_refs st).
Proof. intros E. unfold merged_step. rewrite E. reflexivity. Qed.

Lemma merged_step_new mr st url k :
  url_get mr url = None ->
  merged_step mr st (url, k)
  = MergeState
      (num_set (section_to_report_ref_map st) k (ref_count st + 1)%Z)
      (ref_count st + 1)%Z
      (all_refs st ++ [ref_entry (ref_count st + 1) url]).
Proof. intros E. unfold merged_step. rewrite E. reflexivity. Qed.

Lemma merged_step_absent mr st item n :
  n <> snd item ->
  num_get (section_to_report_ref_map (merged_step mr st item)) n
  = num_get (section_to_report_ref_map st) n.
Proof.
  destruct item as [url k]. simpl. intros Hne. unfold merged_step.
  destruct (url_get mr url); simpl; unfold num_get, num_set;
    apply get_set_other; congruence.
Qed.

(** A local number that no reference of the section carries gets no
    entry in the local-to-global map. *)
Lemma merge_fold_absent mr items : forall st n,
  ~ In n (values items) ->
  num_get (section_to_report_ref_map (fold_left (merged_step mr) items st)) n
  = num_get (section_to_report_ref_map st) n.
Proof.
  induction items as [|item r IH]; intros st n Hn; simpl; [reflexivity|].
  rewrite IH by (intros I; apply Hn; right; exact I).
  apply merged_step_absent. intros E. apply Hn. left. congruence.
Qed.

(** When the report lists every locator of the section, nothing is
    appended. *)
Lemma merge_fold_saturated mr items : forall st,
  (forall u, In u (keys items) -> url_get mr u <> None) ->
  all_refs (fold_left (merged_step mr) items st) = all_refs st.
Proof.
  induction items as [|[url k] r IH]; intros st H; simpl; [reflexivity|].
  rewrite IH by (intros u Hu; apply H; right; exact Hu).
  destruct (url_get mr url) eqn:E; [reflexivity|].
  exfalso. apply (H url); [left; reflexivity|exact E].
Qed.

Lemma unique_number_not_later (L0 : str) (n0 : Z) (r : ref_map) :
  NoDup (keys ((L0, n0) :: r)) ->
  (forall L', In (L', n0) ((L0, n0) :: r) -> L' = L0) ->
  ~ In n0 (values r).
Proof.
  intros Hnd Hu Hin. unfold values in Hin. apply in_map_iff in Hin.
  destruct Hin as [[L' n'] [E I]]. simpl in E. subst n'.
  assert (L' = L0) by (apply Hu; right; exact I). subst L'.
  inversion Hnd as [|? ? Hni _]; subst. apply Hni.
  change L0 with (fst (L0, n0)). apply in_map, I.
Qed.

(** The loop over a section, run on a list of the program's own making:
    the list grows by the new locators, numbered on from its length, and
    a local number carried by one locator only is mapped to the number of
    that locator in the list. *)
Lemma merge_fold items : forall orig added s2r,
  NoDup (orig ++ added) ->
  NoDup (keys items) ->
  (forall u, In u (keys items) -> ~ In u added) ->
  let mr := entries 1 orig in
  let st' :=
    fold_left (merged_step mr) items
      (MergeState s2r (Z.of_nat (List.length (orig ++ added)))
         (numbered 1 (orig ++ added))) in
  let all := orig ++ added ++ new_urls mr items in
  all_refs st' = numbered 1 all
  /\ NoDup all
  /\ (forall L n, In (L, n) items ->
       (forall L', In (L', n) items -> L' = L) ->
       num_get (section_to_report_ref_map st') n
       = url_get (entries 1 all) L).
Proof.
  induction items as [|[L0 n0] r IH]; intros orig added s2r Hnd Hk Hd;
    cbv zeta.
  - simpl. unfold new_urls. simpl. rewrite app_nil_r.
    split; [reflexivity|]. split; [exact Hnd|]. intros L n [].
  - inversion Hk as [|? ? Hni Hkr]; subst.
    cbn [fold_left].
    assert (Hnw : is_new (entries 1 orig) L0
                  = match url_get (entries 1 orig) L0 with
                    | None => true | Some _ => false end) by reflexivity.
    rewrite new_urls_cons, Hnw. clear Hnw.
    destruct (url_get (entries 1 orig) L0) as [g0|] eqn:E.
    + (* a locator of the report *)
      erewrite merged_step_old by exact E.
      simpl section_to_report_ref_map. simpl ref_count. simpl all_refs.
      destruct (IH orig added (num_set s2r n0 g0) Hnd Hkr) as [Ha [Hn Hm]].
      { intros u Hu. apply Hd. right. exact Hu. }
      split; [exact Ha|]. split; [exact Hn|].
      intros L n [Eq|I] Hu.
      * injection Eq as <- <-.
        rewrite merge_fold_absent
          by (eapply unique_number_not_later; eassumption).
        simpl. unfold num_get, num_set. rewrite get_set_same.
        rewrite url_get_entries_app, E. reflexivity.
      * apply Hm; [exact I|]. intros L' I'. apply Hu. right. exact I'.
    + (* a new locator *)
      rewrite merged_step_new by exact E.
      apply url_get_entries_None in E.
      assert (Hnew : ~ In L0 (orig ++ added)).
      { rewrite in_app_iff. intros [I|I]; [exact (E I)|].
        apply (Hd L0); [left; reflexivity|exact I]. }
      assert (Hnd' : NoDup (orig ++ added ++ [L0])).
      { rewrite app_assoc. apply NoDup_app; [exact Hnd| |].
        - constructor; [simpl; tauto|constructor].
        - intros a Ha [<-|[]]. exact (Hnew Ha). }
      destruct (IH orig (added ++ [L0])
                  (num_set s2r n0
                     (Z.of_nat (List.length (orig ++ added)) + 1)%Z)
                  Hnd' Hkr) as [Ha [Hn Hm]].
      { intros u Hu. rewrite in_app_iff. intros [I|[<-|[]]].
        - apply (Hd u); [right; exact Hu|exact I].
        - exact (Hni Hu). }
      assert (El : forall X : list str,
                 orig ++ (added ++ [L0]) ++ X = orig ++ added ++ L0 :: X).
      { intros X. rewrite <- (app_assoc added). reflexivity. }
      rewrite El in Ha, Hn, Hm.
      assert (Est :
        MergeState
          (num_set s2r n0 (Z.of_nat (List.length (orig ++ added)) + 1)%Z)
          (Z.of_nat (List.length (orig ++ added)) + 1)%Z
          (numbered 1 (orig ++ added)
           ++ [ref_entry (Z.of_nat (List.length (orig ++ added)) + 1) L0])
        = MergeState
            (num_set s2r n0 (Z.of_nat (List.length (orig ++ added)) + 1)%Z)
            (Z.of_nat (List.length (orig ++ added ++ [L0])))
            (numbered 1 (orig ++ added ++ [L0]))).
      { f_equal.
        - rewrite !length_app. simpl. lia.
        - rewrite (app_assoc orig), (numbered_app 1 (orig ++ added) [L0]).
          cbn [numbered]. rewrite (Z.add_comm 1). reflexivity. }
      simpl section_to_report_ref_map. simpl ref_count. simpl all_refs.
      rewrite Est.
      split; [exact Ha|]. split; [exact Hn|].
      intros L n [Eq|I] Hu.
      * injection Eq as <- <-.
        rewrite merge_fold_absent
          by (eapply unique_number_not_later; eassumption).
        simpl. unfold num_get, num_set. rewrite get_set_same.
        rewrite (app_assoc orig), url_get_entries_app.
        assert (En : url_get (entries 1 (orig ++ added)) L0 = None)
          by (apply url_get_entries_None, Hnew).
        rewrite En. cbn [entries url_get PyDict.get].
        destruct (str_eq_dec L0 L0); [|congruence].
        f_equal. lia.
      * apply Hm; [exact I|]. intros L' I'. apply Hu. right. exact I'.
Qed.

(** What the loop appends, on any list. *)
Lemma merge_fold_append mr items : forall st,
  all_refs (fold_left (merged_step mr) items st)
  = all_refs st ++ numbered (ref_count st + 1) (new_urls mr items).
Proof.
  induction items as [|[url k] r IH]; intros st.
  - simpl. rewrite app_nil_r. reflexivity.
  - cbn [fold_left]. rewrite IH, new_urls_cons. unfold is_new.
    destruct (url_get mr url) as [g|] eqn:E.
    + erewrite merged_step_old by exact E. reflexivity.
    + rewrite merged_step_new by exact E.
      cbn [all_refs ref_count numbered]. rewrite <- app_assoc.
      reflexivity.
Qed.

(** A number of the local-to-global map is a number of the report or
    one of the new numbers. *)
Lemma merge_fold_values mr items : forall st n g,
  num_get (section_to_report_ref_map (fold_left (merged_step mr) items st)) n
  = Some g ->
  num_get (section_to_report_ref_map st) n = Some g
  \/ In g (values mr)
  \/ (ref_count st < g
       <= ref_count st + Z.of_nat (List.length (new_urls mr items)))%Z.
Proof.
  induction items as [|[url k] r IH]; intros st n g H.
  - left. exact H.
  - cbn [fold_left] in H. apply IH in H. rewrite new_urls_cons.
    unfold is_new. destruct (url_get mr url) as [g0|] eqn:E.
    + erewrite merged_step_old in H by exact E.
      cbn [section_to_report_ref_map ref_count] in H.
      destruct H as [H|[H|H]]; [|right; left; exact H|right; right; exact H].
      unfold num_get, num_set in H.
      destruct (Z.eq_dec k n) as [->|Hne].
      * rewrite get_set_same in H. injection H as <-.
        right. left. apply get_Some_In in E.
        change g0 with (snd (url, g0)). apply in_map, E.
      * rewrite get_set_other in H by exact Hne. left. exact H.
    + rewrite merged_step_new in H by exact E.
      cbn [section_to_report_ref_map ref_count] in H.
      cbn [List.length].
      destruct H as [H|[H|H]]; [|right; left; exact H|right; right; lia].
      unfold num_get, num_set in H.
      destruct (Z.eq_dec k n) as [->|Hne].
      * rewrite get_set_same in H. injection H as <-. right. right. lia.
      * rewrite get_set_other in H by exact Hne. left. exact H.
Qed.

(** A local number that a reference of the section carries has an
    entry in the local-to-global map. *)
Lemma merge_fold_declared mr items : forall st n,
  In n (values items) ->
  num_get (section_to_report_ref_map (fold_left (merged_step mr) items st)) n
  <> None.
Proof.
  induction items as [|[url k] r IH]; intros st n Hn; [contradiction|].
  cbn [fold_left].
  destruct (in_dec Z.eq_dec n (values r)) as [Hr|Hr]; [apply IH, Hr|].
  rewrite merge_fold_absent by exact Hr.
  destruct Hn as [Hn|Hn]; [|contradiction]. simpl in Hn. subst k.
  unfold merged_step.
  destruct (url_get mr url); simpl; unfold num_get, num_set;
    rewrite get_set_same; discriminate.
Qed.

(** *** The loop and the limit of [str()] *)

(** The loop ends in the state [merged_step] describes, having rendered
    every new number; it raises when one of them is beyond the limit. *)
Lemma merge_loop_Ok mr items : forall st st',
  merge_loop mr items st = Ok st' ->
  st' = fold_left (merged_step mr) items st
  /\ forall i,
       (1 <= i <= Z.of_nat (List.length (new_urls mr items)))%Z ->
       (Z.abs (ref_count st + i) < int_limit)%Z.
Proof.
  induction items as [|[url k] r IH]; intros st st' H.
  - simpl in H. injection H as <-. split; [reflexivity|].
    intros i Hi. simpl in Hi. lia.
  - cbn [merge_loop merge_step] in H. cbn [fold_left].
    rewrite new_urls_cons. unfold is_new.
    destruct (url_get mr url) as [g|] eqn:E.
    + simpl in H. erewrite merged_step_old by exact E.
      apply IH in H. exact H.
    + cbv zeta in H.
      destruct (format_ref (ref_count st + 1) url) as [e|x] eqn:Ef;
        [|discriminate H].
      simpl in H. destruct (format_ref_inv _ _ Ef) as [-> Hc].
      rewrite merged_step_new by exact E.
      apply IH in H. destruct H as [-> Hr]. split; [reflexivity|].
      intros i Hi. cbn [List.length] in Hi.
      destruct (Z.eq_dec i 1) as [->|Hne]; [exact Hc|].
      specialize (Hr (i - 1)%Z). cbn [ref_count] in Hr.
      replace (ref_count st + 1 + (i - 1))%Z with (ref_count st + i)%Z
        in Hr by lia.
      apply Hr. lia.
Qed.

Lemma merge_loop_returns mr items : forall st,
  (forall i,
     (1 <= i <= Z.of_nat (List.length (new_urls mr items)))%Z ->
     (Z.abs (ref_count st + i) < int_limit)%Z) ->
  merge_loop mr items st = Ok (fold_left (merged_step mr) items st).
Proof.
  induction items as [|[url k] r IH]; intros st H; [reflexivity|].
  cbn [merge_loop merge_step fold_left].
  rewrite new_urls_cons in H. unfold is_new in H.
  destruct (url_get mr url) as [g|] eqn:E.
  - cbn [bind]. erewrite merged_step_old by exact E. apply IH. exact H.
  - cbv zeta. cbn [List.length] in H.
    rewrite format_ref_Ok by (apply H; lia). cbn [bind].
    rewrite merged_step_new by exact E. apply IH.
    intros i Hi. cbn [ref_count].
    replace (ref_count st + 1 + i)%Z with (ref_count st + (i + 1))%Z by lia.
    apply H. lia.
Qed.

Lemma merge_loop_raises mr items : forall st x,
  merge_loop mr items st = Raise x ->
  x = ValueError
  /\ exists i,
       (1 <= i <= Z.of_nat (List.length (new_urls mr items)))%Z
       /\ (int_limit <= Z.abs (ref_count st + i))%Z.
Proof.
  induction items as [|[url k] r IH]; intros st x H; [discriminate H|].
  cbn [merge_loop merge_step] in H.
  rewrite new_urls_cons. unfold is_new.
  destruct (url_get mr url) as [g|] eqn:E.
  - simpl in H. apply IH in H. exact H.
  - cbv zeta in H.
    destruct (format_ref (ref_count st + 1) url) as [e|y] eqn:Ef.
    + simpl in H. apply IH in H. destruct H as [-> [i [Hi Hl]]].
      split; [reflexivity|]. exists (i + 1)%Z. cbn [ref_count] in Hl.
      cbn [List.length]. split; [lia|].
      replace (ref_count st + (i + 1))%Z with (ref_count st + 1 + i)%Z by lia.
      exact Hl.
    + simpl in H. injection H as <-.
      destruct (format_ref_raises _ _ Ef) as [-> Hl].
      split; [reflexivity|]. exists 1%Z. cbn [List.length]. split; [lia|].
      exact Hl.
Qed.

Lemma merge_Ok mr ms G st :
  merge mr ms G = Ok st ->
  st = merged mr ms G
  /\ forall i,
       (1 <= i <= Z.of_nat (List.length (new_urls mr ms)))%Z ->
       (Z.abs (max_values (values mr) + i) < int_limit)%Z.
Proof. intros H. apply merge_loop_Ok in H. exact H. Qed.

Lemma fold_max_ge l : forall acc,
  (acc <= fold_left Z.max l acc)%Z
  /\ forall g, In g l -> (g <= fold_left Z.max l acc)%Z.
Proof.
  induction l as [|v l IH]; intros acc; simpl.
  - split; [lia|tauto].
  - destruct (IH (Z.max acc v)) as [H1 H2]. split; [lia|].
    intros g [<-|Hg]; [lia|apply H2, Hg].
Qed.

Lemma max_values_ge vs g : In g vs -> (g <= max_values vs)%Z.
Proof.
  destruct vs as [|v r]; [contradiction|]. simpl.
  destruct (fold_max_ge r v) as [H1 H2].
  intros [<-|Hg]; [exact H1|apply H2, Hg].
Qed.

(** The greatest number of a list is 0, or one of its numbers. *)
Lemma max_values_in vs : vs = [] /\ max_values vs = 0%Z \/ In (max_values vs) vs.
Proof.
  destruct vs as [|v r]; [left; auto|right]. simpl.
  revert v. induction r as [|w r IH]; intros v; simpl; [left; reflexivity|].
  destruct (IH (Z.max v w)) as [E|I].
  - rewrite <- E. destruct (Z.max_spec v w) as [[_ ->]|[_ ->]];
      [right; left|left]; reflexivity.
  - right. right. exact I.
Qed.

Lemma max_values_below refs mr :
  convert_ref_list_to_map refs = Ok mr ->
  (Z.abs (max_values (values mr)) < int_limit)%Z.
Proof.
  intros H. destruct (max_values_in (values mr)) as [[_ ->]|I].
  - pose proof int_limit_pos. simpl. lia.
  - apply (convert_below _ H _ I).
Qed.

(** The numbers of the local-to-global map of a call are numbers that
    [str()] writes. *)
Lemma merge_below G mr ms st n g :
  convert_ref_list_to_map G = Ok mr ->
  merge mr ms G = Ok st ->
  num_get (section_to_report_ref_map st) n = Some g ->
  (Z.abs g < int_limit)%Z.
Proof.
  intros Hr Hm Hg. apply merge_Ok in Hm. destruct Hm as [-> Hnew].
  unfold merged in Hg. apply merge_fold_values in Hg.
  cbn [section_to_report_ref_map ref_count] in Hg.
  destruct Hg as [Hg|[Hg|Hg]]; [discriminate Hg| |].
  - apply (convert_below _ Hr _ Hg).
  - replace g with (max_values (values mr) + (g - max_values (values mr)))%Z
      by lia.
    apply Hnew. lia.
Qed.

(** *** The whole call *)

Lemma replace_reference_returns m d :
  d <> [] -> forallb is_digit d = true ->
  (List.length d <= int_max_str_digits)%nat ->
  (forall n g, num_get m n = Some g -> (Z.abs g < int_limit)%Z) ->
  exists x, replace_reference m d = Ok x.
Proof.
  intros Hne Hd Hl Hm. unfold replace_reference.
  destruct (py_int_digits Hne Hd Hl) as [n ->]. simpl.
  destruct (num_get m n) as [g|] eqn:Eg; [|eexists; reflexivity].
  destruct (g =? 0)%Z; [eexists; reflexivity|].
  rewrite (py_str_Ok _ (Hm _ _ Eg)). eexists; reflexivity.
Qed.

Lemma replace_reference_raises m d x :
  d <> [] -> forallb is_digit d = true ->
  (forall n g, num_get m n = Some g -> (Z.abs g < int_limit)%Z) ->
  replace_reference m d = Raise x ->
  x = ValueError /\ (int_max_str_digits < List.length d)%nat.
Proof.
  intros Hne Hd Hm. unfold replace_reference.
  destruct (py_int d) as [n|y] eqn:En.
  - simpl. destruct (num_get m n) as [g|] eqn:Eg; [|discriminate].
    destruct (g =? 0)%Z; [discriminate|].
    rewrite (py_str_Ok _ (Hm _ _ Eg)). discriminate.
  - simpl. intros H. injection H as <-.
    split; [apply (py_int_raises _ En)|].
    destruct (Nat.le_gt_cases (List.length d) int_max_str_digits) as [L|L];
      [|exact L].
    destruct (py_int_digits Hne Hd L) as [n Hn]. congruence.
Qed.

Lemma reformat_references_maps body refs G ms mr st :
  convert_ref_list_to_map refs = Ok ms ->
  convert_ref_list_to_map G = Ok mr ->
  merge mr ms G = Ok st ->
  reformat_references body refs G
  = body' <-
      Re.sub_markers (replace_reference (section_to_report_ref_map st))
        body ;;
    Ok (body', all_refs st).
Proof.
  intros Hs Hr Hm. unfold reformat_references. rewrite Hs, Hr. simpl.
  rewrite Hm. reflexivity.
Qed.

Lemma reformat_references_Ok body refs G body' G' :
  reformat_references body refs G = Ok (body', G') ->
  exists ms mr st,
    convert_ref_list_to_map refs = Ok ms
    /\ convert_ref_list_to_map G = Ok mr
    /\ merge mr ms G = Ok st
    /\ G' = all_refs st
    /\ Re.sub_markers (replace_reference (section_to_report_ref_map st))
         body = Ok body'.
Proof.
  unfold reformat_references.
  destruct (convert_ref_list_to_map refs) as [ms|]; [|discriminate].
  destruct (convert_ref_list_to_map G) as [mr|]; [|discriminate].
  simpl.
  destruct (merge mr ms G) as [st|] eqn:Em; [|discriminate]. simpl.
  destruct (Re.sub_markers _ body) as [b|] eqn:Eb; [|discriminate].
  simpl. intros H. injection H as <- <-.
  exists ms, mr, st. repeat split; assumption.
Qed.

(** Once the two lists are read and merged, the call returns on a text
    whose markers are within the limit of [int()]. *)
Lemma reformat_references_returns body refs G ms mr st :
  convert_ref_list_to_map refs = Ok ms ->
  convert_ref_list_to_map G = Ok mr ->
  merge mr ms G = Ok st ->
  markers_within_limit body ->
  exists body', reformat_references body refs G = Ok (body', all_refs st).
Proof.
  intros Hs Hr Hm Hb.
  rewrite (@reformat_references_maps body _ _ _ _ _ Hs Hr Hm).
  destruct (@ReFacts.sub_markers_returns
              (replace_reference (section_to_report_ref_map st)) body)
    as [b ->].
  - intros d Hd. destruct Hd as [Hne [Hdig Hdec]].
    apply replace_reference_returns; [exact Hne|exact Hdig| |].
    + apply Hb. split; [exact Hne|]. split; [exact Hdig|exact Hdec].
    + intros n g. apply (@merge_below _ _ _ _ _ _ Hr Hm).
  - exists b. reflexivity.
Qed.

(** When the call returns on a text, it returns on the two sides of
    each marker, with the same list, and the marker is rewritten by the
    callback. *)
Lemma reformat_references_marker pre d post refs G body' G' :
  d <> [] -> forallb is_digit d = true ->
  reformat_references (pre ++ "[" ++ d ++ "]" ++ post) refs G
  = Ok (body', G') ->
  exists ms mr st pre' x post',
    convert_ref_list_to_map refs = Ok ms
    /\ convert_ref_list_to_map G = Ok mr
    /\ merge mr ms G = Ok st
    /\ G' = all_refs st
    /\ reformat_references pre refs G = Ok (pre', G')
    /\ reformat_references post refs G = Ok (post', G')
    /\ replace_reference (section_to_report_ref_map st) d = Ok x
    /\ body' = pre' ++ x ++ post'.
Proof.
  intros Hne Hd H.
  destruct (reformat_references_Ok _ _ _ H)
    as [ms [mr [st [Hs [Hr [Hm [-> Hsub]]]]]]].
  change (pre ++ "[" ++ d ++ "]" ++ post)
    with (pre ++ "["%char :: d ++ "]"%char :: post) in Hsub.
  apply ReFacts.sub_markers_app_Ok in Hsub; [|assumption..].
  destruct Hsub as [pre' [x [post' [Hpre [Hx [Hpost ->]]]]]].
  exists ms, mr, st, pre', x, post'.
  rewrite !(fun b => @reformat_references_maps b _ _ _ _ _ Hs Hr Hm).
  rewrite Hpre, Hpost. simpl. repeat split; assumption.
Qed.

(** A marker whose number has no entry in the local-to-global map
    leaves nothing. *)
Lemma reformat_references_unmapped pre d post refs G ms mr st n body' G' :
  convert_ref_list_to_map refs = Ok ms ->
  convert_ref_list_to_map G = Ok mr ->
  merge mr ms G = Ok st ->
  d <> [] -> forallb is_digit d = true ->
  py_int d = Ok n ->
  num_get (section_to_report_ref_map st) n = None ->
  reformat_references (pre ++ "[" ++ d ++ "]" ++ post) refs G
  = Ok (body', G') ->
  exists pre' post',
    reformat_references pre refs G = Ok (pre', G')
    /\ reformat_references post refs G = Ok (post', G')
    /\ body' = pre' ++ post'.
Proof.
  intros Hs Hr Hm Hne Hd Hn Hget H.
  destruct (reformat_references_marker _ _ _ _ Hne Hd H)
    as [ms' [mr' [st' [pre' [x [post' [Hs' [Hr' [Hm' [_ [Hpre [Hpost
         [Hx ->]]]]]]]]]]]]].
  assert (ms' = ms) by congruence. subst ms'.
  assert (mr' = mr) by congruence. subst mr'.
  assert (st' = st) by congruence. subst st'.
  unfold replace_reference in Hx. rewrite Hn in Hx. simpl in Hx.
  rewrite Hget in Hx. injection Hx as <-.
  exists pre', post'. split; [exact Hpre|]. split; [exact Hpost|reflexivity].
Qed.

(** The call on a list of the program's own making. *)
Lemma merge_numbered us ms :
  NoDup us -> NoDup (keys ms) ->
  let st := merged (entries 1 us) ms (numbered 1 us) in
  let all := us ++ new_urls (entries 1 us) ms in
  all_refs st = numbered 1 all
  /\ NoDup all
  /\ (forall L n, In (L, n) ms ->
       (forall L', In (L', n) ms -> L' = L) ->
       num_get (section_to_report_ref_map st) n
       = url_get (entries 1 all) L).
Proof.
  intros Hu Hk. cbv zeta. unfold merged.
  rewrite max_values_entries.
  pose proof (@merge_fold ms us [] []) as H. cbv zeta in H.
  rewrite !app_nil_r in H. simpl app in H.
  apply H; [exact Hu|exact Hk|]. intros u _ [].
Qed.

Lemma new_urls_stripped mr ms :
  Forall (stripped is_space) (keys ms) ->
  Forall (stripped is_space) (new_urls mr ms).
Proof.
  intros H. rewrite Forall_forall in *. intros u Hu.
  apply H. unfold new_urls in Hu. apply filter_In in Hu. tauto.
Qed.

(** A call on a list of the program's own making leaves such a list. *)
Lemma call_numbered us body refs body' G' :
  NoDup us -> Forall (stripped is_space) us ->
  (Z.of_nat (List.length us) < int_limit)%Z ->
  reformat_references body refs (numbered 1 us) = Ok (body', G') ->
  exists ms,
    convert_ref_list_to_map refs = Ok ms
    /\ merge (entries 1 us) ms (numbered 1 us)
       = Ok (merged (entries 1 us) ms (numbered 1 us))
    /\ G' = numbered 1 (us ++ new_urls (entries 1 us) ms)
    /\ NoDup (us ++ new_urls (entries 1 us) ms)
    /\ Forall (stripped is_space) (us ++ new_urls (entries 1 us) ms)
    /\ (Z.of_nat (List.length (us ++ new_urls (entries 1 us) ms))
        < int_limit)%Z.
Proof.
  intros Hnd Hst Hlim Hcall.
  destruct (reformat_references_Ok _ _ _ Hcall)
    as [ms [mr [st [Hs [Hr [Hm [-> _]]]]]]].
  rewrite (convert_numbered Hst Hnd Hlim) in Hr. injection Hr as <-.
  destruct (convert_keys _ Hs) as [Hk Hks].
  destruct (@merge_numbered us ms Hnd Hk) as [Ha [Hn _]].
  pose proof (merge_Ok _ _ _ Hm) as [Est Hnew]. subst st.
  exists ms. split; [exact Hs|]. split; [exact Hm|]. split; [exact Ha|].
  split; [exact Hn|]. split.
  - apply Forall_app. split; [exact Hst|]. apply new_urls_stripped, Hks.
  - rewrite length_app, Nat2Z.inj_add.
    destruct (new_urls (entries 1 us) ms) as [|u r] eqn:En.
    + simpl. lia.
    + rewrite max_values_entries in Hnew.
      specialize (Hnew (Z.of_nat (List.length (u :: r)))).
      cbn [List.length] in Hnew |- *. lia.
Qed.

(** The lists the program builds from the empty list are the lists
    [[1] u1], [[2] u2], ... of distinct, stripped locators, with fewer
    entries than the limit of [str()] allows to number. *)
Lemma consolidated_numbered G :
  consolidated G ->
  exists us,
    NoDup us /\ Forall (stripped is_space) us
    /\ (Z.of_nat (List.length us) < int_limit)%Z
    /\ G = numbered 1 us.
Proof.
  induction 1 as [|G body refs body' G' _ [us [Hnd [Hst [Hlim ->]]]] Hcall].
  - exists []. pose proof int_limit_pos.
    split; [constructor|]. split; [constructor|]. split; [simpl; lia|].
    reflexivity.
  - destruct (call_numbered _ _ Hnd Hst Hlim Hcall)
      as [ms [_ [_ [-> [Hn [Hs Hl]]]]]].
    exists (us ++ new_urls (entries 1 us) ms). auto.
Qed.

End ReferencesFacts.

(** ** Reference consolidation: the claims *)

Module Consolidation.

Import PyStr PyStrFacts PyDict PyDictFacts References ReferencesFacts.
Import Statements.

(** C1 — Monotonic numbering.  Every list of all references that a run
    of calls of [reformat_references] builds from the empty list is
    [[1] u1], [[2] u2], ..., [[N] uN] for distinct locators [u1 .. uN]: the
    numbers are the consecutive integers from 1, in the order of
    assignment, and the program reads the list back as the map [ui -> i].
    A further call that returns keeps the list and appends the new
    locators under the numbers that follow the current maximum, so a
    number is never given twice. *)
Theorem monotonic_numbering (G : list str) :
  consolidated G ->
  exists us,
    NoDup us
    /\ G = numbered 1 us
    /\ convert_ref_list_to_map G = Ok (entries 1 us)
    /\ max_values (values (entries 1 us)) = Z.of_nat (List.length us)
    /\ (forall body refs body' G',
         reformat_references body refs G = Ok (body', G') ->
         exists new,
           G' = G ++ numbered (max_values (values (entries 1 us)) + 1) new
           /\ G' = numbered 1 (us ++ new)
           /\ NoDup (us ++ new)).
Proof.
  intros HG.
  destruct (consolidated_numbered HG) as [us [Hnd [Hst [Hlim ->]]]].
  pose proof (convert_numbered Hst Hnd Hlim) as Hr.
  exists us. split; [exact Hnd|]. split; [reflexivity|].
  split; [exact Hr|]. split; [apply max_values_entries|].
  intros body refs body' G' Hcall.
  destruct (call_numbered _ _ Hnd Hst Hlim Hcall)
    as [ms [_ [_ [-> [Hn _]]]]].
  exists (new_urls (entries 1 us) ms).
  split; [|split; [reflexivity|exact Hn]].
  rewrite numbered_app, max_values_entries.
  rewrite (Z.add_comm 1). reflexivity.
Qed.

Lemma monotonic_numbering_witness :
  consolidated (strs ["[1] a.com"; "[2] b.com"])
  /\ exists us,
       NoDup us
       /\ strs ["[1] a.com"; "[2] b.com"] = numbered 1 us
       /\ convert_ref_list_to_map (strs ["[1] a.com"; "[2] b.com"])
          = Ok (entries 1 us)
       /\ max_values (values (entries 1 us)) = Z.of_nat (List.length us)
       /\ (forall body refs body' G',
            reformat_references body refs (strs ["[1] a.com"; "[2] b.com"])
            = Ok (body', G') ->
            exists new,
              G' = strs ["[1] a.com"; "[2] b.com"]
                   ++ numbered (max_values (values (entries 1 us)) + 1) new
              /\ G' = numbered 1 (us ++ new)
              /\ NoDup (us ++ new)).
Proof.
  assert (H : consolidated (strs ["[1] a.com"; "[2] b.com"])).
  { apply consolidated_call
      with (all_references := strs ["[1] a.com"])
           (section_markdown := "Again [2], and [1]")
           (section_references := strs ["[1] b.com"; "[2] a.com"])
           (section_markdown' := "Again [1], and [2]").
    - apply consolidated_call
        with (all_references := [])
             (section_markdown := "First [1]")
             (section_references := strs ["[1] a.com"])
             (section_markdown' := "First [1]").
      + apply consolidated_nil.
      + vm_compute. reflexivity.
    - vm_compute. reflexivity. }
  split; [exact H|]. apply (monotonic_numbering H).
Defined.

(** *** A list that has every locator of the section *)

Lemma new_urls_saturated (mr ms : ref_map) :
  (forall url, In url (keys ms) -> In url (keys mr)) ->
  new_urls mr ms = [].
Proof.
  unfold new_urls. induction (keys ms) as [|u r IH]; intros H;
    [reflexivity|].
  cbn [filter]. unfold is_new at 1.
  destruct (url_get mr u) as [g|] eqn:E.
  - apply IH. intros v Hv. apply H. right. exact Hv.
  - exfalso. apply get_None_iff in E. apply E, H. left. reflexivity.
Qed.

Lemma merge_saturated (mr ms : ref_map) (G : list str) :
  (forall url, In url (keys ms) -> In url (keys mr)) ->
  exists st, merge mr ms G = Ok st /\ all_refs st = G.
Proof.
  intros Hsat. exists (merged mr ms G). split.
  - apply merge_loop_returns. rewrite (@new_urls_saturated _ _ Hsat).
    intros i Hi. simpl in Hi. lia.
  - unfold merged. rewrite merge_fold_append.
    rewrite (@new_urls_saturated _ _ Hsat). apply app_nil_r.
Qed.

(** C3 — Idempotent consolidation.  When the list of all references has
    an entry for every locator of the section's list, a second call with
    the same section on the list that the first call left gives what the
    first call gave; a call that returns the rewritten section returns
    the list as it was; and the call does return when no marker of the
    section has more digits than [int()] reads. *)
Theorem idempotent_when_saturated (body : str) (refs G : list str)
    (ms mr : ref_map) :
  convert_ref_list_to_map refs = Ok ms ->
  convert_ref_list_to_map G = Ok mr ->
  (forall url, In url (keys ms) -> In url (keys mr)) ->
  (r <- reformat_references body refs G ;;
   reformat_references body refs (snd r))
  = reformat_references body refs G
  /\ (forall body' G',
        reformat_references body refs G = Ok (body', G') -> G' = G)
  /\ (markers_within_limit body ->
      exists body', reformat_references body refs G = Ok (body', G)).
Proof.
  intros Hs Hr Hsat.
  destruct (@merge_saturated mr ms G Hsat) as [st [Hm HG]].
  assert (Hsame : forall body' G',
            reformat_references body refs G = Ok (body', G') -> G' = G).
  { intros body' G' H.
    rewrite (@reformat_references_maps body _ _ _ _ _ Hs Hr Hm) in H.
    destruct (Re.sub_markers _ body) as [b|e]; [|discriminate H].
    simpl in H. injection H as _ <-. exact HG. }
  split; [|split; [exact Hsame|]].
  - destruct (reformat_references body refs G) as [[b G']|e] eqn:Ec;
      [|reflexivity].
    rewrite (Hsame _ _ eq_refl) in Ec |- *. simpl. exact Ec.
  - intros Hb.
    destruct (@reformat_references_returns body _ _ _ _ _ Hs Hr Hm Hb)
      as [b Hcall].
    rewrite HG in Hcall. exists b. exact Hcall.
Qed.

Lemma idempotent_when_saturated_witness :
  convert_ref_list_to_map (strs ["[1] b.com"; "[2] a.com"])
  = Ok [("b.com" : str, 1%Z); ("a.com" : str, 2%Z)]
  /\ convert_ref_list_to_map (strs ["[1] a.com"; "[2] b.com"; "[3] c.com"])
     = Ok [("a.com" : str, 1%Z); ("b.com" : str, 2%Z); ("c.com" : str, 3%Z)]
  /\ (r <- reformat_references "As in [1] and [2]"
             (strs ["[1] b.com"; "[2] a.com"])
             (strs ["[1] a.com"; "[2] b.com"; "[3] c.com"]) ;;
      reformat_references "As in [1] and [2]"
        (strs ["[1] b.com"; "[2] a.com"]) (snd r))
     = reformat_references "As in [1] and [2]"
         (strs ["[1] b.com"; "[2] a.com"])
         (strs ["[1] a.com"; "[2] b.com"; "[3] c.com"])
  /\ reformat_references "As in [1] and [2]"
       (strs ["[1] b.com"; "[2] a.com"])
       (strs ["[1] a.com"; "[2] b.com"; "[3] c.com"])
     = Ok ("As in [2] and [1]" : str,
           strs ["[1] a.com"; "[2] b.com"; "[3] c.com"]).
Proof.
  split; [vm_compute; reflexivity|]. split; [vm_compute; reflexivity|].
  destruct (@idempotent_when_saturated "As in [1] and [2]"
              (strs ["[1] b.com"; "[2] a.com"])
              (strs ["[1] a.com"; "[2] b.com"; "[3] c.com"])
              [("b.com" : str, 1%Z); ("a.com" : str, 2%Z)]
              [("a.com" : str, 1%Z); ("b.com" : str, 2%Z);
               ("c.com" : str, 3%Z)])
    as [Htwice [_ Hret]].
  - vm_compute. reflexivity.
  - vm_compute. reflexivity.
  - simpl. intros url [<-|[<-|[]]]; vm_compute; tauto.
  - split; [exact Htwice|].
    destruct Hret as [b Hb].
    + apply ReFacts.markers_within_limit_short.
      unfold int_max_str_digits. simpl. lia.
    + rewrite Hb. f_equal. f_equal.
      assert (E : reformat_references "As in [1] and [2]"
                    (strs ["[1] b.com"; "[2] a.com"])
                    (strs ["[1] a.com"; "[2] b.com"; "[3] c.com"])
                  = Ok ("As in [2] and [1]" : str,
                        strs ["[1] a.com"; "[2] b.com"; "[3] c.com"]))
        by (vm_compute; reflexivity).
      rewrite E in Hb. injection Hb as <-. reflexivity.
Defined.

(** C5, as amended — Dangling marker deletion.  In a section whose
    markers all have a number that [int()] reads, at most 4300 digits, a
    marker [[d]] whose number has no entry in the local-to-global map of
    the call is replaced by the empty text, the text on either side being
    rewritten as it would be alone, and the call returns. *)
Theorem dangling_marker_deleted (pre d post : str) (refs G : list str)
    (ms mr : ref_map) (st : merge_state) (n : Z) :
  convert_ref_list_to_map refs = Ok ms ->
  convert_ref_list_to_map G = Ok mr ->
  merge mr ms G = Ok st ->
  d <> [] -> forallb is_digit d = true ->
  py_int d = Ok n ->
  num_get (section_to_report_ref_map st) n = None ->
  markers_within_limit (pre ++ "[" ++ d ++ "]" ++ post) ->
  exists pre' post',
    reformat_references pre refs G = Ok (pre', all_refs st)
    /\ reformat_references post refs G = Ok (post', all_refs st)
    /\ reformat_references (pre ++ "[" ++ d ++ "]" ++ post) refs G
       = Ok (pre' ++ post', all_refs st).
Proof.
  intros Hs Hr Hm Hne Hd Hn Hget Hlim.
  destruct (@reformat_references_returns _ _ _ _ _ _ Hs Hr Hm Hlim)
    as [body' Hcall].
  destruct (@reformat_references_unmapped pre d post refs G ms mr st n
              body' (all_refs st) Hs Hr Hm Hne Hd Hn Hget Hcall)
    as [pre' [post' [Hpre [Hpost ->]]]].
  exists pre', post'. auto.
Qed.

Lemma dangling_marker_deleted_witness :
  convert_ref_list_to_map [] = Ok []
  /\ merge [] [] [] = Ok (MergeState [] 0 [])
  /\ py_int "5" = Ok 5%Z
  /\ num_get [] 5 = None
  /\ markers_within_limit "See [5] for details"
  /\ reformat_references "See [5] for details" [] []
     = Ok ("See  for details" : str, []).
Proof.
  assert (Hlim : markers_within_limit "See [5] for details").
  { apply ReFacts.markers_within_limit_short.
    unfold int_max_str_digits. simpl. lia. }
  split; [reflexivity|]. split; [reflexivity|].
  split; [vm_compute; reflexivity|]. split; [reflexivity|].
  split; [exact Hlim|].
  destruct (@dangling_marker_deleted "See " "5" " for details" [] [] [] []
              (MergeState [] 0 []) 5%Z eq_refl eq_refl eq_refl)
    as [pre' [post' [Hpre [Hpost Hall]]]];
    [discriminate|reflexivity|vm_compute; reflexivity|reflexivity
    |exact Hlim|].
  assert (E1 : reformat_references "See " [] [] = Ok ("See " : str, []))
    by (vm_compute; reflexivity).
  assert (E2 : reformat_references " for details" [] []
               = Ok (" for details" : str, []))
    by (vm_compute; reflexivity).
  rewrite E1 in Hpre. rewrite E2 in Hpost.
  injection Hpre as <-. injection Hpost as <-.
  exact Hall.
Defined.

(** C5, as stated, fails: a marker of 4301 digits, in a section with no
    reference, has no entry in the local-to-global map, and the call
    raises the [ValueError] of [int()] instead of deleting it. *)
Lemma dangling_long_marker_raises :
  merge [] [] [] = Ok (MergeState [] 0 [])
  /\ (forall n, num_get [] n = None)
  /\ marker_in ("See " ++ long_marker ++ " for details")
       (repeat "5"%char (S int_max_str_digits))
  /\ List.length (repeat "5"%char (S int_max_str_digits)) = 4301%nat
  /\ reformat_references ("See " ++ long_marker ++ " for details") [] []
     = Raise ValueError.
Proof.
  assert (Hd : forallb is_digit (repeat "5"%char (S int_max_str_digits))
               = true) by (vm_compute; reflexivity).
  assert (Hne : repeat "5"%char (S int_max_str_digits) <> [])
    by discriminate.
  split; [reflexivity|]. split; [reflexivity|]. split; [|split].
  - split; [exact Hne|]. split; [exact Hd|].
    exists ("See " : str), (" for details" : str). reflexivity.
  - apply repeat_length.
  - unfold reformat_references. cbn [convert_ref_list_to_map convert_loop bind].
    change (merge [] [] []) with (Ok (MergeState [] 0 [])). cbn [bind].
    change ("See " ++ long_marker ++ " for details")
      with (("See " : str)
            ++ "["%char :: repeat "5"%char (S int_max_str_digits)
            ++ "]"%char :: (" for details" : str)).
    rewrite ReFacts.sub_markers_app by assumption.
    assert (E : replace_reference [] (repeat "5"%char (S int_max_str_digits))
                = Raise ValueError).
    { unfold replace_reference.
      rewrite py_int_digits_long; [reflexivity|exact Hd|].
      rewrite repeat_length. lia. }
    assert (E0 : Re.sub_markers (replace_reference []) "See "
                 = Ok ("See " : str)) by (vm_compute; reflexivity).
    cbn [section_to_report_ref_map]. rewrite E, E0. reflexivity.
Qed.

(** C4 — Malformed entries.  An entry with no closing bracket whose text
    reads as an integer, such as ["[1"], passes [int()] and fails at the
    index [[1]] of the split: the exception is an [IndexError], which the
    [except ValueError] clause does not catch, and the whole call raises
    it.  An entry whose number cannot be read is skipped. *)
Theorem malformed_entry_raises :
  parse_ref "[1" = Raise IndexError
  /\ convert_ref_list_to_map (strs ["[1] a.com"; "[1"]) = Raise IndexError
  /\ reformat_references "text [1]" (strs ["[1] a.com"; "[1"]) []
     = Raise IndexError
  /\ reformat_references "text [1]" (strs ["[1] a.com"; "no number"]) []
     = Ok ("text [1]" : str, strs ["[1] a.com"]).
Proof. repeat split; vm_compute; reflexivity. Qed.

(** *** Two entries for one locator *)

Lemma convert_loop_app a : forall m b,
  convert_loop m (a ++ b) = m' <- convert_loop m a ;; convert_loop m' b.
Proof.
  induction a as [|e a IH]; intros m b; simpl; [reflexivity|].
  destruct (parse_ref e) as [[url k]|[]]; try reflexivity; apply IH.
Qed.

Lemma convert_loop_keeps r : forall m ms L,
  convert_loop m r = Ok ms ->
  (forall e n, In e r -> parse_ref e <> Ok (L, n)) ->
  url_get ms L = url_get m L.
Proof.
  induction r as [|e r IH]; intros m ms L H Hno; simpl in H.
  - injection H as <-. reflexivity.
  - assert (Hr : forall e' n, In e' r -> parse_ref e' <> Ok (L, n))
      by (intros e' n I; apply Hno; right; exact I).
    destruct (parse_ref e) as [[url k]|[]] eqn:Ep; try discriminate.
    + rewrite (IH _ _ _ H Hr). unfold url_get, url_set.
      apply get_set_other. intros ->.
      apply (Hno e k); [left; reflexivity|exact Ep].
    + apply (IH _ _ _ H Hr).
Qed.

(** [convert_ref_list_to_map] keeps the last number of a locator. *)
Lemma convert_last_wins a e r L n ms :
  convert_ref_list_to_map (a ++ e :: r) = Ok ms ->
  parse_ref e = Ok (L, n) ->
  (forall e' n', In e' r -> parse_ref e' <> Ok (L, n')) ->
  url_get ms L = Some n.
Proof.
  unfold convert_ref_list_to_map. rewrite convert_loop_app.
  destruct (convert_loop [] a) as [m|]; [|discriminate].
  simpl. intros H Ep Hno. rewrite Ep in H.
  rewrite (convert_loop_keeps _ _ H Hno).
  unfold url_get, url_set. apply get_set_same.
Qed.

Lemma no_locator_no_value (ms : ref_map) n :
  NoDup (keys ms) ->
  (forall L, url_get ms L <> Some n) -> ~ In n (values ms).
Proof.
  intros Hk Hno Hin. unfold values in Hin. apply in_map_iff in Hin.
  destruct Hin as [[L k] [E I]]. simpl in E. subst k.
  apply (Hno L). unfold url_get. apply In_get_Some; assumption.
Qed.

(** C9, as amended — When a locator has two entries in the list of a
    section, under two different numbers, the map of the section keeps
    the number of the last entry; in the section that a call returns, a
    marker carrying the earlier number is replaced by the empty text
    provided that no locator of the section is left with that number. *)
Theorem duplicate_locator_earlier_number_deleted
    (r1 r2 r3 : list str) (e1 e2 : str) (L : str) (n1 n2 : Z)
    (G : list str) (ms : ref_map) (pre d post body' : str)
    (G' : list str) :
  parse_ref e1 = Ok (L, n1) ->
  parse_ref e2 = Ok (L, n2) ->
  n1 <> n2 ->
  (forall e n, In e r3 -> parse_ref e <> Ok (L, n)) ->
  convert_ref_list_to_map (r1 ++ e1 :: r2 ++ e2 :: r3) = Ok ms ->
  (forall L', url_get ms L' <> Some n1) ->
  d <> [] -> forallb is_digit d = true -> py_int d = Ok n1 ->
  reformat_references (pre ++ "[" ++ d ++ "]" ++ post)
    (r1 ++ e1 :: r2 ++ e2 :: r3) G
  = Ok (body', G') ->
  url_get ms L = Some n2
  /\ exists pre' post',
       reformat_references pre (r1 ++ e1 :: r2 ++ e2 :: r3) G
       = Ok (pre', G')
       /\ reformat_references post (r1 ++ e1 :: r2 ++ e2 :: r3) G
          = Ok (post', G')
       /\ body' = pre' ++ post'.
Proof.
  intros Hp1 Hp2 Hne Hlast Hs Hfree Hd1 Hd2 Hd3 Hcall. split.
  - apply (@convert_last_wins (r1 ++ e1 :: r2) e2 r3 L n2 ms);
      [|exact Hp2|exact Hlast].
    rewrite <- app_assoc. exact Hs.
  - destruct (reformat_references_Ok _ _ _ Hcall)
      as [ms' [mr [st [Hs' [Hr [Hm _]]]]]].
    assert (ms' = ms) by congruence. subst ms'.
    apply (@reformat_references_unmapped pre d post _ G ms mr st n1
             body' G' Hs Hr Hm Hd1 Hd2 Hd3); [|exact Hcall].
    destruct (merge_Ok _ _ _ Hm) as [-> _].
    unfold merged. rewrite merge_fold_absent; [reflexivity|].
    apply no_locator_no_value; [|exact Hfree].
    apply (convert_keys _ Hs).
Qed.

Lemma duplicate_locator_earlier_number_deleted_witness :
  parse_ref "[1] a.com" = Ok ("a.com" : str, 1%Z)
  /\ parse_ref "[2] a.com" = Ok ("a.com" : str, 2%Z)
  /\ reformat_references "Old [1], new [2]"
       (strs ["[1] a.com"; "[2] a.com"]) []
     = Ok ("Old , new [1]" : str, strs ["[1] a.com"])
  /\ url_get [("a.com" : str, 2%Z)] "a.com" = Some 2%Z
  /\ exists pre' post',
       reformat_references "Old " (strs ["[1] a.com"; "[2] a.com"]) []
       = Ok (pre', strs ["[1] a.com"])
       /\ reformat_references ", new [2]"
            (strs ["[1] a.com"; "[2] a.com"]) []
          = Ok (post', strs ["[1] a.com"])
       /\ ("Old , new [1]" : str) = pre' ++ post'.
Proof.
  assert (Hcall : reformat_references "Old [1], new [2]"
                    (strs ["[1] a.com"; "[2] a.com"]) []
                  = Ok ("Old , new [1]" : str, strs ["[1] a.com"]))
    by (vm_compute; reflexivity).
  split; [vm_compute; reflexivity|]. split; [vm_compute; reflexivity|].
  split; [exact Hcall|].
  apply (@duplicate_locator_earlier_number_deleted
           [] [] [] "[1] a.com" "[2] a.com" "a.com" 1%Z 2%Z []
           [("a.com" : str, 2%Z)] "Old " "1" ", new [2]"
           "Old , new [1]" (strs ["[1] a.com"])).
  - vm_compute. reflexivity.
  - vm_compute. reflexivity.
  - discriminate.
  - intros e n [].
  - vm_compute. reflexivity.
  - intros L' H. unfold url_get in H. cbn [get] in H.
    destruct (str_eq_dec L' "a.com"); discriminate H.
  - discriminate.
  - reflexivity.
  - vm_compute. reflexivity.
  - exact Hcall.
Defined.

(** C9, as stated, fails: the locator [a] stands under the numbers 1 and
    2, the locator [b] under the number 1 again, and the marker [[1]] is
    rewritten to the number of [b] instead of being deleted. *)
Lemma duplicate_locator_earlier_number_kept :
  parse_ref "[1] a" = Ok ("a" : str, 1%Z)
  /\ parse_ref "[2] a" = Ok ("a" : str, 2%Z)
  /\ convert_ref_list_to_map (strs ["[1] a"; "[2] a"; "[1] b"])
     = Ok [("a" : str, 2%Z); ("b" : str, 1%Z)]
  /\ reformat_references "[1]" (strs ["[1] a"; "[2] a"; "[1] b"]) []
     = Ok ("[2]" : str, strs ["[1] a"; "[2] b"])
  /\ reformat_references "[1]" (strs ["[1] a"; "[2] a"; "[1] b"]) []
     <> Ok ([], strs ["[1] a"; "[2] b"]).
Proof.
  repeat split; try (vm_compute; reflexivity).
  vm_compute. discriminate.
Qed.

(** *** One locator in two sections *)

(** One call on a list of the program's own making, for a locator whose
    local number no other locator of the section shares: in the section
    that the call returns, the markers with that number are rewritten to
    the number of the locator in the list that the call leaves. *)
Lemma call_maps_locator us refs ms L n body body' G' :
  NoDup us -> Forall (stripped is_space) us ->
  (Z.of_nat (List.length us) < int_limit)%Z ->
  convert_ref_list_to_map refs = Ok ms ->
  url_get ms L = Some n ->
  (forall L', url_get ms L' = Some n -> L' = L) ->
  reformat_references body refs (numbered 1 us) = Ok (body', G') ->
  exists g,
    url_get (entries 1 (us ++ new_urls (entries 1 us) ms)) L = Some g
    /\ NoDup (us ++ new_urls (entries 1 us) ms)
    /\ Forall (stripped is_space) (us ++ new_urls (entries 1 us) ms)
    /\ (Z.of_nat (List.length (us ++ new_urls (entries 1 us) ms))
        < int_limit)%Z
    /\ G' = numbered 1 (us ++ new_urls (entries 1 us) ms)
    /\ forall pre d post,
         body = pre ++ "[" ++ d ++ "]" ++ post ->
         d <> [] -> forallb is_digit d = true -> py_int d = Ok n ->
         exists pre' post',
           reformat_references pre refs (numbered 1 us) = Ok (pre', G')
           /\ reformat_references post refs (numbered 1 us) = Ok (post', G')
           /\ body' = pre' ++ "[" ++ render_int g ++ "]" ++ post'.
Proof.
  intros Hnd Hst Hlim Hs HL Huniq Hcall.
  destruct (call_numbered _ _ Hnd Hst Hlim Hcall)
    as [ms' [Hs' [Hmerge [HG' [Hn [Hstall Hlimall]]]]]].
  assert (ms' = ms) by congruence. subst ms'.
  destruct (convert_keys _ Hs) as [Hk Hks].
  destruct (@merge_numbered us ms Hnd Hk) as [_ [_ Hm]].
  set (all := us ++ new_urls (entries 1 us) ms) in *.
  assert (HLin : In (L, n) ms) by (apply (get_Some_In _ _ _ HL)).
  assert (Hmap :
    num_get (section_to_report_ref_map
               (merged (entries 1 us) ms (numbered 1 us))) n
    = url_get (entries 1 all) L).
  { apply Hm; [exact HLin|]. intros L' I. apply Huniq.
    unfold url_get. apply In_get_Some; assumption. }
  assert (Hall : In L all).
  { unfold all. rewrite in_app_iff.
    destruct (url_get (entries 1 us) L) as [g0|] eqn:E.
    - left. destruct (in_dec str_eq_dec L us) as [I|I]; [exact I|].
      apply (url_get_entries_None 1) in I. congruence.
    - right. unfold new_urls. apply filter_In. split.
      + change L with (fst (L, n)). apply in_map, HLin.
      + unfold is_new. rewrite E. reflexivity. }
  destruct (url_get (entries 1 all) L) as [g|] eqn:Eg.
  2:{ apply url_get_entries_None in Eg. contradiction. }
  exists g. split; [reflexivity|]. split; [exact Hn|].
  split; [exact Hstall|]. split; [exact Hlimall|]. split; [exact HG'|].
  intros pre d post -> Hne Hd Hint.
  destruct (reformat_references_marker _ _ _ _ Hne Hd Hcall)
    as [ms' [mr' [st' [pre' [x [post' [Hs2 [Hr' [Hm' [_ [Hpre [Hpost
         [Hx ->]]]]]]]]]]]]].
  assert (ms' = ms) by congruence. subst ms'.
  rewrite (convert_numbered Hst Hnd Hlim) in Hr'. injection Hr' as <-.
  rewrite Hmerge in Hm'. injection Hm' as <-.
  unfold replace_reference in Hx. rewrite Hint in Hx. simpl in Hx.
  rewrite Hmap in Hx.
  destruct (url_get_entries_nth _ _ _ Eg) as [Hg _].
  replace (g =? 0)%Z with false in Hx by (symmetry; apply Z.eqb_neq; lia).
  rewrite py_str_Ok in Hx by lia. simpl in Hx. injection Hx as <-.
  exists pre', post'. split; [exact Hpre|]. split; [exact Hpost|].
  simpl. rewrite <- app_assoc. reflexivity.
Qed.

(** C2 — Locator dedup.  Two sections that list the locator [L] are
    consolidated one after the other, on a list built by the program;
    [L] has the local number [n1] in the first and [n2] in the second,
    each being the number of [L] alone in its section.  Then there is one
    number [g] such that every marker with the number [n1] in the first
    section and every marker with the number [n2] in the second is
    rewritten to [[g]] in the section that its call returns, and the list
    left by the two calls has exactly one entry for [L], the one numbered
    [g]. *)
Theorem locator_dedup (G : list str) (L : str) (refs1 refs2 : list str)
    (ms1 ms2 : ref_map) (n1 n2 : Z)
    (body1 body1' body2 body2' : str) (G1 G2 : list str) :
  consolidated G ->
  convert_ref_list_to_map refs1 = Ok ms1 ->
  url_get ms1 L = Some n1 ->
  (forall L', url_get ms1 L' = Some n1 -> L' = L) ->
  convert_ref_list_to_map refs2 = Ok ms2 ->
  url_get ms2 L = Some n2 ->
  (forall L', url_get ms2 L' = Some n2 -> L' = L) ->
  reformat_references body1 refs1 G = Ok (body1', G1) ->
  reformat_references body2 refs2 G1 = Ok (body2', G2) ->
  exists (g : Z) (us : list str),
    (1 <= g)%Z
    /\ (forall pre d post,
         body1 = pre ++ "[" ++ d ++ "]" ++ post ->
         d <> [] -> forallb is_digit d = true -> py_int d = Ok n1 ->
         exists pre' post',
           reformat_references pre refs1 G = Ok (pre', G1)
           /\ reformat_references post refs1 G = Ok (post', G1)
           /\ body1' = pre' ++ "[" ++ render_int g ++ "]" ++ post')
    /\ (forall pre d post,
         body2 = pre ++ "[" ++ d ++ "]" ++ post ->
         d <> [] -> forallb is_digit d = true -> py_int d = Ok n2 ->
         exists pre' post',
           reformat_references pre refs2 G1 = Ok (pre', G2)
           /\ reformat_references post refs2 G1 = Ok (post', G2)
           /\ body2' = pre' ++ "[" ++ render_int g ++ "]" ++ post')
    /\ G2 = numbered 1 us
    /\ NoDup us
    /\ nth_error us (Z.to_nat (g - 1)) = Some L
    /\ count_occ str_eq_dec us L = 1%nat.
Proof.
  intros HG Hs1 HL1 Hu1 Hs2 HL2 Hu2 Hcall1 Hcall2.
  destruct (consolidated_numbered HG) as [us0 [Hnd0 [Hst0 [Hlim0 ->]]]].
  destruct (@call_maps_locator us0 refs1 ms1 L n1 body1 body1' G1
              Hnd0 Hst0 Hlim0 Hs1 HL1 Hu1 Hcall1)
    as [g [Hg [Hnd1 [Hst1 [Hlim1 [HG1 Hmark1]]]]]].
  set (us1 := us0 ++ new_urls (entries 1 us0) ms1) in *.
  subst G1.
  destruct (@call_maps_locator us1 refs2 ms2 L n2 body2 body2' G2
              Hnd1 Hst1 Hlim1 Hs2 HL2 Hu2 Hcall2)
    as [g' [Hg' [Hnd2 [_ [_ [HG2 Hmark2]]]]]].
  set (us2 := us1 ++ new_urls (entries 1 us1) ms2) in *.
  assert (g' = g).
  { unfold us2 in Hg'. rewrite url_get_entries_app, Hg in Hg'. congruence. }
  subst g'.
  destruct (url_get_entries_nth _ _ _ Hg') as [Hrange Hnth].
  exists g, us2.
  split; [lia|]. split; [exact Hmark1|]. split; [exact Hmark2|].
  split; [exact HG2|]. split; [exact Hnd2|]. split; [exact Hnth|].
  apply NoDup_count_occ'; [exact Hnd2|]. eapply nth_error_In, Hnth.
Qed.

Lemma locator_dedup_witness :
  consolidated []
  /\ convert_ref_list_to_map (strs ["[1] b.com"; "[3] a.com"])
     = Ok [("b.com" : str, 1%Z); ("a.com" : str, 3%Z)]
  /\ convert_ref_list_to_map (strs ["[1] a.com"])
     = Ok [("a.com" : str, 1%Z)]
  /\ reformat_references "One [3], [1] and [3]"
       (strs ["[1] b.com"; "[3] a.com"]) []
     = Ok ("One [2], [1] and [2]" : str, strs ["[1] b.com"; "[2] a.com"])
  /\ reformat_references "Two [1]" (strs ["[1] a.com"])
       (strs ["[1] b.com"; "[2] a.com"])
     = Ok ("Two [2]" : str, strs ["[1] b.com"; "[2] a.com"])
  /\ exists (g : Z) (us : list str),
       (1 <= g)%Z
       /\ (forall pre d post,
            ("One [3], [1] and [3]" : str) = pre ++ "[" ++ d ++ "]" ++ post ->
            d <> [] -> forallb is_digit d = true -> py_int d = Ok 3%Z ->
            exists pre' post',
              reformat_references pre (strs ["[1] b.com"; "[3] a.com"]) []
              = Ok (pre', strs ["[1] b.com"; "[2] a.com"])
              /\ reformat_references post
                   (strs ["[1] b.com"; "[3] a.com"]) []
                 = Ok (post', strs ["[1] b.com"; "[2] a.com"])
              /\ ("One [2], [1] and [2]" : str)
                 = pre' ++ "[" ++ render_int g ++ "]" ++ post')
       /\ (forall pre d post,
            ("Two [1]" : str) = pre ++ "[" ++ d ++ "]" ++ post ->
            d <> [] -> forallb is_digit d = true -> py_int d = Ok 1%Z ->
            exists pre' post',
              reformat_references pre (strs ["[1] a.com"])
                (strs ["[1] b.com"; "[2] a.com"])
              = Ok (pre', strs ["[1] b.com"; "[2] a.com"])
              /\ reformat_references post (strs ["[1] a.com"])
                   (strs ["[1] b.com"; "[2] a.com"])
                 = Ok (post', strs ["[1] b.com"; "[2] a.com"])
              /\ ("Two [2]" : str)
                 = pre' ++ "[" ++ render_int g ++ "]" ++ post')
       /\ strs ["[1] b.com"; "[2] a.com"] = numbered 1 us
       /\ NoDup us
       /\ nth_error us (Z.to_nat (g - 1)) = Some ("a.com" : str)
       /\ count_occ str_eq_dec us "a.com" = 1%nat.
Proof.
  assert (H1 : reformat_references "One [3], [1] and [3]"
                 (strs ["[1] b.com"; "[3] a.com"]) []
               = Ok ("One [2], [1] and [2]" : str,
                     strs ["[1] b.com"; "[2] a.com"]))
    by (vm_compute; reflexivity).
  assert (H2 : reformat_references "Two [1]" (strs ["[1] a.com"])
                 (strs ["[1] b.com"; "[2] a.com"])
               = Ok ("Two [2]" : str, strs ["[1] b.com"; "[2] a.com"]))
    by (vm_compute; reflexivity).
  split; [apply consolidated_nil|].
  split; [vm_compute; reflexivity|]. split; [vm_compute; reflexivity|].
  split; [exact H1|]. split; [exact H2|].
  apply (@locator_dedup [] "a.com"
           (strs ["[1] b.com"; "[3] a.com"]) (strs ["[1] a.com"])
           [("b.com" : str, 1%Z); ("a.com" : str, 3%Z)]
           [("a.com" : str, 1%Z)] 3%Z 1%Z
           "One [3], [1] and [3]" "One [2], [1] and [2]"
           "Two [1]" "Two [2]"
           (strs ["[1] b.com"; "[2] a.com"])
           (strs ["[1] b.com"; "[2] a.com"])).
  - apply consolidated_nil.
  - vm_compute. reflexivity.
  - vm_compute. reflexivity.
  - intros L' H. unfold url_get in H. cbn [get] in H.
    destruct (str_eq_dec L' "b.com"); [discriminate H|].
    destruct (str_eq_dec L' "a.com"); [assumption|discriminate H].
  - vm_compute. reflexivity.
  - vm_compute. reflexivity.
  - intros L' H. unfold url_get in H. cbn [get] in H.
    destruct (str_eq_dec L' "a.com"); [assumption|discriminate H].
  - exact H1.
  - exact H2.
Defined.

End Consolidation.

(** ** The batch of tasks: the claim *)

Module Batch.

Import ToolSelector GapLoop.

(** C8 — Batch cap.  Of the tasks of a plan, the first three at most are
    dispatched: the batch is the plan cut after its third task, so a plan
    of seven tasks gives a batch of three. *)
Theorem batch_cap_enforced (plan : AgentSelectionPlan) :
  List.length (dispatch_batch plan)
  = Nat.min 3 (List.length (tasks plan))
  /\ (List.length (dispatch_batch plan) <= 3)%nat
  /\ tasks plan = dispatch_batch plan ++ skipn 3 (tasks plan).
Proof.
  unfold dispatch_batch, batch_cap. split; [apply length_firstn|].
  split; [rewrite length_firstn; lia|].
  symmetry. apply firstn_skipn.
Qed.

End Batch.

(** ** The layout of the report: the claim *)

Module ReportLayout.

Import PyStr PyStrFacts References ReferencesFacts Headings Report.
Import Statements.

Section Layout.

Variable ResearchAgent : Type.
Variable write_next_section :
  ResearchAgent -> str -> str -> str -> str -> result LongWriterOutput.
Variable long_writer_agent : ResearchAgent.
Variable original_query : str.

Local Abbreviation write_sections :=
  (write_sections write_next_section long_writer_agent original_query).

(** The loop appends one body and a blank line per section, and keeps
    the list of all references among those the program builds. *)
Lemma write_sections_layout l : forall final_draft G final_draft' G',
  consolidated G ->
  write_sections l final_draft G = Ok (final_draft', G') ->
  exists bodies,
    List.length bodies = List.length l
    /\ final_draft'
       = final_draft ++ List.concat (map (fun b => b ++ nl2) bodies)
    /\ consolidated G'.
Proof.
  induction l as [|section r IH]; intros fd G fd' G' HG H; simpl in H.
  - injection H as <- <-. exists []. simpl. rewrite app_nil_r. auto.
  - destruct (write_next_section _ _ _ _ _) as [out|]; [|discriminate].
    simpl in H.
    destruct (reformat_references _ _ G) as [[sm G1]|] eqn:Ec;
      [|discriminate].
    simpl in H.
    apply IH in H; [|eapply consolidated_call; eassumption].
    destruct H as [bodies [Hlen [-> HG']]].
    exists (reformat_section_headings sm :: bodies).
    split; [simpl; congruence|]. split; [|exact HG'].
    simpl. rewrite <- !app_assoc. reflexivity.
Qed.

(** The table of contents, when it is rendered, has the lines
    [i. <title>]. *)
Lemma toc_entries_Ok l : forall k toc,
  toc_entries k l = Ok toc -> toc = toc_lines k l.
Proof.
  induction l as [|section r IH]; intros k toc H; simpl in H.
  - injection H as <-. reflexivity.
  - destruct (py_str (Z.of_nat k + 1)) as [number|] eqn:En; [|discriminate].
    simpl in H.
    destruct (toc_entries (S k) r) as [rest|] eqn:Er; [|discriminate].
    simpl in H. injection H as <-.
    destruct (py_str_inv _ En) as [-> _].
    rewrite (IH _ _ Er). reflexivity.
Qed.

Lemma toc_lines_length l : forall k,
  List.length (toc_lines k l) = List.length l.
Proof.
  induction l as [|section r IH]; intros k; simpl; [reflexivity|].
  f_equal. apply IH.
Qed.

Lemma toc_lines_nth l : forall k i section,
  nth_error l i = Some section ->
  nth_error (toc_lines k l) i
  = Some (render_int (Z.of_nat (k + i) + 1) ++ ". "
          ++ section_title section).
Proof.
  induction l as [|s r IH]; intros k i section H.
  - destruct i; discriminate H.
  - destruct i as [|i]; simpl in H |- *.
    + injection H as <-. rewrite Nat.add_0_r. reflexivity.
    + rewrite (IH (S k) i section H).
      replace (S k + i)%nat with (k + S i)%nat by lia. reflexivity.
Qed.

(** C7, as amended — The document that [write_report] returns is the
    line [# <title>], a blank line, the heading [## Table of Contents], a
    blank line, one entry [i. <section title>] per planned section in
    order, numbered from 1 and one per line, a blank line, then each
    section body followed by a blank line, and last a block whose heading
    line is [## References:], with the colon, followed by a blank line
    and the entries [[n] locator] for n = 1, 2, ... in ascending order,
    each separated from the next by two spaces and a line feed. *)
Theorem report_layout (report_title : str) (report_draft : ReportDraft)
    (doc : str) :
  write_report write_next_section long_writer_agent original_query
    report_title report_draft = Ok doc ->
  exists toc bodies us,
    toc_entries 0 (sections report_draft) = Ok toc
    /\ List.length toc = List.length (sections report_draft)
    /\ (forall i section,
         nth_error (sections report_draft) i = Some section ->
         nth_error toc i
         = Some (render_int (Z.of_nat i + 1) ++ ". "
                 ++ section_title section))
    /\ List.length bodies = List.length (sections report_draft)
    /\ NoDup us
    /\ doc
       = "# " ++ report_title ++ nl2 ++ "## Table of Contents" ++ nl2
         ++ join nl toc ++ nl2
         ++ List.concat (map (fun b => b ++ nl2) bodies)
         ++ "## References:" ++ nl2
         ++ join ("  " ++ nl) (numbered 1 us).
Proof.
  intros H. unfold write_report in H.
  destruct (toc_entries 0 (sections report_draft)) as [toc|] eqn:Et;
    [|discriminate].
  cbn [bind] in H. cbv zeta in H.
  destruct (Report.write_sections _ _ _ _ _ _) as [[fd G]|] eqn:Ew;
    [|discriminate].
  simpl in H. injection H as <-.
  destruct (write_sections_layout _ _ consolidated_nil Ew)
    as [bodies [Hlen [-> HG]]].
  destruct (consolidated_numbered HG) as [us [Hnd [_ [_ ->]]]].
  pose proof (toc_entries_Ok _ _ Et) as Etoc.
  exists toc, bodies, us. split; [reflexivity|].
  split; [rewrite Etoc; apply toc_lines_length|]. split.
  - intros i section Hi. rewrite Etoc. apply (toc_lines_nth _ 0 i Hi).
  - split; [exact Hlen|]. split; [exact Hnd|].
    rewrite <- !app_assoc. reflexivity.
Qed.

End Layout.

Lemma report_layout_witness :
  write_report sample_writer tt "query" "T" sample_draft = Ok sample_report
  /\ exists toc bodies us,
       toc_entries 0 (sections sample_draft) = Ok toc
       /\ List.length toc = List.length (sections sample_draft)
       /\ (forall i section,
            nth_error (sections sample_draft) i = Some section ->
            nth_error toc i
            = Some (render_int (Z.of_nat i + 1) ++ ". "
                    ++ section_title section))
       /\ List.length bodies = List.length (sections sample_draft)
       /\ NoDup us
       /\ sample_report
          = "# " ++ "T" ++ nl2 ++ "## Table of Contents" ++ nl2
            ++ join nl toc ++ nl2
            ++ List.concat (map (fun b => b ++ nl2) bodies)
            ++ "## References:" ++ nl2
            ++ join ("  " ++ nl) (numbered 1 us).
Proof.
  assert (H : write_report sample_writer tt "query" "T" sample_draft
              = Ok sample_report) by (vm_compute; reflexivity).
  split; [exact H|].
  exact (@report_layout unit sample_writer tt "query" "T" sample_draft
           sample_report H).
Defined.

(** C7, as stated, fails: the heading line of the last block of the
    document is [## References:], and no line of the document is
    [## References]. *)
Lemma references_heading_has_colon :
  write_report sample_writer tt "query" "T" sample_draft = Ok sample_report
  /\ In ("## References:" : str) (lines sample_report)
  /\ ~ In ("## References" : str) (lines sample_report).
Proof.
  split; [vm_compute; reflexivity|]. split.
  - vm_compute. tauto.
  - intros H. vm_compute in H.
    repeat (destruct H as [H|H]; [discriminate H|]). exact H.
Qed.

End ReportLayout.

(** ** Facts about heading rebasing *)

Module HeadingsFacts.

Import PyStr PyStrFacts Headings Statements.

Lemma sub_headings_cons adj bol c t :
  sub_headings adj bol (c :: t)
  = match (if bol then match_heading (c :: t) else None) with
    | Some (hashes, content) =>
        adjust_heading_level adj hashes content
        ++ sub_headings adj false
             (skipn (List.length hashes + List.length content) t)
    | None => c :: sub_headings adj (Ascii.eqb c newline) t
    end.
Proof.
  simp sub_headings.
  destruct (if bol then match_heading (c :: t) else None) as [[h k]|];
    reflexivity.
Qed.

(** The rewriting pattern matches only where the detection pattern
    does. *)
Lemma match_heading_start_None s :
  match_heading_start s = None -> match_heading s = None.
Proof.
  unfold match_heading_start, match_heading.
  destruct (span (is_char "#") s) as [[|a h] [|c r]]; try reflexivity.
  destruct (is_space c); [discriminate|reflexivity].
Qed.

(** On a text that ends with a line feed, the detection pattern does not
    look past the end. *)
Lemma match_heading_start_app s x :
  s <> [] -> last s newline = newline ->
  match_heading_start (s ++ x) = match_heading_start s.
Proof.
  intros Hne Hl.
  destruct (exists_last Hne) as [p [c E]]. subst s.
  rewrite last_last in Hl. subst c.
  rewrite <- app_assoc. simpl.
  unfold match_heading_start.
  rewrite !span_app_stop by reflexivity.
  destruct (span (is_char "#") p) as [h [|c r]]; reflexivity.
Qed.

Lemma search_heading_cons bol c t :
  search_heading bol (c :: t)
  = match (if bol then match_heading_start (c :: t) else None) with
    | Some hashes => Some hashes
    | None => search_heading (Ascii.eqb c newline) t
    end.
Proof. reflexivity. Qed.

Lemma last_cons_newline c t :
  last (c :: t) newline = newline ->
  last t newline = newline /\ (t = [] -> Ascii.eqb c newline = true).
Proof.
  destruct t as [|b t]; simpl.
  - intros ->. split; reflexivity.
  - intros H. split; [exact H|discriminate].
Qed.

(** Lines in which the detection pattern finds nothing are passed over
    by the search... *)
Lemma search_heading_app pre : forall bol x,
  last pre newline = newline -> (pre = [] -> bol = true) ->
  search_heading bol pre = None ->
  search_heading bol (pre ++ x) = search_heading true x.
Proof.
  induction pre as [|c t IH]; intros bol x Hl Hb Hs.
  - rewrite (Hb eq_refl). reflexivity.
  - destruct (last_cons_newline _ _ Hl) as [Hl' Hc].
    rewrite search_heading_cons in Hs.
    change ((c :: t) ++ x) with (c :: (t ++ x)).
    rewrite search_heading_cons.
    change (c :: (t ++ x)) with ((c :: t) ++ x).
    assert (Hm : (if bol then match_heading_start ((c :: t) ++ x) else None)
                 = (if bol then match_heading_start (c :: t) else None)).
    { destruct bol; [|reflexivity].
      apply match_heading_start_app; [discriminate|exact Hl]. }
    rewrite Hm.
    destruct (if bol then match_heading_start (c :: t) else None);
      [discriminate|].
    apply IH; assumption.
Qed.

(** ... and copied by the substitution. *)
Lemma sub_headings_app adj pre : forall bol x,
  last pre newline = newline -> (pre = [] -> bol = true) ->
  search_heading bol pre = None ->
  sub_headings adj bol (pre ++ x) = pre ++ sub_headings adj true x.
Proof.
  induction pre as [|c t IH]; intros bol x Hl Hb Hs.
  - rewrite (Hb eq_refl). reflexivity.
  - destruct (last_cons_newline _ _ Hl) as [Hl' Hc].
    rewrite search_heading_cons in Hs.
    change ((c :: t) ++ x) with (c :: (t ++ x)).
    rewrite sub_headings_cons.
    change (c :: (t ++ x)) with ((c :: t) ++ x).
    assert (Hm : (if bol then match_heading ((c :: t) ++ x) else None)
                 = None).
    { destruct bol; [|reflexivity].
      apply match_heading_start_None.
      rewrite match_heading_start_app; [|discriminate|exact Hl].
      destruct (match_heading_start (c :: t)); [discriminate|reflexivity]. }
    rewrite Hm.
    destruct (if bol then match_heading_start (c :: t) else None);
      [discriminate|].
    simpl. f_equal. apply IH; assumption.
Qed.

(** Within a line, away from its start, the substitution copies. *)
Lemma sub_headings_rest_of_line adj s : forall x,
  forallb (not_char newline) s = true ->
  sub_headings adj false (s ++ x)
  = s ++ match x with
         | [] => []
         | c :: r => c :: sub_headings adj (Ascii.eqb c newline) r
         end.
Proof.
  induction s as [|a s IH]; intros x H.
  - destruct x as [|c r]; [reflexivity|].
    simpl. rewrite sub_headings_cons. reflexivity.
  - simpl in H. apply andb_true_iff in H. destruct H as [Ha Hs].
    simpl. rewrite sub_headings_cons. simpl.
    unfold not_char in Ha. apply negb_true_iff in Ha. rewrite Ha.
    f_equal. apply IH, Hs.
Qed.

Lemma drop_while_nil p s : drop_while p s = [] -> forallb p s = true.
Proof.
  unfold drop_while. induction s as [|c s IH]; simpl; [reflexivity|].
  destruct (p c) eqn:E; [|discriminate].
  destruct (span p s). simpl in *. exact IH.
Qed.

(** A text with a character that is no blank does not strip to the
    empty text. *)
Lemma strip_nonblank s c :
  In c s -> is_space c = false -> strip s <> [].
Proof.
  intros Hin Hc E. unfold strip, strip_chars in E.
  apply (f_equal (@List.rev ascii)) in E. rewrite rev_involutive in E.
  simpl in E. apply drop_while_nil in E.
  assert (Ha : forallb is_space (drop_while is_space s) = true).
  { rewrite forallb_forall in *. intros a Ia. apply E, in_rev.
    rewrite rev_involutive. exact Ia. }
  assert (Hd : drop_while is_space s = []).
  { destruct (drop_while is_space s) as [|a r] eqn:Ed; [reflexivity|].
    pose proof (span_snd_head is_space s Ed) as Hn.
    simpl in Ha. rewrite Hn in Ha. discriminate. }
  apply drop_while_nil in Hd. rewrite forallb_forall in Hd.
  rewrite (Hd c Hin) in Hc. discriminate.
Qed.

Lemma repeat_hash_all k : forallb (is_char "#") (repeat "#"%char k) = true.
Proof. induction k; simpl; auto. Qed.

Lemma repeat_hash_line k :
  forallb (not_char newline) (repeat "#"%char k) = true.
Proof. induction k; simpl; auto. Qed.

(** *** Sections made of regular lines *)

Lemma all_hashes_repeat h :
  forallb (is_char "#") h = true -> h = repeat "#"%char (List.length h).
Proof.
  induction h as [|a h IH]; simpl; [reflexivity|].
  intros H. apply andb_true_iff in H. destruct H as [Ha Hh].
  unfold is_char in Ha. apply Ascii.eqb_eq in Ha. subst a.
  f_equal. apply IH, Hh.
Qed.

Lemma span_line p l x :
  forallb (not_char newline) l = true -> line_end x ->
  p newline = false ->
  span p (l ++ x) = (fst (span p l), snd (span p l) ++ x).
Proof.
  intros Hl Hx Hp. destruct x as [|c r].
  - rewrite !app_nil_r. destruct (span p l); reflexivity.
  - simpl in Hx. subst c. apply span_app_stop, Hp.
Qed.

Lemma span_rest_of_line l x :
  forallb (not_char newline) l = true -> line_end x ->
  span (not_char newline) (l ++ x) = (l, x).
Proof.
  intros Hl Hx. destruct x as [|c r].
  - rewrite app_nil_r. apply span_all, Hl.
  - simpl in Hx. subst c. apply span_all_stop; [exact Hl|reflexivity].
Qed.

Lemma span_no_newline p l :
  forallb (not_char newline) l = true ->
  forallb (not_char newline) (snd (span p l)) = true.
Proof.
  induction l as [|a l IH]; simpl; [reflexivity|].
  intros H. apply andb_true_iff in H. destruct H as [Ha Hl].
  destruct (p a).
  - destruct (span p l). simpl in *. apply IH, Hl.
  - simpl. rewrite Ha. exact Hl.
Qed.

(** On a regular line, in its place in a text, the two patterns agree
    with [heading_of]. *)
Lemma match_heading_line l x :
  forallb (not_char newline) l = true -> regular_line l -> line_end x ->
  match_heading (l ++ x)
  = match heading_of l with
    | Some (k, text) => Some (repeat "#"%char k, text)
    | None => None
    end
  /\ match_heading_start (l ++ x)
     = match heading_of l with
       | Some (k, _) => Some (repeat "#"%char k)
       | None => None
       end.
Proof.
  intros Hl Hr Hx.
  unfold match_heading, match_heading_start, heading_of.
  unfold regular_line in Hr.
  rewrite span_line by (assumption || reflexivity).
  pose proof (span_fst_all (is_char "#") l) as Hh.
  pose proof (span_no_newline (is_char "#") l Hl) as Hn.
  destruct (span (is_char "#") l) as [[|a h] [|c r]]; simpl fst in *;
    simpl snd in *.
  - destruct x; split; reflexivity.
  - split; reflexivity.
  - contradiction.
  - simpl in Hn. apply andb_true_iff in Hn. destruct Hn as [_ Hn].
    change ((c :: r) ++ x) with (c :: (r ++ x)). cbv iota.
    destruct (is_space c) eqn:Ec.
    + destruct r as [|b r]; [congruence|].
      rewrite span_rest_of_line by assumption. cbv iota beta.
      rewrite <- (all_hashes_repeat _ Hh). split; reflexivity.
    + destruct r; split; reflexivity.
Qed.

Lemma heading_of_shape l k text :
  heading_of l = Some (k, text) ->
  exists c, l = repeat "#"%char k ++ c :: text /\ (1 <= k)%nat.
Proof.
  unfold heading_of.
  pose proof (span_fst_all (is_char "#") l) as Hh.
  pose proof (span_app (is_char "#") l) as Hl.
  destruct (span (is_char "#") l) as [[|a h] [|c [|b r]]]; try discriminate.
  destruct (is_space c); [|discriminate].
  intros H. injection H as <- <-. exists c.
  change (fst (a :: h, c :: b :: r)) with (a :: h) in Hh.
  change (fst (a :: h, c :: b :: r) ++ snd (a :: h, c :: b :: r))
    with ((a :: h) ++ c :: b :: r) in Hl.
  split; [|simpl; lia].
  rewrite <- Hl. f_equal. apply all_hashes_repeat, Hh.
Qed.

Lemma skipn_app_exact (A : Type) (a b : list A) n :
  n = List.length a -> skipn n (a ++ b) = b.
Proof.
  intros ->. induction a as [|x a IH]; [reflexivity|]. exact IH.
Qed.

Lemma sub_headings_false_end adj x :
  line_end x ->
  sub_headings adj false x
  = match x with
    | [] => []
    | c :: r => c :: sub_headings adj true r
    end.
Proof.
  destruct x as [|c r]; [reflexivity|]. simpl. intros ->.
  rewrite sub_headings_cons. reflexivity.
Qed.

(** One regular line, in its place in a text. *)
Lemma sub_headings_line adj l x :
  forallb (not_char newline) l = true -> regular_line l -> line_end x ->
  sub_headings adj true (l ++ x)
  = rebase_line adj l
    ++ match x with
       | [] => []
       | c :: r => c :: sub_headings adj true r
       end.
Proof.
  intros Hl Hr Hx.
  destruct (match_heading_line l x Hl Hr Hx) as [Hm _].
  destruct l as [|a t].
  - unfold rebase_line. simpl.
    destruct x as [|c r]; [reflexivity|]. simpl in Hx. subst c.
    rewrite sub_headings_cons.
    change (nl ++ r) with ([] ++ newline :: r) in Hm.
    simpl in Hm |- *. reflexivity.
  - change ((a :: t) ++ x) with (a :: (t ++ x)).
    rewrite sub_headings_cons.
    change (a :: (t ++ x)) with ((a :: t) ++ x).
    rewrite Hm. unfold rebase_line.
    destruct (heading_of (a :: t)) as [[k text]|] eqn:Eh.
    + destruct (heading_of_shape _ Eh) as [c [El Hk]].
      unfold adjust_heading_level. rewrite repeat_length.
      unfold repeat_char. rewrite <- !app_assoc. do 2 f_equal.
      assert (Et : t ++ x = (skipn 1 (repeat "#"%char k) ++ c :: text) ++ x).
      { f_equal. destruct k as [|k]; [lia|].
        simpl in El. injection El as _ ->. reflexivity. }
      rewrite Et, <- app_assoc.
      assert (Ek : (k + List.length text
                    = List.length (skipn 1 (repeat "#"%char k) ++ c :: text))%nat).
      { rewrite length_app, length_skipn, repeat_length. simpl. lia. }
      rewrite <- app_comm_cons, app_comm_cons.
      rewrite (app_assoc (skipn 1 (repeat "#"%char k)) (c :: text) x).
      rewrite (skipn_app_exact _ x Ek).
      f_equal. apply sub_headings_false_end, Hx.
    + simpl in Hl. apply andb_true_iff in Hl. destruct Hl as [Ha Ht].
      unfold not_char in Ha. apply negb_true_iff in Ha. rewrite Ha.
      simpl. f_equal.
      rewrite sub_headings_rest_of_line by exact Ht.
      destruct x as [|c r]; [reflexivity|].
      simpl in Hx. subst c. reflexivity.
Qed.

Lemma join_cons sep l ls :
  join sep (l :: ls)
  = l ++ match ls with
         | [] => []
         | _ :: _ => sep ++ join sep ls
         end.
Proof. destruct ls; simpl; [rewrite app_nil_r|]; reflexivity. Qed.

(** The substitution on a section of regular lines works line by
    line. *)
Lemma sub_headings_lines adj ls :
  Forall (fun l => forallb (not_char newline) l = true) ls ->
  Forall regular_line ls ->
  sub_headings adj true (join nl ls) = join nl (map (rebase_line adj) ls).
Proof.
  induction ls as [|l ls IH]; intros Hn Hr; [reflexivity|].
  inversion Hn as [|? ? Hl Hn']; subst.
  inversion Hr as [|? ? Hrl Hr']; subst.
  simpl map. rewrite !join_cons.
  rewrite sub_headings_line; [|exact Hl|exact Hrl|destruct ls; exact I || reflexivity].
  f_equal. destruct ls as [|l' ls']; [reflexivity|].
  simpl map. change (nl ++ join nl (l' :: ls'))
    with (newline :: join nl (l' :: ls')).
  cbv iota. rewrite (IH Hn' Hr'). reflexivity.
Qed.

Lemma search_heading_rest_of_line t : forall x,
  forallb (not_char newline) t = true ->
  search_heading false (t ++ x) = search_heading false x.
Proof.
  induction t as [|b u IH]; intros x Ht; [reflexivity|].
  simpl in Ht. apply andb_true_iff in Ht. destruct Ht as [Hb Hu].
  unfold not_char in Hb. apply negb_true_iff in Hb.
  change ((b :: u) ++ x) with (b :: (u ++ x)).
  rewrite search_heading_cons. cbv iota. rewrite Hb. apply IH, Hu.
Qed.

(** One regular line, in its place in a text, under the search. *)
Lemma search_heading_line l x :
  forallb (not_char newline) l = true -> regular_line l -> line_end x ->
  search_heading true (l ++ x)
  = match heading_of l with
    | Some (k, _) => Some (repeat "#"%char k)
    | None => search_heading false x
    end.
Proof.
  intros Hl Hr Hx.
  destruct (match_heading_line l x Hl Hr Hx) as [_ Hm].
  destruct l as [|a t].
  - change (heading_of []) with (@None (nat * str)).
    rewrite app_nil_l.
    destruct x as [|c r]; [reflexivity|].
    simpl in Hx. subst c. rewrite !search_heading_cons. reflexivity.
  - change ((a :: t) ++ x) with (a :: (t ++ x)).
    rewrite search_heading_cons.
    change (a :: (t ++ x)) with ((a :: t) ++ x).
    rewrite Hm.
    destruct (heading_of (a :: t)) as [[k text]|]; [reflexivity|].
    simpl in Hl. apply andb_true_iff in Hl. destruct Hl as [Ha Ht].
    unfold not_char in Ha. apply negb_true_iff in Ha. rewrite Ha.
    apply search_heading_rest_of_line, Ht.
Qed.

(** The first heading that the search finds in a section of regular
    lines is its first heading line. *)
Lemma search_heading_lines ls :
  Forall (fun l => forallb (not_char newline) l = true) ls ->
  Forall regular_line ls ->
  search_heading true (join nl ls)
  = option_map (repeat "#"%char) (first_heading_level ls).
Proof.
  induction ls as [|l ls IH]; intros Hn Hr; [reflexivity|].
  inversion Hn as [|? ? Hl Hn']; subst.
  inversion Hr as [|? ? Hrl Hr']; subst.
  rewrite join_cons.
  rewrite search_heading_line;
    [|exact Hl|exact Hrl|destruct ls; exact I || reflexivity].
  simpl first_heading_level.
  destruct (heading_of l) as [[k text]|]; [reflexivity|].
  destruct ls as [|l' ls']; [reflexivity|].
  change (nl ++ join nl (l' :: ls')) with (newline :: join nl (l' :: ls')).
  rewrite search_heading_cons.
  change (Ascii.eqb newline newline) with true. cbv iota.
  apply IH; assumption.
Qed.

Lemma in_join c l ls sep : In c l -> In l ls -> In c (join sep ls).
Proof.
  intros Hc. induction ls as [|l' ls IH]; intros Hl; [contradiction|].
  rewrite join_cons. apply in_or_app. destruct Hl as [->|Hl].
  - left. exact Hc.
  - right. destruct ls as [|l'' ls']; [contradiction|].
    apply in_or_app. right. apply IH, Hl.
Qed.

Lemma first_heading_level_hash ls f :
  first_heading_level ls = Some f ->
  exists l, In l ls /\ In "#"%char l.
Proof.
  induction ls as [|l ls IH]; simpl; [discriminate|].
  destruct (heading_of l) as [[k text]|] eqn:Eh.
  - intros _. exists l. split; [left; reflexivity|].
    destruct (heading_of_shape _ Eh) as [c [-> Hk]].
    destruct k as [|k]; [lia|]. left. reflexivity.
  - intros H. destruct (IH H) as [l' [Hin Hh]].
    exists l'. split; [right; exact Hin|exact Hh].
Qed.

End HeadingsFacts.

(** ** Heading rebasing: the claims *)

Module HeadingRebase.

Import PyStr PyStrFacts Headings HeadingsFacts Statements.

(** A line made of hash characters only and ended by a line feed,
    before which the detection pattern finds nothing, is what the
    first-heading detection finds, and the number of its hashes sets the
    shift for the whole section.  When the line is followed by an empty
    line, or ends the text, the rewriting pattern does not match it: the
    section is returned with the earlier lines and the hash line as they
    were, and the text after them rewritten under that shift. *)
Lemma hash_only_line_sets_shift (pre rest : str) (k : nat) :
  (1 <= k)%nat ->
  last pre newline = newline ->
  search_heading true pre = None ->
  match rest with [] => True | c :: _ => c = newline end ->
  search_heading true (pre ++ repeat "#"%char k ++ nl ++ rest)
  = Some (repeat "#"%char k)
  /\ reformat_section_headings (pre ++ repeat "#"%char k ++ nl ++ rest)
     = pre ++ repeat "#"%char k ++ nl
       ++ sub_headings (2 - Z.of_nat k) true rest.
Proof.
  intros Hk Hl Hs Hrest.
  destruct k as [|k]; [lia|].
  assert (Hspan : span (is_char "#") (repeat "#"%char (S k) ++ nl ++ rest)
                  = (repeat "#"%char (S k), newline :: rest)).
  { apply span_all_stop; [apply repeat_hash_all|reflexivity]. }
  assert (Hfound : search_heading true
                     (pre ++ repeat "#"%char (S k) ++ nl ++ rest)
                   = Some (repeat "#"%char (S k))).
  { rewrite search_heading_app by auto.
    change (repeat "#"%char (S k) ++ nl ++ rest)
      with ("#"%char :: (repeat "#"%char k ++ nl ++ rest)).
    rewrite search_heading_cons.
    change ("#"%char :: (repeat "#"%char k ++ nl ++ rest))
      with (repeat "#"%char (S k) ++ nl ++ rest).
    unfold match_heading_start. rewrite Hspan. reflexivity. }
  split; [exact Hfound|].
  unfold reformat_section_headings. rewrite Hfound.
  destruct (strip (pre ++ repeat "#"%char (S k) ++ nl ++ rest)) eqn:Est.
  { exfalso. revert Est. apply strip_nonblank with (c := "#"%char).
    - apply in_or_app. right. left. reflexivity.
    - reflexivity. }
  cbv zeta. rewrite repeat_length.
  rewrite sub_headings_app by auto. f_equal.
  change (repeat "#"%char (S k) ++ nl ++ rest)
    with ("#"%char :: (repeat "#"%char k ++ nl ++ rest)).
  rewrite sub_headings_cons.
  change ("#"%char :: (repeat "#"%char k ++ nl ++ rest))
    with (repeat "#"%char (S k) ++ nl ++ rest).
  assert (Hno : match_heading (repeat "#"%char (S k) ++ nl ++ rest) = None).
  { unfold match_heading. rewrite Hspan.
    destruct rest as [|c r]; [reflexivity|]. subst c. reflexivity. }
  rewrite Hno.
  change (Ascii.eqb "#" newline) with false.
  rewrite sub_headings_rest_of_line by apply repeat_hash_line.
  reflexivity.
Qed.

Lemma hash_only_line_sets_shift_witness :
  last ("Lead" ++ nl) newline = newline
  /\ search_heading true ("Lead" ++ nl) = None
  /\ search_heading true
       (("Lead" ++ nl) ++ repeat "#"%char 3 ++ nl ++ (nl ++ "# A"))
     = Some ("###" : str)
  /\ reformat_section_headings
       (("Lead" ++ nl) ++ repeat "#"%char 3 ++ nl ++ (nl ++ "# A"))
     = "Lead" ++ nl ++ "###" ++ nl ++ nl ++ "## A".
Proof.
  split; [reflexivity|]. split; [reflexivity|].
  destruct (@hash_only_line_sets_shift ("Lead" ++ nl) (nl ++ "# A") 3)
    as [Hs Hr].
  - lia.
  - reflexivity.
  - reflexivity.
  - reflexivity.
  - split; [exact Hs|]. rewrite Hr. vm_compute. reflexivity.
Defined.

(** C10 — Hash-only lines.  The line [#], ended by a line feed, is
    found by the first-heading detection and sets the shift, as the
    claim says; but it is rewritten all the same when a line of text
    follows: the blank [\s] of the rewriting pattern takes the line feed
    and [(.+)] the next line, so that the section [#], [Text] comes back
    as the single line [## Text], where the rewriting pattern was to
    leave a line of hashes alone. *)
Theorem hash_only_line_rewritten :
  search_heading true ("#" ++ nl ++ "Text") = Some ("#" : str)
  /\ reformat_section_headings ("#" ++ nl ++ "Text") = "## Text"
  /\ lines (reformat_section_headings ("#" ++ nl ++ "Text"))
     = [("## Text" : str)]
  /\ ~ In ("#" : str)
       (lines (reformat_section_headings ("#" ++ nl ++ "Text"))).
Proof.
  split; [reflexivity|]. split; [vm_compute; reflexivity|].
  split; [vm_compute; reflexivity|].
  intros H. vm_compute in H. destruct H as [H|[]]. discriminate H.
Qed.

(** Heading rebase on regular sections.  When no line of the section is
    made of hashes only, or of hashes and a single blank, every heading
    line (hashes, one blank, a text) of level [k] is rewritten to level
    [max(2, k + (2 - f))], [f] being the level of the first heading line,
    with one space before its text, and every other line is left as it
    is; a section with no heading line is returned unchanged. *)
Theorem rebase_regular_lines (ls : list str) :
  Forall (fun l => forallb (not_char newline) l = true) ls ->
  Forall regular_line ls ->
  reformat_section_headings (join nl ls)
  = match first_heading_level ls with
    | Some f => join nl (map (rebase_line (2 - Z.of_nat f)) ls)
    | None => join nl ls
    end.
Proof.
  intros Hn Hr. unfold reformat_section_headings.
  rewrite (search_heading_lines Hn Hr).
  destruct (first_heading_level ls) as [f|] eqn:Ef; simpl option_map.
  - destruct (strip (join nl ls)) eqn:Es.
    + exfalso. destruct (first_heading_level_hash _ Ef) as [l [Hl Hh]].
      revert Es. apply strip_nonblank with (c := "#"%char); [|reflexivity].
      eapply in_join; eassumption.
    + cbv zeta. rewrite repeat_length. apply sub_headings_lines; assumption.
  - destruct (strip (join nl ls)); reflexivity.
Qed.

Lemma rebase_regular_lines_witness :
  Forall (fun l => forallb (not_char newline) l = true)
    (strs ["# Title"; "Text"; "## Sub"; "More"])
  /\ Forall regular_line (strs ["# Title"; "Text"; "## Sub"; "More"])
  /\ first_heading_level (strs ["# Title"; "Text"; "## Sub"; "More"])
     = Some 1%nat
  /\ reformat_section_headings
       (join nl (strs ["# Title"; "Text"; "## Sub"; "More"]))
     = join nl (strs ["## Title"; "Text"; "### Sub"; "More"]).
Proof.
  assert (Hn : Forall (fun l => forallb (not_char newline) l = true)
                 (strs ["# Title"; "Text"; "## Sub"; "More"]))
    by (repeat constructor).
  assert (Hr : Forall regular_line
                 (strs ["# Title"; "Text"; "## Sub"; "More"]))
    by (repeat constructor).
  split; [exact Hn|]. split; [exact Hr|]. split; [reflexivity|].
  rewrite (rebase_regular_lines Hn Hr). vm_compute. reflexivity.
Defined.

(** C6 — Heading rebase.  The examples of the claim come out as it says,
    but a section whose first line is [#] alone, followed by an empty
    line and by the heading [## A], has the shift set by the line [#]:
    that line stays at level 1 and the heading goes to level 3.  And
    the line [##] alone, followed by a line of text, is rewritten
    together with that line, which is no heading. *)
Theorem rebase_misled_by_hash_only_line :
  reformat_section_headings ("#" ++ nl2 ++ "## A") = "#" ++ nl2 ++ "### A"
  /\ reformat_section_headings ("# T" ++ nl ++ "##" ++ nl ++ "Text")
     = "## T" ++ nl ++ "### Text"
  /\ reformat_section_headings
       ("# Title" ++ nl ++ "Text" ++ nl ++ "## Sub" ++ nl ++ "More")
     = "## Title" ++ nl ++ "Text" ++ nl ++ "### Sub" ++ nl ++ "More"
  /\ reformat_section_headings ("#### A" ++ nl ++ "## B" ++ nl ++ "##### C")
     = "## A" ++ nl ++ "## B" ++ nl ++ "### C".
Proof. repeat split; vm_compute; reflexivity. Qed.

End HeadingRebase.

(** ** Heading rebasing: further properties *)

Module HeadingRebaseLaws.

Import PyStr PyStrFacts Headings HeadingsFacts Statements.

Lemma heading_of_intro m c text :
  (1 <= m)%nat -> is_space c = true -> text <> [] ->
  heading_of (repeat "#"%char m ++ c :: text) = Some (m, text).
Proof.
  intros Hm Hc Ht. unfold heading_of.
  assert (Hnh : is_char "#" c = false).
  { unfold is_char. destruct (Ascii.eqb c "#") eqn:E; [|reflexivity].
    apply Ascii.eqb_eq in E. subst c. discriminate Hc. }
  rewrite span_all_stop by (apply repeat_hash_all || exact Hnh).
  destruct m as [|m]; [lia|].
  destruct text as [|b text]; [congruence|].
  change (repeat "#"%char (S m)) with ("#"%char :: repeat "#"%char m).
  rewrite Hc. simpl. rewrite repeat_length. reflexivity.
Qed.

Lemma heading_of_text l k text : heading_of l = Some (k, text) -> text <> [].
Proof.
  unfold heading_of.
  destruct (span (is_char "#") l) as [[|a h] [|c [|b r]]]; try discriminate.
  destruct (is_space c); [|discriminate].
  intros H. injection H as _ <-. discriminate.
Qed.

(** A rebased heading line is a heading line with the same text, at
    the new level, which is 2 at least. *)
Lemma heading_of_rebase shift l k text :
  heading_of l = Some (k, text) ->
  heading_of (rebase_line shift l)
  = Some (Z.to_nat (Z.max 2 (Z.of_nat k + shift)), text).
Proof.
  intros H. unfold rebase_line. rewrite H.
  change (" " ++ text) with (" "%char :: text).
  apply heading_of_intro; [lia|reflexivity|].
  eapply heading_of_text, H.
Qed.

Lemma rebase_line_other shift l :
  heading_of l = None -> rebase_line shift l = l.
Proof. intros H. unfold rebase_line. rewrite H. reflexivity. Qed.

Lemma regular_line_heading l k text :
  heading_of l = Some (k, text) -> regular_line l.
Proof.
  unfold heading_of, regular_line.
  destruct (span (is_char "#") l) as [[|a h] [|c [|b r]]];
    try discriminate; intros _; exact I.
Qed.

Lemma rebase_line_regular shift l :
  regular_line l -> regular_line (rebase_line shift l).
Proof.
  intros Hr. destruct (heading_of l) as [[k text]|] eqn:Eh.
  - eapply regular_line_heading, heading_of_rebase, Eh.
  - rewrite rebase_line_other by exact Eh. exact Hr.
Qed.

Lemma rebase_line_no_newline shift l :
  forallb (not_char newline) l = true ->
  forallb (not_char newline) (rebase_line shift l) = true.
Proof.
  intros Hl. unfold rebase_line.
  destruct (heading_of l) as [[k text]|] eqn:Eh; [|exact Hl].
  destruct (heading_of_shape _ Eh) as [c [El _]]. subst l.
  rewrite forallb_app in Hl. apply andb_true_iff in Hl.
  destruct Hl as [_ Hl]. simpl in Hl. apply andb_true_iff in Hl.
  destruct Hl as [_ Ht].
  rewrite forallb_app. rewrite repeat_hash_line. simpl. exact Ht.
Qed.

Lemma first_heading_level_rebase shift ls :
  first_heading_level (map (rebase_line shift) ls)
  = option_map (fun k => Z.to_nat (Z.max 2 (Z.of_nat k + shift)))
      (first_heading_level ls).
Proof.
  induction ls as [|l ls IH]; [reflexivity|]. simpl.
  destruct (heading_of l) as [[k text]|] eqn:Eh.
  - rewrite (heading_of_rebase shift _ Eh). reflexivity.
  - rewrite rebase_line_other by exact Eh. rewrite Eh. exact IH.
Qed.

(** Rebasing by the shift 0 leaves a rebased line as it is. *)
Lemma rebase_line_again shift l :
  rebase_line 0 (rebase_line shift l) = rebase_line shift l.
Proof.
  destruct (heading_of l) as [[k text]|] eqn:Eh.
  - unfold rebase_line at 1. rewrite (heading_of_rebase shift _ Eh).
    unfold rebase_line. rewrite Eh. do 2 f_equal. lia.
  - rewrite !rebase_line_other; try exact Eh; try reflexivity.
    rewrite rebase_line_other by exact Eh. exact Eh.
Qed.

(** The section of regular lines, rebased line by line. *)
Lemma rebase_regular_lines_eq ls :
  Forall (fun l => forallb (not_char newline) l = true) ls ->
  Forall regular_line ls ->
  reformat_section_headings (join nl ls)
  = match first_heading_level ls with
    | Some f => join nl (map (rebase_line (2 - Z.of_nat f)) ls)
    | None => join nl ls
    end.
Proof.
  intros Hn Hr. unfold reformat_section_headings.
  rewrite (search_heading_lines Hn Hr).
  destruct (first_heading_level ls) as [f|] eqn:Ef; simpl option_map.
  - destruct (strip (join nl ls)) eqn:Es.
    + exfalso. destruct (first_heading_level_hash _ Ef) as [l [Hl Hh]].
      revert Es. apply strip_nonblank with (c := "#"%char); [|reflexivity].
      eapply in_join; eassumption.
    + cbv zeta. rewrite repeat_length. apply sub_headings_lines; assumption.
  - destruct (strip (join nl ls)); reflexivity.
Qed.

(** The lines of a text made of lines. *)
Lemma lines_app_nl l x :
  forallb (not_char newline) l = true ->
  lines (l ++ nl ++ x) = l :: lines x.
Proof.
  induction l as [|c t IH]; intros H; [reflexivity|].
  simpl in H. apply andb_true_iff in H. destruct H as [Hc Ht].
  unfold not_char in Hc. apply negb_true_iff in Hc.
  change ((c :: t) ++ nl ++ x) with (c :: (t ++ nl ++ x)).
  cbn [lines]. rewrite Hc, (IH Ht). reflexivity.
Qed.

Lemma lines_one l :
  forallb (not_char newline) l = true -> lines l = [l].
Proof.
  induction l as [|c t IH]; intros H; [reflexivity|].
  simpl in H. apply andb_true_iff in H. destruct H as [Hc Ht].
  unfold not_char in Hc. apply negb_true_iff in Hc.
  cbn [lines]. rewrite Hc, (IH Ht). reflexivity.
Qed.

Lemma lines_join ls :
  ls <> [] ->
  Forall (fun l => forallb (not_char newline) l = true) ls ->
  lines (join nl ls) = ls.
Proof.
  induction ls as [|x r IH]; [congruence|]. intros _ H.
  inversion H as [|? ? Hx Hr]; subst.
  destruct r as [|y r'].
  - apply lines_one, Hx.
  - change (join nl (x :: y :: r')) with (x ++ nl ++ join nl (y :: r')).
    rewrite (@lines_app_nl x _ Hx), IH; [reflexivity|discriminate|exact Hr].
Qed.

(** Heading floor.  In a section of regular lines that has a heading
    line, the rebased section has as many lines as the section, its
    first heading line stands at level 2 exactly, and each of its
    heading lines stands at level 2 or deeper. *)
Theorem rebase_floor (ls : list str) (f : nat) :
  Forall (fun l => forallb (not_char newline) l = true) ls ->
  Forall regular_line ls ->
  first_heading_level ls = Some f ->
  List.length (lines (reformat_section_headings (join nl ls)))
  = List.length ls
  /\ first_heading_level (lines (reformat_section_headings (join nl ls)))
     = Some 2%nat
  /\ forall l k text,
       In l (lines (reformat_section_headings (join nl ls))) ->
       heading_of l = Some (k, text) -> (2 <= k)%nat.
Proof.
  intros Hn Hr Hf.
  assert (Hne : ls <> []) by (intros ->; discriminate Hf).
  assert (Hout : lines (reformat_section_headings (join nl ls))
                 = map (rebase_line (2 - Z.of_nat f)) ls).
  { rewrite (rebase_regular_lines_eq Hn Hr), Hf. apply lines_join.
    - destruct ls; [congruence|discriminate].
    - rewrite Forall_forall in *. intros l Hl. apply in_map_iff in Hl.
      destruct Hl as [l0 [<- Hl0]]. apply rebase_line_no_newline, Hn, Hl0. }
  rewrite Hout.
  split; [apply length_map|]. split.
  - rewrite first_heading_level_rebase, Hf. cbn [option_map]. f_equal. lia.
  - intros l k text Hin Hh. apply in_map_iff in Hin.
    destruct Hin as [l0 [<- _]].
    destruct (heading_of l0) as [[k0 text0]|] eqn:E0.
    + rewrite (heading_of_rebase _ _ E0) in Hh. injection Hh as <- _. lia.
    + rewrite rebase_line_other in Hh by exact E0. congruence.
Qed.

Lemma rebase_floor_witness :
  Forall (fun l => forallb (not_char newline) l = true)
    (strs ["Lead"; "#### Deep"; "## Up"; "##### Down"])
  /\ Forall regular_line (strs ["Lead"; "#### Deep"; "## Up"; "##### Down"])
  /\ first_heading_level (strs ["Lead"; "#### Deep"; "## Up"; "##### Down"])
     = Some 4%nat
  /\ lines (reformat_section_headings
              (join nl (strs ["Lead"; "#### Deep"; "## Up"; "##### Down"])))
     = strs ["Lead"; "## Deep"; "## Up"; "### Down"]
  /\ List.length
       (lines (reformat_section_headings
                 (join nl (strs ["Lead"; "#### Deep"; "## Up"; "##### Down"]))))
     = 4%nat
  /\ first_heading_level
       (lines (reformat_section_headings
                 (join nl (strs ["Lead"; "#### Deep"; "## Up"; "##### Down"]))))
     = Some 2%nat
  /\ forall l k text,
       In l (lines (reformat_section_headings
                      (join nl (strs ["Lead"; "#### Deep"; "## Up";
                                      "##### Down"])))) ->
       heading_of l = Some (k, text) -> (2 <= k)%nat.
Proof.
  assert (Hn : Forall (fun l => forallb (not_char newline) l = true)
                 (strs ["Lead"; "#### Deep"; "## Up"; "##### Down"]))
    by (repeat constructor).
  assert (Hr : Forall regular_line
                 (strs ["Lead"; "#### Deep"; "## Up"; "##### Down"]))
    by (repeat constructor).
  split; [exact Hn|]. split; [exact Hr|]. split; [reflexivity|].
  split; [vm_compute; reflexivity|].
  exact (@rebase_floor _ 4%nat Hn Hr eq_refl).
Defined.

(** Rebasing twice.  On a section of regular lines, rebasing the
    rebased section changes nothing. *)
Theorem rebase_idempotent (ls : list str) :
  Forall (fun l => forallb (not_char newline) l = true) ls ->
  Forall regular_line ls ->
  reformat_section_headings (reformat_section_headings (join nl ls))
  = reformat_section_headings (join nl ls).
Proof.
  intros Hn Hr. rewrite (rebase_regular_lines_eq Hn Hr).
  destruct (first_heading_level ls) as [f|] eqn:Ef.
  - set (shift := (2 - Z.of_nat f)%Z).
    assert (Hn' : Forall (fun l => forallb (not_char newline) l = true)
                    (map (rebase_line shift) ls)).
    { rewrite Forall_forall in *. intros l Hl. apply in_map_iff in Hl.
      destruct Hl as [l0 [<- Hl0]]. apply rebase_line_no_newline, Hn, Hl0. }
    assert (Hr' : Forall regular_line (map (rebase_line shift) ls)).
    { rewrite Forall_forall in *. intros l Hl. apply in_map_iff in Hl.
      destruct Hl as [l0 [<- Hl0]]. apply rebase_line_regular, Hr, Hl0. }
    rewrite (rebase_regular_lines_eq Hn' Hr').
    rewrite first_heading_level_rebase, Ef. cbn [option_map].
    replace (2 - Z.of_nat (Z.to_nat (Z.max 2 (Z.of_nat f + shift))))%Z
      with 0%Z by (unfold shift; lia).
    rewrite map_map. f_equal. apply map_ext. intros l.
    apply rebase_line_again.
  - rewrite (rebase_regular_lines_eq Hn Hr), Ef. reflexivity.
Qed.

Lemma rebase_idempotent_witness :
  Forall (fun l => forallb (not_char newline) l = true)
    (strs ["### A"; "Text"; "# B"])
  /\ Forall regular_line (strs ["### A"; "Text"; "# B"])
  /\ reformat_section_headings (join nl (strs ["### A"; "Text"; "# B"]))
     = join nl (strs ["## A"; "Text"; "## B"])
  /\ reformat_section_headings
       (reformat_section_headings (join nl (strs ["### A"; "Text"; "# B"])))
     = reformat_section_headings (join nl (strs ["### A"; "Text"; "# B"])).
Proof.
  assert (Hn : Forall (fun l => forallb (not_char newline) l = true)
                 (strs ["### A"; "Text"; "# B"]))
    by (repeat constructor).
  assert (Hr : Forall regular_line (strs ["### A"; "Text"; "# B"]))
    by (repeat constructor).
  split; [exact Hn|]. split; [exact Hr|].
  split; [vm_compute; reflexivity|].
  exact (rebase_idempotent Hn Hr).
Defined.

End HeadingRebaseLaws.

(** ** Reference consolidation: further properties *)

Module ConsolidationLaws.

Import PyStr PyStrFacts PyDict PyDictFacts References ReferencesFacts.
Import Statements MoreStatements.

(** *** What is raised, and when *)

Lemma forallb_drop_while_nil p s :
  forallb p s = true -> drop_while p s = [].
Proof. intros H. unfold drop_while. rewrite (span_all _ _ H). reflexivity. Qed.

Lemma drop_while_nil_forallb p s :
  drop_while p s = [] -> forallb p s = true.
Proof.
  unfold drop_while. induction s as [|c s IH]; simpl; [reflexivity|].
  destruct (p c) eqn:E; [|discriminate].
  destruct (span p s). simpl in *. exact IH.
Qed.

(** An entry is read, or skipped, or it is one of the entries on which
    the index is out of range. *)
Lemma parse_ref_cases ref :
  if index_trap ref
  then parse_ref ref = Raise IndexError
  else (exists url n, parse_ref ref = Ok (url, n))
       \/ parse_ref ref = Raise ValueError.
Proof.
  unfold index_trap, parse_ref, split_head, take_while, split_tail.
  destruct (forallb (not_char "]") ref) eqn:Ef; simpl andb.
  - rewrite (span_all _ _ Ef). simpl fst.
    rewrite (forallb_drop_while_nil _ _ Ef).
    destruct (py_int (strip_chars (is_char "[") ref)) as [n|x] eqn:Ei.
    + reflexivity.
    + right. rewrite (py_int_raises _ Ei). reflexivity.
  - destruct (drop_while (not_char "]") ref) as [|c r] eqn:Ed.
    { apply drop_while_nil_forallb in Ed. congruence. }
    destruct (py_int _) as [n|x] eqn:Ei.
    + left. eexists; eexists; reflexivity.
    + right. rewrite (py_int_raises _ Ei). reflexivity.
Qed.

Lemma convert_loop_cases refs : forall m,
  if existsb index_trap refs
  then convert_loop m refs = Raise IndexError
  else exists m', convert_loop m refs = Ok m'.
Proof.
  induction refs as [|ref r IH]; intros m; simpl.
  - eexists; reflexivity.
  - pose proof (parse_ref_cases ref) as Hp.
    destruct (index_trap ref); simpl.
    + rewrite Hp. reflexivity.
    + destruct Hp as [[url [n ->]]| ->]; apply IH.
Qed.

(** The last of the new numbers is beyond the limit of [str()] exactly
    when one of them is. *)
Lemma new_numbers_beyond refs mr (k : nat) :
  convert_ref_list_to_map refs = Ok mr ->
  (exists i, (1 <= i <= Z.of_nat k)%Z
             /\ (int_limit <= Z.abs (max_values (values mr) + i))%Z)
  <-> (int_limit <= max_values (values mr) + Z.of_nat k)%Z.
Proof.
  intros Hr. pose proof (max_values_below _ Hr) as Hmax. split.
  - intros [i [Hi Hl]]. lia.
  - intros H. exists (Z.of_nat k). split; lia.
Qed.

(** The outcome of a call.  The call raises [IndexError] exactly when
    some entry of one of the two lists has no closing bracket and reads
    as an integer.  Otherwise it raises [ValueError] exactly when the
    last number to be given to a new locator, or the number of a marker
    of the section, has more digits than the conversions allow, and
    else it returns the list of all references followed by the entries
    of the new locators. *)
Theorem reformat_references_raises_exactly (body : str)
    (refs G : list str) :
  (existsb index_trap (refs ++ G) = true
   /\ reformat_references body refs G = Raise IndexError)
  \/ (existsb index_trap (refs ++ G) = false
      /\ exists ms mr,
           convert_ref_list_to_map refs = Ok ms
           /\ convert_ref_list_to_map G = Ok mr
           /\ (((int_limit
                 <= max_values (values mr)
                    + Z.of_nat (List.length (new_urls mr ms)))%Z
                \/ exists d,
                     marker_in body d
                     /\ (int_max_str_digits < List.length d)%nat)
               /\ reformat_references body refs G = Raise ValueError
               \/ (max_values (values mr)
                   + Z.of_nat (List.length (new_urls mr ms)) < int_limit)%Z
                  /\ markers_within_limit body
                  /\ exists body',
                       reformat_references body refs G
                       = Ok (body',
                             G ++ numbered (max_values (values mr) + 1)
                                    (new_urls mr ms)))).
Proof.
  rewrite existsb_app. unfold reformat_references.
  pose proof (convert_loop_cases refs []) as Hs.
  pose proof (convert_loop_cases G []) as Hg.
  fold (convert_ref_list_to_map refs) in Hs.
  fold (convert_ref_list_to_map G) in Hg.
  destruct (existsb index_trap refs).
  { left. rewrite Hs. split; reflexivity. }
  destruct Hs as [ms Hs]. rewrite Hs. cbn [bind orb].
  destruct (existsb index_trap G).
  { left. rewrite Hg. split; reflexivity. }
  destruct Hg as [mr Hg]. rewrite Hg. cbn [bind].
  right. split; [reflexivity|]. exists ms, mr.
  split; [reflexivity|]. split; [reflexivity|].
  destruct (merge mr ms G) as [st|x] eqn:Em; cbn [bind].
  - destruct (merge_Ok _ _ _ Em) as [Est Hnew].
    assert (Hlast : (max_values (values mr)
                     + Z.of_nat (List.length (new_urls mr ms))
                     < int_limit)%Z).
    { destruct (Z.lt_ge_cases
                  (max_values (values mr)
                   + Z.of_nat (List.length (new_urls mr ms))) int_limit)
        as [L|L]; [exact L|exfalso].
      apply (@new_numbers_beyond _ _ _ Hg) in L. destruct L as [i [Hi Hl]].
      specialize (Hnew i Hi). lia. }
    destruct (Re.sub_markers
                (replace_reference (section_to_report_ref_map st)) body)
      as [b|e] eqn:Eb; cbn [bind].
    + right. split; [exact Hlast|]. split.
      * intros d [Hne [Hd [pre [post ->]]]].
        change (pre ++ "[" ++ d ++ "]" ++ post)
          with (pre ++ "["%char :: d ++ "]"%char :: post) in Eb.
        apply ReFacts.sub_markers_app_Ok in Eb; [|assumption..].
        destruct Eb as [pre' [x [post' [_ [Hx _]]]]].
        unfold replace_reference in Hx.
        destruct (py_int d) as [n|] eqn:En; [|discriminate Hx].
        apply (py_int_digits_Ok _ Hd En).
      * exists b. rewrite Est. unfold merged.
        rewrite merge_fold_append. reflexivity.
    + left. split; [|].
      * right. apply ReFacts.sub_markers_raises in Eb.
        destruct Eb as [d [Hd He]]. exists d. split; [exact Hd|].
        destruct Hd as [Hne [Hdig _]].
        apply (@replace_reference_raises _ _ _ Hne Hdig) in He;
          [tauto|].
        intros n g. apply (@merge_below _ _ _ _ _ _ Hg Em).
      * apply ReFacts.sub_markers_raises in Eb.
        destruct Eb as [d [[Hne [Hdig _]] He]].
        apply (@replace_reference_raises _ _ _ Hne Hdig) in He.
        -- destruct He as [-> _]. reflexivity.
        -- intros n g. apply (@merge_below _ _ _ _ _ _ Hg Em).
  - left. apply merge_loop_raises in Em. destruct Em as [-> Hex].
    split; [|reflexivity]. left.
    cbn [ref_count] in Hex. apply (@new_numbers_beyond _ _ _ Hg). exact Hex.
Qed.


(** *** Entries that cannot be read *)

Lemma convert_loop_split a : forall m b,
  convert_loop m (a ++ b) = m' <- convert_loop m a ;; convert_loop m' b.
Proof.
  induction a as [|e a IH]; intros m b; simpl; [reflexivity|].
  destruct (parse_ref e) as [[url k]|[]]; try reflexivity; apply IH.
Qed.

(** Skipped entries.  An entry of the section's list on which the
    reading raises [ValueError] changes nothing: the call gives what it
    gives on the list without the entry. *)
Theorem unreadable_entry_ignored (body : str) (a b : list str) (e : str)
    (G : list str) :
  parse_ref e = Raise ValueError ->
  reformat_references body (a ++ e :: b) G
  = reformat_references body (a ++ b) G.
Proof.
  intros He. unfold reformat_references, convert_ref_list_to_map.
  rewrite !convert_loop_split.
  destruct (convert_loop [] a) as [m|x]; [|reflexivity].
  simpl. rewrite He. reflexivity.
Qed.

Lemma unreadable_entry_ignored_witness :
  parse_ref "see the notes" = Raise ValueError
  /\ reformat_references "As in [1] and [2]"
       (strs ["[1] a.com"] ++ ("see the notes" : str) :: strs ["[2] b.com"])
       (strs ["[1] b.com"])
     = reformat_references "As in [1] and [2]"
         (strs ["[1] a.com"] ++ strs ["[2] b.com"]) (strs ["[1] b.com"]).
Proof.
  assert (H : parse_ref "see the notes" = Raise ValueError)
    by (vm_compute; reflexivity).
  split; [exact H|].
  exact (@unreadable_entry_ignored "As in [1] and [2]" (strs ["[1] a.com"])
           (strs ["[2] b.com"]) "see the notes" (strs ["[1] b.com"]) H).
Defined.

(** *** What a call appends, on any list *)

(** Append only.  On lists that can be read, a call that returns gives
    back the list of all references followed by one entry for each
    locator of the section that the list did not have, in the order of
    the section, numbered on from the greatest number of the list: the
    entries that were there are neither removed nor changed, and a new
    number is greater than every number read from the list. *)
Theorem reformat_references_appends (body : str) (refs G : list str)
    (ms mr : ref_map) (body' : str) (G' : list str) :
  convert_ref_list_to_map refs = Ok ms ->
  convert_ref_list_to_map G = Ok mr ->
  reformat_references body refs G = Ok (body', G') ->
  G' = G ++ numbered (max_values (values mr) + 1) (new_urls mr ms)
  /\ NoDup (new_urls mr ms)
  /\ (forall u,
       In u (new_urls mr ms) <-> In u (keys ms) /\ url_get mr u = None)
  /\ (forall u g,
       url_get mr u = Some g -> (g < max_values (values mr) + 1)%Z).
Proof.
  intros Hs Hr Hcall.
  destruct (reformat_references_Ok _ _ _ Hcall)
    as [ms' [mr' [st [Hs' [Hr' [Hm [-> _]]]]]]].
  assert (ms' = ms) by congruence. subst ms'.
  assert (mr' = mr) by congruence. subst mr'.
  destruct (merge_Ok _ _ _ Hm) as [-> _].
  split; [|split; [|split]].
  - unfold merged. rewrite merge_fold_append. reflexivity.
  - apply NoDup_filter, (convert_keys _ Hs).
  - intros u. unfold new_urls. rewrite filter_In. unfold is_new.
    destruct (url_get mr u); intuition congruence.
  - intros u g Hg. apply get_Some_In in Hg.
    assert (In g (values mr)).
    { change g with (snd (u, g)). apply in_map, Hg. }
    pose proof (max_values_ge _ _ H). lia.
Qed.

Lemma reformat_references_appends_witness :
  convert_ref_list_to_map (strs ["[1] c.org"; "[2] a.com"; "[3] d.net"])
  = Ok [("c.org" : str, 1%Z); ("a.com" : str, 2%Z); ("d.net" : str, 3%Z)]
  /\ convert_ref_list_to_map (strs ["[5] a.com"; "[2] b.com"])
     = Ok [("a.com" : str, 5%Z); ("b.com" : str, 2%Z)]
  /\ reformat_references "See [1], [2] and [3]"
       (strs ["[1] c.org"; "[2] a.com"; "[3] d.net"])
       (strs ["[5] a.com"; "[2] b.com"])
     = Ok ("See [6], [5] and [7]" : str,
           strs ["[5] a.com"; "[2] b.com"; "[6] c.org"; "[7] d.net"])
  /\ strs ["[5] a.com"; "[2] b.com"; "[6] c.org"; "[7] d.net"]
     = strs ["[5] a.com"; "[2] b.com"]
       ++ numbered
            (max_values
               (values [("a.com" : str, 5%Z); ("b.com" : str, 2%Z)]) + 1)
            (new_urls [("a.com" : str, 5%Z); ("b.com" : str, 2%Z)]
               [("c.org" : str, 1%Z); ("a.com" : str, 2%Z);
                ("d.net" : str, 3%Z)]).
Proof.
  assert (E : reformat_references "See [1], [2] and [3]"
                (strs ["[1] c.org"; "[2] a.com"; "[3] d.net"])
                (strs ["[5] a.com"; "[2] b.com"])
              = Ok ("See [6], [5] and [7]" : str,
                    strs ["[5] a.com"; "[2] b.com"; "[6] c.org";
                          "[7] d.net"]))
    by (vm_compute; reflexivity).
  split; [vm_compute; reflexivity|]. split; [vm_compute; reflexivity|].
  split; [exact E|].
  apply (@reformat_references_appends "See [1], [2] and [3]"
           (strs ["[1] c.org"; "[2] a.com"; "[3] d.net"])
           (strs ["[5] a.com"; "[2] b.com"])
           [("c.org" : str, 1%Z); ("a.com" : str, 2%Z);
            ("d.net" : str, 3%Z)]
           [("a.com" : str, 5%Z); ("b.com" : str, 2%Z)]
           "See [6], [5] and [7]"
           (strs ["[5] a.com"; "[2] b.com"; "[6] c.org"; "[7] d.net"]));
    [vm_compute; reflexivity|vm_compute; reflexivity|exact E].
Defined.

(** *** Text without markers *)

Lemma sub_markers_no_bracket repl s :
  forallb (not_char "[") s = true -> Re.sub_markers repl s = Ok s.
Proof.
  induction s as [|c t IH]; intros H.
  - simp sub_markers. reflexivity.
  - simpl in H. apply andb_true_iff in H. destruct H as [Hc Ht].
    rewrite ReFacts.sub_markers_cons.
    unfold not_char in Hc. apply negb_true_iff in Hc.
    unfold Re.match_marker. rewrite Hc. rewrite (IH Ht). reflexivity.
Qed.

(** No bracket, no change.  On a section without any opening bracket
    the call does to the list of all references what it does on the
    empty section, and raises what it raises there; when it returns, it
    returns the section as it is. *)
Theorem text_without_bracket_kept (body : str) (refs G : list str) :
  forallb (not_char "[") body = true ->
  reformat_references body refs G
  = r <- reformat_references [] refs G ;; Ok (body, snd r).
Proof.
  intros Hb. unfold reformat_references.
  destruct (convert_ref_list_to_map refs) as [ms|]; [|reflexivity].
  destruct (convert_ref_list_to_map G) as [mr|]; [|reflexivity].
  cbn [bind]. destruct (merge mr ms G) as [st|]; [|reflexivity].
  cbn [bind]. rewrite (sub_markers_no_bracket _ _ Hb).
  rewrite (sub_markers_no_bracket _ [] eq_refl). reflexivity.
Qed.

Lemma text_without_bracket_kept_witness :
  reformat_references [] (strs ["[1] a.com"]) []
  = Ok ([], strs ["[1] a.com"])
  /\ reformat_references "No citation (yet), only 1] and text."
       (strs ["[1] a.com"]) []
     = Ok ("No citation (yet), only 1] and text." : str,
           strs ["[1] a.com"]).
Proof.
  assert (E : reformat_references [] (strs ["[1] a.com"]) []
              = Ok ([], strs ["[1] a.com"])) by (vm_compute; reflexivity).
  split; [exact E|].
  rewrite (@text_without_bracket_kept
             "No citation (yet), only 1] and text."
             (strs ["[1] a.com"]) []) by (vm_compute; reflexivity).
  rewrite E. reflexivity.
Defined.

(** *** The number 0 *)

(** Number 0.  A marker whose local number is mapped to the number 0,
    as happens when the list of all references has the locator under
    [[0]], is replaced by the empty text in the section that the call
    returns, like a marker with no reference: [if mapped_ref_num:]
    takes 0 for a missing number. *)
Theorem marker_mapped_to_zero_deleted (pre d post : str)
    (refs G : list str) (ms mr : ref_map) (st : merge_state) (n : Z)
    (body' : str) (G' : list str) :
  convert_ref_list_to_map refs = Ok ms ->
  convert_ref_list_to_map G = Ok mr ->
  merge mr ms G = Ok st ->
  d <> [] -> forallb is_digit d = true ->
  py_int d = Ok n ->
  num_get (section_to_report_ref_map st) n = Some 0%Z ->
  reformat_references (pre ++ "[" ++ d ++ "]" ++ post) refs G
  = Ok (body', G') ->
  exists pre' post',
    reformat_references pre refs G = Ok (pre', G')
    /\ reformat_references post refs G = Ok (post', G')
    /\ body' = pre' ++ post'.
Proof.
  intros Hs Hr Hm Hne Hd Hn Hget H.
  destruct (reformat_references_marker _ _ _ _ Hne Hd H)
    as [ms' [mr' [st' [pre' [x [post' [Hs' [Hr' [Hm' [_ [Hpre [Hpost
         [Hx ->]]]]]]]]]]]]].
  assert (ms' = ms) by congruence. subst ms'.
  assert (mr' = mr) by congruence. subst mr'.
  assert (st' = st) by congruence. subst st'.
  unfold replace_reference in Hx. rewrite Hn in Hx. simpl in Hx.
  rewrite Hget in Hx. simpl in Hx. injection Hx as <-.
  exists pre', post'. split; [exact Hpre|]. split; [exact Hpost|reflexivity].
Qed.

Lemma marker_mapped_to_zero_deleted_witness :
  convert_ref_list_to_map (strs ["[1] a.com"]) = Ok [("a.com" : str, 1%Z)]
  /\ convert_ref_list_to_map (strs ["[0] a.com"])
     = Ok [("a.com" : str, 0%Z)]
  /\ merge [("a.com" : str, 0%Z)] [("a.com" : str, 1%Z)]
       (strs ["[0] a.com"])
     = Ok (MergeState [(1%Z, 0%Z)] 0 (strs ["[0] a.com"]))
  /\ reformat_references "Kant [1] says" (strs ["[1] a.com"])
       (strs ["[0] a.com"])
     = Ok ("Kant  says" : str, strs ["[0] a.com"])
  /\ exists pre' post',
       reformat_references "Kant " (strs ["[1] a.com"]) (strs ["[0] a.com"])
       = Ok (pre', strs ["[0] a.com"])
       /\ reformat_references " says" (strs ["[1] a.com"])
            (strs ["[0] a.com"])
          = Ok (post', strs ["[0] a.com"])
       /\ ("Kant  says" : str) = pre' ++ post'.
Proof.
  assert (E : reformat_references "Kant [1] says" (strs ["[1] a.com"])
                (strs ["[0] a.com"])
              = Ok ("Kant  says" : str, strs ["[0] a.com"]))
    by (vm_compute; reflexivity).
  split; [vm_compute; reflexivity|]. split; [vm_compute; reflexivity|].
  split; [vm_compute; reflexivity|]. split; [exact E|].
  apply (@marker_mapped_to_zero_deleted "Kant " "1" " says"
           (strs ["[1] a.com"]) (strs ["[0] a.com"])
           [("a.com" : str, 1%Z)] [("a.com" : str, 0%Z)]
           (MergeState [(1%Z, 0%Z)] 0 (strs ["[0] a.com"])) 1%Z
           "Kant  says" (strs ["[0] a.com"]));
    [vm_compute; reflexivity|vm_compute; reflexivity|vm_compute; reflexivity
    |discriminate|reflexivity|vm_compute; reflexivity|reflexivity|exact E].
Defined.

(** *** Markers with a reference *)

Lemma values_entries_range k us g :
  In g (values (entries k us)) ->
  (k <= g < k + Z.of_nat (List.length us))%Z.
Proof.
  revert k. induction us as [|u r IH]; intros k; simpl; [contradiction|].
  intros [<-|H]; [lia|]. apply IH in H. lia.
Qed.

Lemma numbered_nth us : forall k i,
  (i < List.length us)%nat ->
  exists u,
    nth_error (numbered k us) i = Some (ref_entry (k + Z.of_nat i) u).
Proof.
  induction us as [|u r IH]; intros k i Hi; simpl in Hi; [lia|].
  destruct i as [|i]; simpl.
  - exists u. rewrite Z.add_0_r. reflexivity.
  - destruct (IH (k + 1)%Z i) as [v Hv]; [lia|].
    exists v. rewrite Hv. do 2 f_equal. lia.
Qed.

(** No citation left hanging.  On a list built by the program, a marker
    whose number is the number of some reference of the section's list
    is never deleted: in the section that the call returns it is
    rewritten to a number [g] under which the returned list has an
    entry. *)
Theorem declared_marker_points_to_entry (pre d post : str)
    (refs G : list str) (ms : ref_map) (n : Z)
    (body' : str) (G' : list str) :
  consolidated G ->
  convert_ref_list_to_map refs = Ok ms ->
  In n (values ms) ->
  d <> [] -> forallb is_digit d = true -> py_int d = Ok n ->
  reformat_references (pre ++ "[" ++ d ++ "]" ++ post) refs G
  = Ok (body', G') ->
  exists g pre' post' u,
    reformat_references pre refs G = Ok (pre', G')
    /\ reformat_references post refs G = Ok (post', G')
    /\ body' = pre' ++ "[" ++ render_int g ++ "]" ++ post'
    /\ nth_error G' (Z.to_nat (g - 1)) = Some (ref_entry g u).
Proof.
  intros HG Hs Hn Hne Hd Hint Hcall.
  destruct (consolidated_numbered HG) as [us [Hnd [Hst [Hlim ->]]]].
  destruct (call_numbered _ _ Hnd Hst Hlim Hcall)
    as [ms' [Hs' [Hmerge [HG' [_ [_ Hlimall]]]]]].
  assert (ms' = ms) by congruence. subst ms'.
  destruct (reformat_references_marker _ _ _ _ Hne Hd Hcall)
    as [ms' [mr' [st' [pre' [x [post' [Hs2 [Hr' [Hm' [_ [Hpre [Hpost
         [Hx ->]]]]]]]]]]]]].
  assert (ms' = ms) by congruence. subst ms'.
  rewrite (convert_numbered Hst Hnd Hlim) in Hr'. injection Hr' as <-.
  rewrite Hmerge in Hm'. injection Hm' as <-.
  set (st := merged (entries 1 us) ms (numbered 1 us)) in *.
  destruct (num_get (section_to_report_ref_map st) n) as [g|] eqn:Eg.
  2:{ exfalso. revert Eg. apply merge_fold_declared, Hn. }
  assert (Hrange :
    (1 <= g <= Z.of_nat (List.length
                           (us ++ new_urls (entries 1 us) ms)))%Z).
  { unfold st, merged in Eg. apply merge_fold_values in Eg.
    cbn [section_to_report_ref_map ref_count] in Eg.
    rewrite max_values_entries in Eg. rewrite length_app.
    destruct Eg as [Eg|[Eg|Eg]]; [discriminate Eg| |lia].
    apply values_entries_range in Eg. lia. }
  unfold replace_reference in Hx. rewrite Hint in Hx. simpl in Hx.
  rewrite Eg in Hx.
  replace (g =? 0)%Z with false in Hx by (symmetry; apply Z.eqb_neq; lia).
  rewrite py_str_Ok in Hx by lia. simpl in Hx. injection Hx as <-.
  destruct (@numbered_nth (us ++ new_urls (entries 1 us) ms) 1
              (Z.to_nat (g - 1))) as [u Hu]; [lia|].
  exists g, pre', post', u.
  split; [exact Hpre|]. split; [exact Hpost|]. split.
  - simpl. rewrite <- app_assoc. reflexivity.
  - rewrite HG', Hu. do 2 f_equal. lia.
Qed.

Lemma declared_marker_points_to_entry_witness :
  consolidated []
  /\ convert_ref_list_to_map (strs ["[4] a.com"; "[4] b.com"])
     = Ok [("a.com" : str, 4%Z); ("b.com" : str, 4%Z)]
  /\ reformat_references ("Both " ++ "[" ++ "4" ++ "]" ++ ".")
       (strs ["[4] a.com"; "[4] b.com"]) []
     = Ok ("Both [2]." : str, strs ["[1] a.com"; "[2] b.com"])
  /\ exists g pre' post' u,
       reformat_references "Both " (strs ["[4] a.com"; "[4] b.com"]) []
       = Ok (pre', strs ["[1] a.com"; "[2] b.com"])
       /\ reformat_references "." (strs ["[4] a.com"; "[4] b.com"]) []
          = Ok (post', strs ["[1] a.com"; "[2] b.com"])
       /\ ("Both [2]." : str) = pre' ++ "[" ++ render_int g ++ "]" ++ post'
       /\ nth_error (strs ["[1] a.com"; "[2] b.com"]) (Z.to_nat (g - 1))
          = Some (ref_entry g u).
Proof.
  assert (E : reformat_references ("Both " ++ "[" ++ "4" ++ "]" ++ ".")
                (strs ["[4] a.com"; "[4] b.com"]) []
              = Ok ("Both [2]." : str, strs ["[1] a.com"; "[2] b.com"]))
    by (vm_compute; reflexivity).
  split; [apply consolidated_nil|]. split; [vm_compute; reflexivity|].
  split; [exact E|].
  apply (@declared_marker_points_to_entry "Both " "4" "."
           (strs ["[4] a.com"; "[4] b.com"]) []
           [("a.com" : str, 4%Z); ("b.com" : str, 4%Z)] 4%Z
           "Both [2]." (strs ["[1] a.com"; "[2] b.com"])).
  - apply consolidated_nil.
  - vm_compute. reflexivity.
  - left. reflexivity.
  - discriminate.
  - reflexivity.
  - vm_compute. reflexivity.
  - exact E.
Defined.

(** *** Writing an entry and reading it back *)

(** Round trip.  For a number that [str()] writes, below [10 ** 4300]
    in absolute value, the entry that the call writes for the number and
    a locator, the locator being a text stripped of the blanks at its two
    ends as every locator read from a list is, is read back as that
    locator and that number, whatever the locator contains. *)
Theorem entry_round_trip (n : Z) (s : str) :
  (Z.abs n < int_limit)%Z ->
  exists e,
    format_ref n (strip s) = Ok e /\ parse_ref e = Ok (strip s, n).
Proof.
  intros Hn. exists (ref_entry n (strip s)).
  split; [apply format_ref_Ok, Hn|].
  apply parse_entry; [apply strip_chars_stripped|exact Hn].
Qed.

Lemma entry_round_trip_witness :
  (Z.abs (-12) < int_limit)%Z
  /\ format_ref (-12) (strip " a.com/x]?q=[1] ")
     = Ok ("[-12] a.com/x]?q=[1]" : str)
  /\ exists e,
       format_ref (-12) (strip " a.com/x]?q=[1] ") = Ok e
       /\ parse_ref e = Ok (strip " a.com/x]?q=[1] ", (-12)%Z).
Proof.
  assert (H : (Z.abs (-12) < int_limit)%Z) by (vm_compute; reflexivity).
  split; [exact H|]. split; [vm_compute; reflexivity|].
  exact (@entry_round_trip (-12) " a.com/x]?q=[1] " H).
Defined.

End ConsolidationLaws.

(** ** The report: further properties *)

Module ReportLaws.

Import PyStr PyStrFacts References ReferencesFacts Headings Report.
Import Statements MoreStatements ConsolidationLaws.


Section Errors.

Variable ResearchAgent : Type.
Variable write_next_section :
  ResearchAgent -> str -> str -> str -> str -> result LongWriterOutput.
Variable long_writer_agent : ResearchAgent.
Variable original_query : str.



End Errors.


Section Drafts.

Variable ResearchAgent : Type.
Variables writer1 writer2 :
  ResearchAgent -> str -> str -> str -> str -> result LongWriterOutput.
Variable long_writer_agent : ResearchAgent.
Variable original_query : str.

Lemma write_sections_same_writer header all l : forall rest G,
  (forall draft section,
     (exists tail, draft = header ++ tail) -> In section all ->
     writer1 long_writer_agent original_query draft
       (section_title section) (section_content section)
     = writer2 long_writer_agent original_query draft
         (section_title section) (section_content section)) ->
  incl l all ->
  write_sections writer1 long_writer_agent original_query l
    (header ++ rest) G
  = write_sections writer2 long_writer_agent original_query l
      (header ++ rest) G.
Proof.
  induction l as [|section r IH]; intros rest G Hw Hl; [reflexivity|].
  simpl. rewrite <- Hw;
    [|exists rest; reflexivity|apply Hl; left; reflexivity].
  destruct (writer1 _ _ _ _ _) as [out|x]; [|reflexivity]. simpl.
  destruct (reformat_references _ _ G) as [[sm G1]|x]; [|reflexivity].
  simpl. rewrite <- app_assoc. apply IH; [exact Hw|].
  intros s Hs. apply Hl. right. exact Hs.
Qed.

(** What the writer is handed.  [write_report] calls the writer only
    with the title and the seed of a planned section, and with a draft
    of the report that begins with the title line and the table of
    contents: two writers that agree on those calls give the same
    report, or raise the same exception.  The draft is thus never the
    empty text. *)
Theorem writer_handed_header (report_title : str)
    (report_draft : ReportDraft) :
  (forall draft section,
     (exists tail,
        draft = report_header report_title report_draft ++ tail) ->
     In section (sections report_draft) ->
     writer1 long_writer_agent original_query draft
       (section_title section) (section_content section)
     = writer2 long_writer_agent original_query draft
         (section_title section) (section_content section)) ->
  write_report writer1 long_writer_agent original_query report_title
    report_draft
  = write_report writer2 long_writer_agent original_query report_title
      report_draft.
Proof.
  intros Hw. unfold write_report.
  destruct (toc_entries 0 (sections report_draft)) as [toc|x] eqn:Et;
    [|reflexivity].
  cbn [bind]. cbv zeta.
  rewrite (ReportLayout.toc_entries_Ok _ _ Et).
  pose proof (@write_sections_same_writer
                (report_header report_title report_draft)
                (sections report_draft) (sections report_draft) [] []
                Hw (incl_refl _)) as H.
  rewrite app_nil_r in H. unfold report_header in H.
  rewrite H. reflexivity.
Qed.

End Drafts.

Lemma writer_handed_header_witness :
  picky_writer tt "query" [] "Intro" "Text" = Raise CollaboratorError
  /\ sample_writer tt "query" [] "Intro" "Text"
     <> Raise CollaboratorError
  /\ write_report sample_writer tt "query" "T" sample_draft
     = write_report picky_writer tt "query" "T" sample_draft.
Proof.
  split; [reflexivity|]. split; [discriminate|].
  apply (@writer_handed_header unit sample_writer picky_writer tt "query"
           "T" sample_draft).
  intros draft section [tail ->] _. reflexivity.
Defined.

End ReportLaws.
